(** * Verification of [avalon_crypto_utils/signature.py]

    A shallow embedding of the class [ClientSignature]: canonical hashing of
    work-order payloads, selective encryption of [inData], signing, and the
    one-step and two-step signature verification.

    Conventions of the embedding.
    - A Python [str] is represented by its UTF-8 encoding, held in a Rocq
      [string]; [bytes] objects are [list Byte.byte].  Strings that cannot be
      encoded (lone surrogates) and JSON floating-point numbers have no
      representation here.
    - JSON values as produced by [json.loads] are the type [pyval]; a [dict] is
      a finite map with string keys.
    - A JSON text is represented by the value it denotes, so [json.loads] and
      [json.dumps] are the identity on that representation.
    - Python exceptions are explicit: every operation returns a [result].
      Two operations of Python are left out, and the embedding answers
      [Unmodelled] where the code would reach them: the comparison of two
      lists (an [index] that is a list, as a sort key) and the text [str]
      gives for a list or a dict.
    - Calls into the cryptographic capability ([crypto_utility], [ecdsa],
      [secrets]) are recorded in a trace, so that statements such as "before
      any cryptography runs" can be expressed.
    - The file has three parts: the embedding of [signature.py] with an
      executable implementation of the capability it calls, the vocabulary
      and the example inputs of the statements, and the lemmas and theorems. *)

From stdpp Require Import gmap strings list fin_maps pretty sorting.
From Stdlib Require Import ZArith Lia Strings.Byte Strings.Ascii.

#[local] Set Warnings "-register-all".
#[local] Open Scope Z_scope.

(** ** Python values, exceptions and results *)

Definition bytes : Type := list byte.

Inductive pyval : Type :=
| PNone
| PBool (b : bool)
| PInt (z : Z)
| PStr (s : string)
| PList (l : list pyval)
| PDict (d : gmap string pyval).

Inductive exn : Type :=
| KeyError (k : string)
| IndexError
| TypeError
| AttributeError
| UnicodeEncodeError
| ExternalError (msg : string)
| Unmodelled.

Inductive result (A : Type) : Type :=
| Ok (a : A)
| Raise (e : exn).
Arguments Ok {A} a.
Arguments Raise {A} e.

(** ** Calls into the trusted capability that a run performs, in order *)

Inductive call : Type :=
| Call_compute_message_hash (m : bytes)
| Call_encrypt_data (data : bytes) (key iv : option bytes)
| Call_from_pem (pem : bytes)
| Call_verify_digest (signature digest : bytes)
| Call_get_verifying_key
| Call_sign_digest_deterministic (digest : bytes)
| Call_token_hex (nbytes : nat).

Definition trace : Type := list call.

(** ** The monad of the embedding: a trace of calls and a result *)

Definition M (A : Type) : Type := (trace * result A)%type.

Definition ret {A} (a : A) : M A := ([], Ok a).
Definition raise {A} (e : exn) : M A := ([], Raise e).
Definition lift {A} (r : result A) : M A := ([], r).
Definition emit (c : call) : M unit := ([c], Ok tt).

Definition bind {A B} (m : M A) (f : A → M B) : M B :=
  match m with
  | (t, Ok a) => let '(t', r) := f a in (t ++ t', r)
  | (t, Raise e) => (t, Raise e)
  end.

(** [try: m except Exception as e: h e] *)
Definition try_except {A} (m : M A) (h : exn → M A) : M A :=
  match m with
  | (t, Raise e) => let '(t', r) := h e in (t ++ t', r)
  | (t, Ok a) => (t, Ok a)
  end.

Notation "'let*' x := m 'in' k" := (bind m (fun x => k))
  (at level 10, x name, m at level 100, k at level 200, only parsing).
Notation "'let*' ' pat := m 'in' k" :=
  (bind m (fun x => match x with pat => k end))
  (at level 10, pat pattern, m at level 100, k at level 200, only parsing).

(** The calls a run made, and what it returned or raised *)
Definition calls {A} (m : M A) : trace := fst m.
Definition outcome {A} (m : M A) : result A := snd m.

(** [for x in l: acc = step acc x] *)
Fixpoint for_each {A S} (step : S → A → M S) (acc : S) (l : list A) : M S :=
  match l with
  | [] => ret acc
  | x :: l' => let* acc' := step acc x in for_each step acc' l'
  end.

Fixpoint map_M {A B} (f : A → M B) (l : list A) : M (list B) :=
  match l with
  | [] => ret []
  | x :: l' => let* y := f x in let* ys := map_M f l' in ret (y :: ys)
  end.

(** ** Primitive operations of Python on [pyval] *)

Definition encode_utf8 (s : string) : bytes := String.list_byte_of_string s.

Fixpoint is_substring (p s : string) : bool :=
  String.prefix p s ||
  match s with
  | EmptyString => false
  | String _ s' => is_substring p s'
  end.

Definition is_pstr (k : string) (v : pyval) : bool :=
  match v with
  | PStr s => bool_decide (s = k)
  | _ => false
  end.

(** [x[k]] for a string literal [k] *)
Definition getitem (x : pyval) (k : string) : M pyval :=
  match x with
  | PDict d => match d !! k with
               | Some v => ret v
               | None => raise (KeyError k)
               end
  | _ => raise TypeError
  end.

(** [x[k] = v] for a string literal [k] *)
Definition setitem (x : pyval) (k : string) (v : pyval) : M pyval :=
  match x with
  | PDict d => ret (PDict (<[k := v]> d))
  | _ => raise TypeError
  end.

(** [k in x] for a string literal [k] *)
Definition contains (k : string) (x : pyval) : M bool :=
  match x with
  | PDict d => ret (bool_decide (is_Some (d !! k)))
  | PList l => ret (existsb (is_pstr k) l)
  | PStr s => ret (is_substring k s)
  | _ => raise TypeError
  end.

(** [x.encode('UTF-8')] *)
Definition encode (x : pyval) : M bytes :=
  match x with
  | PStr s => ret (encode_utf8 s)
  | _ => raise AttributeError
  end.

(** Truth value of [x], as tested by [not x] *)
Definition truthy (x : pyval) : bool :=
  match x with
  | PNone => false
  | PBool b => b
  | PInt z => negb (z =? 0)
  | PStr s => negb (bool_decide (s = ""%string))
  | PList l => negb (Nat.eqb (length l) 0)
  | PDict d => negb (Nat.eqb (size d) 0)
  end.

(** The characters of a [str]: a character is a leading byte followed by its
    continuation bytes (those in the range 0x80..0xBF). *)
Definition is_continuation (c : ascii) : bool :=
  let n := Z.of_N (Ascii.N_of_ascii c) in (128 <=? n) && (n <? 192).

Definition starts_with_continuation (s : string) : bool :=
  match s with
  | EmptyString => false
  | String c _ => is_continuation c
  end.

Fixpoint utf8_chars (s : string) : list string :=
  match s with
  | EmptyString => []
  | String c s' =>
      let rest := utf8_chars s' in
      if starts_with_continuation s' then
        match rest with
        | h :: t => String c h :: t
        | [] => [String c EmptyString]
        end
      else String c EmptyString :: rest
  end.

(** [for x in v]: the elements a [for] loop visits.  A dict yields its keys;
    the map does not record the order of insertion, and no statement below
    depends on the order in which the keys of a dict are visited. *)
Definition iterate (v : pyval) : M (list pyval) :=
  match v with
  | PList l => ret l
  | PDict d => ret (PStr <$> (map_to_list d).*1)
  | PStr s => ret (PStr <$> utf8_chars s)
  | _ => raise TypeError
  end.

(** [len(v)] *)
Definition len (v : pyval) : M nat :=
  match v with
  | PList l => ret (length l)
  | PDict d => ret (size d)
  | PStr s => ret (length (utf8_chars s))
  | _ => raise TypeError
  end.

Definition int_of_bool (b : bool) : Z := if b then 1 else 0.

(** [a + b] *)
Definition add (a b : pyval) : M pyval :=
  match a, b with
  | PStr x, PStr y => ret (PStr (x +:+ y))
  | PList x, PList y => ret (PList (x ++ y))
  | PInt x, PInt y => ret (PInt (x + y))
  | PInt x, PBool y => ret (PInt (x + int_of_bool y))
  | PBool x, PInt y => ret (PInt (int_of_bool x + y))
  | PBool x, PBool y => ret (PInt (int_of_bool x + int_of_bool y))
  | _, _ => raise TypeError
  end.

(** [str(v)]; the text of a list or a dict is not modelled *)
Definition str (v : pyval) : M pyval :=
  match v with
  | PStr s => ret (PStr s)
  | PInt z => ret (PStr (pretty z))
  | PBool b => ret (PStr (if b then "True" else "False"))
  | PNone => ret (PStr "None")
  | _ => raise Unmodelled
  end.

(** [bytes(v, 'UTF-8')] *)
Definition bytes_of_str (v : pyval) : M bytes :=
  match v with
  | PStr s => ret (encode_utf8 s)
  | _ => raise TypeError
  end.

(** [v.encode("ascii")] *)
Definition is_ascii (c : ascii) : bool := Z.of_N (Ascii.N_of_ascii c) <? 128.

Definition encode_ascii (v : pyval) : M bytes :=
  match v with
  | PStr s =>
      if forallb is_ascii (String.list_ascii_of_string s)
      then ret (encode_utf8 s) else raise UnicodeEncodeError
  | _ => raise AttributeError
  end.

(** ** The trusted capability

    The functions of [crypto_utility], [utility.hex_utils], [ecdsa] and the
    random source of [secrets] that [signature.py] calls.  Their code is not
    part of the verified file; every theorem below holds for each
    implementation of this interface. *)

Class Capability : Type := {
  signing_key : Type;
  verifying_key : Type;
  (* crypto_utility *)
  cu_compute_message_hash : bytes → bytes;
  cu_byte_array_to_base64 : bytes → string;
  cu_base64_to_byte_array : string → string + bytes;
  cu_byte_array_to_hex : bytes → string;
  cu_encrypt_data : bytes → option bytes → option bytes → string + bytes;
  cu_get_verifying_key : signing_key → string + string;
  (* utility.hex_utils *)
  hex_byte_array_to_hex_str : bytes → string;
  hex_is_valid_hex_str : pyval → string + bool;
  (* ecdsa *)
  ecdsa_sign_digest_deterministic : signing_key → bytes → string + bytes;
  ecdsa_from_pem : bytes → string + verifying_key;
  ecdsa_verify_digest : verifying_key → bytes → bytes → string + bool;
  (* the bytes the operating system's random source hands out *)
  entropy : nat → byte
}.

(** A fallible function of the capability either raises an exception, given
    here by its message text [inl msg], or returns [inr a]. *)
Definition external {A} (r : string + A) : M A :=
  match r with
  | inl msg => raise (ExternalError msg)
  | inr a => ret a
  end.

Section WithCapability.
Context `{cap : Capability}.

Definition compute_message_hash (m : bytes) : M bytes :=
  let* _ := emit (Call_compute_message_hash m) in
  ret (cu_compute_message_hash m).

Definition byte_array_to_base64 (b : bytes) : string :=
  cu_byte_array_to_base64 b.

(** [crypto_utility.base64_to_byte_array(v)]: the decoder is given text; a
    value that is not a [str] is refused with [TypeError]. *)
Definition base64_to_byte_array (v : pyval) : M bytes :=
  match v with
  | PStr s => external (cu_base64_to_byte_array s)
  | _ => raise TypeError
  end.

Definition encrypt_data (data : bytes) (key iv : option bytes) : M bytes :=
  let* _ := emit (Call_encrypt_data data key iv) in
  external (cu_encrypt_data data key iv).

Definition get_verifying_key (k : signing_key) : M string :=
  let* _ := emit Call_get_verifying_key in
  external (cu_get_verifying_key k).

Definition sign_digest_deterministic (k : signing_key) (digest : bytes)
  : M bytes :=
  let* _ := emit (Call_sign_digest_deterministic digest) in
  external (ecdsa_sign_digest_deterministic k digest).

Definition from_pem (pem : bytes) : M verifying_key :=
  let* _ := emit (Call_from_pem pem) in
  external (ecdsa_from_pem pem).

Definition verify_digest (vk : verifying_key) (signature digest : bytes)
  : M bool :=
  let* _ := emit (Call_verify_digest signature digest) in
  external (ecdsa_verify_digest vk signature digest).

(** [secrets.token_hex(nbytes)]: the hexadecimal text of [nbytes] random
    bytes. *)
Definition hex_digit (n : N) : ascii :=
  match n with
  | 0%N => "0" | 1%N => "1" | 2%N => "2" | 3%N => "3" | 4%N => "4"
  | 5%N => "5" | 6%N => "6" | 7%N => "7" | 8%N => "8" | 9%N => "9"
  | 10%N => "a" | 11%N => "b" | 12%N => "c" | 13%N => "d" | 14%N => "e"
  | _ => "f"
  end%char.

Fixpoint hexlify (b : bytes) : string :=
  match b with
  | [] => EmptyString
  | x :: b' =>
      let n := Byte.to_N x in
      String (hex_digit (n / 16)) (String (hex_digit (n mod 16)) (hexlify b'))
  end.

Definition byte_array_to_hex_str (b : bytes) : string :=
  hex_byte_array_to_hex_str b.

Definition byte_array_to_hex (b : bytes) : string := cu_byte_array_to_hex b.

Definition is_valid_hex_str (v : pyval) : M bool :=
  external (hex_is_valid_hex_str v).

Definition token_bytes (nbytes : nat) : bytes := entropy <$> seq 0 nbytes.

Definition token_hex (nbytes : nat) : M string :=
  let* _ := emit (Call_token_hex nbytes) in
  ret (hexlify (token_bytes nbytes)).

End WithCapability.

(** ** [list.sort(key=...)]

    [list.sort] is a stable ascending sort: it calls the key function on every
    element first, then orders the elements with [<] on the keys and keeps
    elements with equal keys in their original order.  The arrangement with
    these properties is unique; it is computed here by insertion. *)

Section StableSort.
Context {K A : Type} (leb : K → K → bool).

Fixpoint insert_by_key (x : K * A) (l : list (K * A)) : list (K * A) :=
  match l with
  | [] => [x]
  | y :: l' => if leb x.1 y.1 then x :: y :: l' else y :: insert_by_key x l'
  end.

Definition stable_sort (l : list (K * A)) : list (K * A) :=
  foldr insert_by_key [] l.
(** The order of the keys, on pairs of a key and an element *)
Definition key_rel (p q : K * A) : Prop := leb p.1 q.1 = true.
End StableSort.

(** Keys that [<] can compare: integers (with [bool] a subtype of [int]) among
    themselves and strings among themselves.  Keys that are lists are compared
    element-wise by Python; that comparison is not modelled. *)
Definition int_key (v : pyval) : option Z :=
  match v with
  | PInt z => Some z
  | PBool b => Some (int_of_bool b)
  | _ => None
  end.

Definition str_key (v : pyval) : option string :=
  match v with
  | PStr s => Some s
  | _ => None
  end.

Definition is_plist (v : pyval) : bool :=
  match v with
  | PList _ => true
  | _ => false
  end.

Definition sort_by_keys (keys items : list pyval) : M (list pyval) :=
  if (length items <=? 1)%nat then ret items
  else match mapM int_key keys with
       | Some zs => ret (stable_sort Z.leb (zip zs items)).*2
       | None =>
           match mapM str_key keys with
           | Some ss => ret (stable_sort String.leb (zip ss items)).*2
           | None => if forallb is_plist keys then raise Unmodelled
                     else raise TypeError
           end
       end.

(** [data_objects.sort(key=lambda x: x['index'])] *)
Definition sort_by_index (data_objects : pyval) : M (list pyval) :=
  match data_objects with
  | PList items =>
      let* keys := map_M (λ x, getitem x "index") items in
      sort_by_keys keys items
  | _ => raise AttributeError
  end.

#[global] Instance byte_eq_decision : EqDecision byte := byte_eq_dec.

(** ** The data of [ClientSignature] *)

Inductive SignatureStatus : Type :=
| PASSED
| FAILED
| INVALID_SIGNATURE_FORMAT
| INVALID_VERIFICATION_KEY.

#[global] Instance SignatureStatus_eq_decision : EqDecision SignatureStatus.
Proof. solve_decision. Defined.

(** Number of bytes of the generated nonce *)
Definition NO_OF_BYTES : nat := 16.

(** The worker object: the attributes [generate_client_signature] reads *)
Record worker_details : Type := {
  hashing_algorithm : string;
  signing_algorithm : string;
  encryption_key : string
}.

(** What [generate_client_signature] hands back as the first component: a JSON
    text (a [str], given by the value it denotes) or the [params] mapping
    object itself. *)
Inductive returned_payload : Type :=
| JsonText (v : pyval)
| ParamsObject (v : pyval).

Section ClientSignature.
Context `{cap : Capability}.

(** The attributes of an instance: [self.private_key], [self.public_key] and
    [self.tcs_worker] (the [WorkerConfig] table of [tcs_config.toml]). *)
Record ClientSignature : Type := {
  private_key : option signing_key;
  public_key : option string;
  tcs_worker : gmap string string
}.

(** [__init__] *)
Definition init (config : gmap string string) : ClientSignature :=
  {| private_key := None; public_key := None; tcs_worker := config |}.

Definition param_pool : list string :=
  ["requesterNonce"; "workOrderId"; "workerId"; "requesterId"; "inData"].

(** [self.tcs_worker[k]] *)
Definition config_get (self : ClientSignature) (k : string) : M string :=
  match tcs_worker self !! k with
  | Some v => ret v
  | None => raise (KeyError k)
  end.

(** [__payload_json_check]; [data] is [json.loads(json_data)] *)
Definition __payload_json_check (data : pyval) : M bool :=
  let* has_params := contains "params" data in
  if negb has_params then ret false
  else
    let* data_params := getitem data "params" in
    let* param_valid :=
      for_each (λ param_valid param,
        let* present := contains param data_params in
        ret (if negb present then false else param_valid))
        true param_pool in
    if param_valid then
      let* i_obj := getitem data_params "inData" in
      let* objs := iterate i_obj in
      for_each (λ param_valid obj,
        let* has_data := contains "data" obj in
        if negb has_data then ret false
        else
          let* d := getitem obj "data" in
          if negb (truthy d) then ret false
          else
            let* has_index := contains "index" obj in
            ret (if negb has_index then false else param_valid))
        param_valid objs
    else ret param_valid.

(** [input_json_params['inData'][i]['data'] = v] *)
Definition set_indata_data (input_json_params : pyval) (i : nat) (v : pyval)
  : M pyval :=
  let* indata := getitem input_json_params "inData" in
  match indata with
  | PList items =>
      match items !! i with
      | Some item =>
          let* item' := setitem item "data" v in
          setitem input_json_params "inData" (PList (<[i := item']> items))
      | None => raise IndexError
      end
  | PDict _ => raise (KeyError (pretty i))
  | _ => raise TypeError
  end.

(** The three branches of the loop body of [__encrypt_workorder_indata]: the
    new text of [data] for an item whose key field encodes to [e_key]. *)
Definition encrypted_item_data (data e_key : bytes)
    (session_key session_iv : bytes) (data_key data_iv : option bytes)
  : M string :=
  if bool_decide (e_key = []) || bool_decide (e_key = encode_utf8 "null") then
    let* enc_data := encrypt_data data (Some session_key) (Some session_iv) in
    ret (byte_array_to_base64 enc_data)
  else if bool_decide (e_key = encode_utf8 "-") then
    ret (byte_array_to_base64 data)
  else
    let* enc_data := encrypt_data data data_key data_iv in
    ret (byte_array_to_base64 enc_data).

(** The body of the loop of [__encrypt_workorder_indata]: the state is
    [input_json_params] as mutated so far and the counter [i]. *)
Definition encrypt_loop_body (session_key session_iv : bytes)
    (data_key data_iv : option bytes)
  : pyval * nat → pyval → M (pyval * nat) :=
  λ '(input_json_params, i) item,
    let* d := getitem item "data" in
    let* data := encode d in
    let* k := getitem item "encryptedDataEncryptionKey" in
    let* e_key := encode k in
    let* new_data :=
      encrypted_item_data data e_key session_key session_iv data_key data_iv in
    let* input_json_params :=
      set_indata_data input_json_params i (PStr new_data) in
    ret (input_json_params, S i).

(** [__encrypt_workorder_indata]: returns [input_json_params] as mutated.
    The loop visits the elements of the list while it assigns to
    [input_json_params['inData'][i]['data']]; element [i] is read before it is
    written and the elements are distinct objects ([json.loads] built them). *)
Definition __encrypt_workorder_indata (input_json_params : pyval)
    (session_key session_iv : bytes) (worker_encryption_key : string)
    (data_key data_iv : option bytes) : M pyval :=
  let* indata_objects := getitem input_json_params "inData" in
  let* input_json_params := setitem input_json_params "inData" indata_objects in
  let* items := iterate indata_objects in
  let* '(input_json_params, _) :=
    for_each (encrypt_loop_body session_key session_iv data_key data_iv)
      (input_json_params, 0%nat) items in
  ret input_json_params.

(** [item[k].encode('UTF-8') if k in item else b""] *)
Definition optional_field (item : pyval) (k : string) : M bytes :=
  let* present := contains k item in
  if present then let* v := getitem item k in encode v else ret [].

(** [__calculate_hash_on_concatenated_string] *)
Definition __calculate_hash_on_concatenated_string (input_json_params : pyval)
    (nonce : bytes) : M string :=
  let* w := getitem input_json_params "workOrderId" in
  let* workorder_id := encode w in
  let* w := getitem input_json_params "workerId" in
  let* worker_id := encode w in
  let* workload_id := optional_field input_json_params "workloadId" in
  let* r := getitem input_json_params "requesterId" in
  let* requester_id := encode r in
  let concat_string :=
    nonce ++ workorder_id ++ worker_id ++ workload_id ++ requester_id in
  let* hash_1 := compute_message_hash concat_string in
  ret (byte_array_to_base64 hash_1).

(** The body of the loop of [calculate_datahash] up to [concat_string] *)
Definition item_concat_string (item : pyval) : M bytes :=
  let* datahash := optional_field item "dataHash" in
  let* d := getitem item "data" in
  let* data := encode d in
  let* e_key := optional_field item "encryptedDataEncryptionKey" in
  let* iv := optional_field item "iv" in
  ret (datahash ++ data ++ e_key ++ iv).

(** [calculate_datahash]: returns the list as sorted in place together with
    the returned [hash_str]. *)
Definition calculate_datahash (data_objects : pyval) : M (pyval * string) :=
  let* sorted := sort_by_index data_objects in
  let* hash_str :=
    for_each (λ hash_str item,
      let* concat_string := item_concat_string item in
      let* hash := compute_message_hash concat_string in
      ret (hash_str +:+ byte_array_to_base64 hash))
      EmptyString sorted in
  ret (PList sorted, hash_str).

(** [generate_signature]: returns the instance as mutated and the tuple
    [(status, signature)].  The [try] block assigns [self.private_key], then
    [self.public_key], then signs; an exception at any point is caught. *)
Definition generate_signature (self : ClientSignature) (hash : bytes)
    (private_key : signing_key)
  : M (ClientSignature * (bool * option string)) :=
  let self1 :=
    {| private_key := Some private_key; public_key := public_key self;
       tcs_worker := tcs_worker self |} in
  try_except
    (let* pk := get_verifying_key private_key in
     let self2 :=
       {| private_key := Some private_key; public_key := Some pk;
          tcs_worker := tcs_worker self |} in
     try_except
       (let* signature_res := sign_digest_deterministic private_key hash in
        ret (self2, (true, Some (byte_array_to_base64 signature_res))))
       (λ _, ret (self2, (false, None))))
    (λ _, ret (self1, (false, None))).

(** [self.public_key] as a Python value *)
Definition public_key_value (self : ClientSignature) : pyval :=
  match public_key self with
  | Some pk => PStr pk
  | None => PNone
  end.

(** The part of [generate_client_signature] after the nonce has been
    settled (source lines 295-331). *)
Definition sign_request (self : ClientSignature) (input_json_str : pyval)
    (input_json_params : pyval) (private_key : signing_key)
    (session_key session_iv : bytes) (encrypted_session_key_str : string)
  : M (ClientSignature * (returned_payload * SignatureStatus)) :=
  let input_json := input_json_str in
  let* n := getitem input_json_params "requesterNonce" in
  let* nonce := encode n in
  let* hash_string_1 :=
    __calculate_hash_on_concatenated_string input_json_params nonce in
  let* data_objects := getitem input_json_params "inData" in
  let* '(sorted_in, hash_string_2) := calculate_datahash data_objects in
  let* input_json_params := setitem input_json_params "inData" sorted_in in
  let* has_out := contains "outData" input_json_params in
  let* '(input_json_params, hash_string_3) :=
    (if has_out then
       let* data_objects := getitem input_json_params "outData" in
       let* '(sorted_out, h) := calculate_datahash data_objects in
       let* p := setitem input_json_params "outData" sorted_out in
       ret (p, h)
     else ret (input_json_params, EmptyString)) in
  let concat_string := hash_string_1 +:+ hash_string_2 +:+ hash_string_3 in
  let* final_hash := compute_message_hash (encode_utf8 concat_string) in
  let* encrypted_request_hash :=
    encrypt_data final_hash (Some session_key) (Some session_iv) in
  let encrypted_request_hash_str :=
    byte_array_to_hex_str encrypted_request_hash in
  let* input_json_params :=
    setitem input_json_params "encryptedRequestHash"
      (PStr encrypted_request_hash_str) in
  let* '(self, (status, signature)) :=
    generate_signature self final_hash private_key in
  if negb status then ret (self, (JsonText input_json_str, FAILED))
  else
    let signature_value :=
      match signature with Some s => PStr s | None => PNone end in
    let* input_json_params :=
      setitem input_json_params "requesterSignature" signature_value in
    let* input_json_params :=
      setitem input_json_params "encryptedSessionKey"
        (PStr encrypted_session_key_str) in
    let* input_json_params :=
      setitem input_json_params "verifyingKey" (public_key_value self) in
    let* input_json := setitem input_json "params" input_json_params in
    ret (self, (JsonText input_json, PASSED)).

(** [generate_client_signature].  [input_json_str] is the request text, given
    by the value [json.loads] returns for it; each [json.loads] builds a fresh
    object, so the caller's text is never changed. *)
Definition generate_client_signature (self : ClientSignature)
    (input_json_str : pyval) (worker : worker_details)
    (private_key : signing_key) (session_key session_iv : bytes)
    (encrypted_session_key : bytes) (data_key data_iv : option bytes)
  : M (ClientSignature * (returned_payload * SignatureStatus)) :=
  let* checked := __payload_json_check input_json_str in
  if negb checked then ret (self, (JsonText input_json_str, FAILED))
  else
    let* h := config_get self "HashingAlgorithm" in
    if negb (bool_decide (h = hashing_algorithm worker)) then
      ret (self, (JsonText input_json_str, FAILED))
    else
      let* s := config_get self "SigningAlgorithm" in
      if negb (bool_decide (s = signing_algorithm worker)) then
        ret (self, (JsonText input_json_str, FAILED))
      else
        let input_json := input_json_str in
        let* input_json_params := getitem input_json "params" in
        let* input_json_params :=
          setitem input_json_params "sessionKeyIv"
            (PStr (byte_array_to_hex_str session_iv)) in
        let encrypted_session_key_str :=
          byte_array_to_hex_str encrypted_session_key in
        let* input_json_params :=
          __encrypt_workorder_indata input_json_params session_key session_iv
            (encryption_key worker) data_key data_iv in
        let* has_nonce := contains "requesterNonce" input_json_params in
        if has_nonce then
          let* n := getitem input_json_params "requesterNonce" in
          let* nonce_len := len n in
          if (nonce_len =? 0)%nat then
            let* fresh := token_hex NO_OF_BYTES in
            let* input_json_params :=
              setitem input_json_params "requesterNonce" (PStr fresh) in
            sign_request self input_json_str input_json_params private_key
              session_key session_iv encrypted_session_key_str
          else
            let* valid := is_valid_hex_str n in
            if negb valid then
              ret (self, (ParamsObject input_json_params, FAILED))
            else
              sign_request self input_json_str input_json_params private_key
                session_key session_iv encrypted_session_key_str
        else ret (self, (ParamsObject input_json_params, FAILED)).

(** [str(er)] for an exception caught around [verify_digest]; only the
    capability raises inside that [try] block. *)
Definition exn_text (e : exn) : string :=
  match e with
  | ExternalError msg => msg
  | _ => EmptyString
  end.

(** [VerifyingKey.from_pem(key)] for a key given as a Python value: a [str]
    is encoded first; anything else makes [from_pem] raise. *)
Definition from_pem_value (key : pyval) : M verifying_key :=
  match key with
  | PStr s => from_pem (encode_utf8 s)
  | _ => raise AttributeError
  end.

(** The tail shared by the four verification functions, from the first [try]
    to the end of the function.  The result is [None] when the function falls
    off its end, which Python turns into the value [None]. *)
Definition verify_with_key (parse_key : M verifying_key) (signature : pyval)
    (final_hash : bytes) : M (option SignatureStatus) :=
  let* parsed :=
    try_except (let* vk := parse_key in ret (Some vk)) (λ _, ret None) in
  match parsed with
  | None => ret (Some INVALID_VERIFICATION_KEY)
  | Some _verifying_key =>
      let* decoded_signature := base64_to_byte_array signature in
      try_except
        (let* sig_result :=
           verify_digest _verifying_key decoded_signature final_hash in
         if sig_result then ret (Some PASSED) else ret None)
        (λ er,
           if is_substring "Malformed formatting of signature" (exn_text er)
           then ret (Some INVALID_SIGNATURE_FORMAT)
           else ret (Some FAILED))
  end.

(** [_verify_wo_response_signature] *)
Definition _verify_wo_response_signature (wo_response : pyval)
    (wo_res_verification_key : pyval) : M (option SignatureStatus) :=
  let* wn := getitem wo_response "workerNonce" in
  let* worker_nonce := encode wn in
  let* signature := getitem wo_response "workerSignature" in
  let* hash_string_1 :=
    __calculate_hash_on_concatenated_string wo_response worker_nonce in
  let* data_objects := getitem wo_response "outData" in
  let* '(_, hash_string_2) := calculate_datahash data_objects in
  let concat_string := hash_string_1 +:+ hash_string_2 in
  let* final_hash := compute_message_hash (encode_utf8 concat_string) in
  verify_with_key (from_pem_value wo_res_verification_key) signature final_hash.

(** [_verify_wo_verification_key_signature] *)
Definition _verify_wo_verification_key_signature (wo_response : pyval)
    (wo_verification_key : pyval) (requester_nonce : pyval)
  : M (option SignatureStatus) :=
  match requester_nonce with
  | PNone => ret (Some FAILED)
  | _ =>
      let* ek := getitem wo_response "extVerificationKey" in
      let* concat_string := add ek requester_nonce in
      let* v_key_sig := getitem wo_response "extVerificationKeySignature" in
      let* concat_bytes := bytes_of_str concat_string in
      let* v_key_hash := compute_message_hash concat_bytes in
      verify_with_key (from_pem_value wo_verification_key) v_key_sig v_key_hash
  end.

(** [verify_signature]; [requester_nonce] defaults to [None] *)
Definition verify_signature (wo_response : pyval)
    (wo_res_verification_key : pyval) (requester_nonce : pyval)
  : M (option SignatureStatus) :=
  let* two_step := contains "extVerificationKey" wo_response in
  if two_step then
    let* status :=
      _verify_wo_verification_key_signature wo_response
        wo_res_verification_key requester_nonce in
    if bool_decide (status = Some PASSED) then
      let* ek := getitem wo_response "extVerificationKey" in
      _verify_wo_response_signature wo_response ek
    else ret status
  else
    _verify_wo_response_signature wo_response wo_res_verification_key.

(** [verify_update_receipt_signature] *)
Definition verify_update_receipt_signature (input_json : pyval)
  : M (option SignatureStatus) :=
  let input_json_params := input_json in
  let* a := getitem input_json_params "workOrderId" in
  let* b := getitem input_json_params "updateType" in
  let* b := str b in
  let* ab := add a b in
  let* c := getitem input_json_params "updateData" in
  let* concat_string := add ab c in
  let* concat_hash := bytes_of_str concat_string in
  let* final_hash := compute_message_hash concat_hash in
  let* signature := getitem input_json_params "updateSignature" in
  let* k := getitem input_json_params "receiptVerificationKey" in
  let* verification_key := encode_ascii k in
  verify_with_key (from_pem verification_key) signature final_hash.

(** [verify_create_receipt_signature] *)
Definition verify_create_receipt_signature (input_json : pyval)
  : M (option SignatureStatus) :=
  let* input_json_params := getitem input_json "params" in
  let* a := getitem input_json_params "workOrderId" in
  let* b := getitem input_json_params "workerServiceId" in
  let* acc := add a b in
  let* c := getitem input_json_params "workerId" in
  let* acc := add acc c in
  let* d := getitem input_json_params "requesterId" in
  let* acc := add acc d in
  let* e := getitem input_json_params "receiptCreateStatus" in
  let* e := str e in
  let* acc := add acc e in
  let* f := getitem input_json_params "workOrderRequestHash" in
  let* acc := add acc f in
  let* g := getitem input_json_params "requesterGeneratedNonce" in
  let* concat_string := add acc g in
  let* concat_hash := bytes_of_str concat_string in
  let* final_hash := compute_message_hash concat_hash in
  let* signature := getitem input_json_params "requesterSignature" in
  let* k := getitem input_json_params "receiptVerificationKey" in
  let* verification_key := encode_ascii k in
  verify_with_key (from_pem verification_key) signature final_hash.

(** [calculate_request_hash] *)
Definition calculate_request_hash (input_json : pyval) : M string :=
  let* wo_request_params := getitem input_json "params" in
  let* a := getitem wo_request_params "requesterNonce" in
  let* b := getitem wo_request_params "workOrderId" in
  let* acc := add a b in
  let* c := getitem wo_request_params "workerId" in
  let* acc := add acc c in
  let* d := getitem wo_request_params "workloadId" in
  let* acc := add acc d in
  let* e := getitem wo_request_params "requesterId" in
  let* concat_string := add acc e in
  let* concat_bytes := bytes_of_str concat_string in
  let* h := compute_message_hash concat_bytes in
  let hash_1 := byte_array_to_base64 h in
  let* in_data := getitem wo_request_params "inData" in
  let* '(sorted_in, hash_2) := calculate_datahash in_data in
  let* wo_request_params := setitem wo_request_params "inData" sorted_in in
  let* has_out := contains "outData" wo_request_params in
  let* nonempty :=
    (if has_out then
       let* o := getitem wo_request_params "outData" in
       let* n := len o in
       ret (0 <? n)%nat
     else ret false) in
  let* hash_3 :=
    (if nonempty then
       let* o := getitem wo_request_params "outData" in
       let* '(_, h3) := calculate_datahash o in
       ret h3
     else ret EmptyString) in
  let concat_hash := hash_1 +:+ hash_2 +:+ hash_3 in
  let* final_hash := compute_message_hash (encode_utf8 concat_hash) in
  ret (byte_array_to_hex final_hash).

End ClientSignature.

(** * A reference implementation of the capability

    The modules [crypto_utility] and [utility.hex_utils] and the libraries
    [ecdsa] and [secrets] are not among the verified sources.  To run the
    embedding on concrete inputs the three modules below supply SHA-256,
    base64 and lower-case hexadecimal text as the specification names them,
    and simple stand-ins with the same interface for the symmetric cipher and
    for the signature scheme. *)

(** Modelled from the spec: [crypto_utility.compute_message_hash], which the
    specification gives as "sha256(bytes) -> digest"; the function below is
    SHA-256 as in FIPS 180-4. *)
Module SHA256.

Definition wrap (x : Z) : Z := x mod 2 ^ 32.
Definition add32 (x y : Z) : Z := wrap (x + y).
Definition rotr (n x : Z) : Z :=
  Z.lor (Z.shiftr x n) (wrap (Z.shiftl x (32 - n))).
Definition xor3 (x y z : Z) : Z := Z.lxor (Z.lxor x y) z.
Definition Ch (x y z : Z) : Z :=
  Z.lxor (Z.land x y) (Z.land (Z.lxor x (2 ^ 32 - 1)) z).
Definition Maj (x y z : Z) : Z :=
  xor3 (Z.land x y) (Z.land x z) (Z.land y z).
Definition Sigma0 (x : Z) : Z := xor3 (rotr 2 x) (rotr 13 x) (rotr 22 x).
Definition Sigma1 (x : Z) : Z := xor3 (rotr 6 x) (rotr 11 x) (rotr 25 x).
Definition sigma0 (x : Z) : Z := xor3 (rotr 7 x) (rotr 18 x) (Z.shiftr x 3).
Definition sigma1 (x : Z) : Z :=
  xor3 (rotr 17 x) (rotr 19 x) (Z.shiftr x 10).

(** The constants are the first 32 bits of the fractional parts of the
    square roots (initial state) and of the cube roots (round constants) of
    the first primes. *)
Definition is_prime (n : nat) : bool :=
  forallb (λ d, negb (n mod d =? 0)%nat) (seq 2 (n - 2)).

Definition primes : list Z := Z.of_nat <$> filter is_prime (seq 2 310).

Fixpoint cbrt_search (fuel : nat) (lo hi n : Z) : Z :=
  match fuel with
  | O => lo
  | S fuel' =>
      if hi - lo <=? 1 then lo
      else
        let mid := (lo + hi) / 2 in
        if mid * mid * mid <=? n then cbrt_search fuel' mid hi n
        else cbrt_search fuel' lo mid n
  end.

Definition cbrt (n : Z) : Z := cbrt_search 40 0 (2 ^ 36) n.

Definition initial_state : list Z :=
  Eval vm_compute in (λ p, wrap (Z.sqrt (p * 2 ^ 64))) <$> take 8 primes.

Definition round_constants : list Z :=
  Eval vm_compute in (λ p, wrap (cbrt (p * 2 ^ 96))) <$> primes.

Definition byteZ (b : byte) : Z := Z.of_N (Byte.to_N b).

Definition Zbyte (z : Z) : byte :=
  byte_of_ascii (ascii_of_N (Z.to_N (z mod 256))).

(** The [n] low bytes of [z], most significant first *)
Definition be_bytes (n : nat) (z : Z) : bytes :=
  (λ i, Zbyte (Z.shiftr z (8 * Z.of_nat i))) <$> reverse (seq 0 n).

Definition pad (m : bytes) : bytes :=
  let len := Z.of_nat (length m) in
  let zeros := Z.to_nat ((55 - len) mod 64) in
  m ++ [Zbyte 128] ++ replicate zeros (Zbyte 0) ++ be_bytes 8 (8 * len).

Fixpoint words (b : bytes) : list Z :=
  match b with
  | b0 :: b1 :: b2 :: b3 :: rest =>
      (((byteZ b0 * 256 + byteZ b1) * 256 + byteZ b2) * 256 + byteZ b3)
      :: words rest
  | _ => []
  end.

(** The message schedule is built most recent word first. *)
Definition extend (w : list Z) : list Z :=
  add32 (add32 (sigma1 (w !!! 1%nat)) (w !!! 6%nat))
        (add32 (sigma0 (w !!! 14%nat)) (w !!! 15%nat)) :: w.

Definition schedule (block : list Z) : list Z :=
  reverse (Nat.iter 48 extend (reverse block)).

Definition round (s : list Z) (kw : Z * Z) : list Z :=
  match s with
  | [a; b; c; d; e; f; g; h] =>
      let t1 :=
        add32 (add32 (add32 h (Sigma1 e)) (Ch e f g)) (add32 kw.1 kw.2) in
      let t2 := add32 (Sigma0 a) (Maj a b c) in
      [add32 t1 t2; a; b; c; add32 d t1; e; f; g]
  | _ => s
  end.

Definition compress (s : list Z) (block : list Z) : list Z :=
  zip_with add32 s (foldl round s (zip round_constants (schedule block))).

Fixpoint blocks (n : nat) (w : list Z) : list (list Z) :=
  match n with
  | O => []
  | S n' => take 16 w :: blocks n' (drop 16 w)
  end.

Definition digest (m : bytes) : bytes :=
  let w := words (pad m) in
  let s := foldl compress initial_state (blocks (length w / 16) w) in
  s ≫= be_bytes 4.

End SHA256.

(** Modelled from the spec: [crypto_utility.byte_array_to_base64] and
    [base64_to_byte_array], the "base64 codec" of the specification; the
    alphabet and the padding are those of RFC 4648. *)
Module Base64.
Import SHA256.

Definition alphabet : string :=
  "ABCDEFGHIJKLMNOPQRSTUVWXYZabcdefghijklmnopqrstuvwxyz0123456789+/".

Definition char (n : Z) : ascii :=
  default "="%char (String.get (Z.to_nat (n mod 64)) alphabet).

Fixpoint encode (b : bytes) : string :=
  match b with
  | [] => EmptyString
  | [x] =>
      let n := byteZ x * 16 in
      String (char (n / 64)) (String (char n) "==")
  | [x; y] =>
      let n := (byteZ x * 256 + byteZ y) * 4 in
      String (char (n / 4096)) (String (char (n / 64)) (String (char n) "="))
  | x :: y :: z :: rest =>
      let n := (byteZ x * 256 + byteZ y) * 256 + byteZ z in
      String (char (n / 262144)) (String (char (n / 4096))
        (String (char (n / 64)) (String (char n) (encode rest))))
  end.

Definition value (c : ascii) : option Z :=
  let n := Z.of_N (N_of_ascii c) in
  if (65 <=? n) && (n <=? 90) then Some (n - 65)
  else if (97 <=? n) && (n <=? 122) then Some (n - 71)
  else if (48 <=? n) && (n <=? 57) then Some (n + 4)
  else if n =? 43 then Some 62
  else if n =? 47 then Some 63
  else None.

(** Decoding of unbroken, padded base64 text; other text is refused. *)
Fixpoint decode (s : string) : string + bytes :=
  match s with
  | EmptyString => inr []
  | String a (String b (String c (String d rest))) =>
      match value a, value b, value c, value d, rest with
      | Some p, Some q, Some r, Some t, _ =>
          match decode rest with
          | inr tail =>
              let n := ((p * 64 + q) * 64 + r) * 64 + t in
              inr (be_bytes 3 n ++ tail)
          | inl msg => inl msg
          end
      | Some p, Some q, Some r, None, EmptyString =>
          if bool_decide (d = "="%char)
          then inr (be_bytes 2 (((p * 64 + q) * 64 + r) / 4))
          else inl "Invalid base64 character"
      | Some p, Some q, None, None, EmptyString =>
          if bool_decide (c = "="%char) && bool_decide (d = "="%char)
          then inr (be_bytes 1 ((p * 64 + q) / 16))
          else inl "Invalid base64 character"
      | _, _, _, _, _ => inl "Invalid base64 character"
      end
  | _ => inl "Incorrect padding"
  end.

End Base64.

(** Modelled from the spec: the remaining functions of the capability.  Hex
    text is the codec the specification names; the cipher and the signature
    scheme are stand-ins that only share the interface of the real ones. *)
Module Reference.
Import SHA256.

Definition is_hex_digit (c : ascii) : bool :=
  let n := Z.of_N (N_of_ascii c) in
  ((48 <=? n) && (n <=? 57)) || ((97 <=? n) && (n <=? 102))
  || ((65 <=? n) && (n <=? 70)).

Definition is_valid_hex (v : pyval) : string + bool :=
  match v with
  | PStr s =>
      inr (negb (bool_decide (s = EmptyString))
           && forallb is_hex_digit (String.list_ascii_of_string s))
  | _ => inl "expected str"
  end.

(** Stand-in for the cipher: the IV followed by the data, each byte
    combined with the key bytes in turn. *)
Definition cipher (data : bytes) (key iv : option bytes) : string + bytes :=
  match key with
  | Some (k0 :: k) =>
      inr (default [] iv
           ++ imap (λ i b,
                Zbyte (Z.lxor (byteZ b)
                         (byteZ (nth (i mod S (length k))%nat (k0 :: k) k0))))
                data)
  | _ => inl "no encryption key"
  end.

(** Stand-in for the signature scheme: a keyed digest.  The verifying key
    is the text of the signing key; a signature is well formed when it has
    32 bytes. *)
Definition public_text (k : bytes) : string + string :=
  inr (String.string_of_list_byte k).

Definition sign (k digest : bytes) : string + bytes :=
  match k with
  | [] => inl "no signing key"
  | _ => inr (SHA256.digest (k ++ digest))
  end.

Definition parse_pem (pem : bytes) : string + bytes :=
  match pem with
  | [] => inl "not a PEM key"
  | _ => inr pem
  end.

Definition verify (vk signature digest : bytes) : string + bool :=
  if negb (length signature =? 32)%nat then
    inl "Malformed formatting of signature"
  else if bool_decide (signature = SHA256.digest (vk ++ digest)) then
    inr true
  else inl "Signature verification failed".

#[export] Instance capability : Capability := {|
  signing_key := bytes;
  verifying_key := bytes;
  cu_compute_message_hash := SHA256.digest;
  cu_byte_array_to_base64 := Base64.encode;
  cu_base64_to_byte_array := Base64.decode;
  cu_byte_array_to_hex := hexlify;
  cu_encrypt_data := cipher;
  cu_get_verifying_key := public_text;
  hex_byte_array_to_hex_str := hexlify;
  hex_is_valid_hex_str := is_valid_hex;
  ecdsa_sign_digest_deterministic := sign;
  ecdsa_from_pem := parse_pem;
  ecdsa_verify_digest := verify;
  entropy := λ i, Zbyte (Z.of_nat i * 37 + 11)
|}.

End Reference.

(** * Vocabulary of the statements *)

(** The concatenation of a list of strings *)
Definition concat_str (l : list string) : string :=
  foldr String.append EmptyString l.

(** The ['index'] of an item, and the order [list.sort] arranges keys in. *)
Definition index_value (item : pyval) : option pyval :=
  match item with
  | PDict d => d !! "index"
  | _ => None
  end.

(** [not (b < a)] on two keys that Python can compare *)
Definition key_le (a b : pyval) : Prop :=
  (∃ x y, int_key a = Some x ∧ int_key b = Some y ∧ x ≤ y)
  ∨ (∃ x y, str_key a = Some x ∧ str_key b = Some y ∧ String.leb x y = true).

(** Two items in ascending order of their index *)
Definition index_le (i j : pyval) : Prop :=
  ∃ a b, index_value i = Some a ∧ index_value j = Some b ∧ key_le a b.

(** The bytes of field [k] of a mapping, empty when the field is absent. *)
Definition field_bytes (d : gmap string pyval) (k : string) : bytes :=
  match d !! k with
  | Some (PStr s) => encode_utf8 s
  | _ => []
  end.

(** A field that is absent or holds a string. *)
Definition optional_str (d : gmap string pyval) (k : string) : bool :=
  match d !! k with
  | Some (PStr _) | None => true
  | Some _ => false
  end.

(** A field that is present and holds a string. *)
Definition required_str (d : gmap string pyval) (k : string) : bool :=
  match d !! k with
  | Some (PStr _) => true
  | _ => false
  end.

Section DigestChain.
Context `{cap : Capability}.

(** The claim's words: the base64 text of the SHA-256 digest of one item's
    concatenation, and the chain of these texts over the sorted items. *)
Definition item_digest (item : pyval) : M string :=
  let* concat_string := item_concat_string item in
  let* hash := compute_message_hash concat_string in
  ret (byte_array_to_base64 hash).

Definition digest_chain (data_objects : pyval) : M (pyval * string) :=
  let* sorted := sort_by_index data_objects in
  let* digests := map_M item_digest sorted in
  ret (PList sorted, concat_str digests).

End DigestChain.

Section KeyedOrder.
Context {K : Type} (leb : K → K → bool) (key_of : pyval → option K).

(** Two items in ascending order of the key [key_of] reads from them *)
Definition keyed_le (a b : pyval) : Prop :=
  ∃ x y, key_of a = Some x ∧ key_of b = Some y ∧ leb x y = true.

End KeyedOrder.

(** The index of an item when it is an integer, and when it is a string *)
Definition int_index (item : pyval) : option Z := index_value item ≫= int_key.

Definition str_index (item : pyval) : option string :=
  index_value item ≫= str_key.

(** What [data_objects.sort(key=lambda x: x['index'])] leaves in the list: a
    rearrangement of the items, ascending by index, with items of equal index
    in their original order; no call into the capability is made. *)
Definition sorted_by_index (items sorted : list pyval) : Prop :=
  sorted ≡ₚ items
  ∧ Sorted index_le sorted
  ∧ (∀ z, filter (λ it, int_index it = Some z) sorted
          = filter (λ it, int_index it = Some z) items)
  ∧ (∀ s, filter (λ it, str_index it = Some s) sorted
          = filter (λ it, str_index it = Some s) items).

(** A data item with an integer index, a string [data] and optional string
    fields. *)
Definition wf_item (v : pyval) : bool :=
  match v with
  | PDict d =>
      bool_decide (is_Some (int_index v))
      && required_str d "data"
      && optional_str d "dataHash"
      && optional_str d "encryptedDataEncryptionKey"
      && optional_str d "iv"
  | _ => false
  end.

(** The fields of the header hash: three strings and an optional one. *)
Definition wf_header (d : gmap string pyval) : bool :=
  required_str d "workOrderId"
  && required_str d "workerId"
  && optional_str d "workloadId"
  && required_str d "requesterId".

(** A field whose value [str] turns into text: a string, an integer, a
    boolean or [None] *)
Definition printable_field (d : gmap string pyval) (k : string) : bool :=
  match d !! k with
  | Some (PStr _ | PInt _ | PBool _ | PNone) => true
  | _ => false
  end.

(** A field holding ASCII text *)
Definition ascii_field (d : gmap string pyval) (k : string) : bool :=
  match d !! k with
  | Some (PStr s) => forallb is_ascii (String.list_ascii_of_string s)
  | _ => false
  end.

(** A field holding text that the base64 decoder accepts. *)
Definition decodable `{cap : Capability} (d : gmap string pyval) (k : string)
  : bool :=
  match d !! k with
  | Some (PStr s) =>
      match cu_base64_to_byte_array s with
      | inr _ => true
      | inl _ => false
      end
  | _ => false
  end.

(** The payload of a receipt update with the fields
    [verify_update_receipt_signature] reads *)
Definition wf_update_receipt `{cap : Capability} (input_json : pyval) : bool :=
  match input_json with
  | PDict d =>
      required_str d "workOrderId"
      && printable_field d "updateType"
      && required_str d "updateData"
      && decodable d "updateSignature"
      && ascii_field d "receiptVerificationKey"
  | _ => false
  end.

(** The payload of a receipt with the fields
    [verify_create_receipt_signature] reads *)
Definition wf_create_receipt `{cap : Capability} (input_json : pyval) : bool :=
  match input_json with
  | PDict top =>
      match top !! "params" with
      | Some (PDict d) =>
          required_str d "workOrderId"
          && required_str d "workerServiceId"
          && required_str d "workerId"
          && required_str d "requesterId"
          && printable_field d "receiptCreateStatus"
          && required_str d "workOrderRequestHash"
          && required_str d "requesterGeneratedNonce"
          && decodable d "requesterSignature"
          && ascii_field d "receiptVerificationKey"
      | _ => false
      end
  | _ => false
  end.

(** [outData] is a list of well-formed items. *)
Definition wf_out_data (d : gmap string pyval) : bool :=
  match d !! "outData" with
  | Some (PList items) => forallb wf_item items
  | _ => false
  end.

(** A response without [extVerificationKey], or with one that is a string
    together with a decodable assertion signature and a nonce that is a
    string or [None] *)
Definition wf_key_assertion `{cap : Capability} (d : gmap string pyval)
    (requester_nonce : pyval) : bool :=
  match d !! "extVerificationKey" with
  | None => true
  | Some (PStr _) =>
      match requester_nonce with
      | PNone => true
      | PStr _ => decodable d "extVerificationKeySignature"
      | _ => false
      end
  | Some _ => false
  end.

(** A work-order response with the fields [verify_signature] reads *)
Definition wf_response `{cap : Capability} (wo_response requester_nonce : pyval)
  : bool :=
  match wo_response with
  | PDict d =>
      required_str d "workerNonce"
      && decodable d "workerSignature"
      && wf_header d
      && wf_out_data d
      && wf_key_assertion d requester_nonce
  | _ => false
  end.

(** The run returns one of the four statuses: no exception, not [None]. *)
Definition is_status (r : M (option SignatureStatus)) : Prop :=
  ∃ t s, r = (t, Ok (Some s)).

(** The key-sharing mode that [encryptedDataEncryptionKey] selects *)
Inductive key_sharing_mode : Type :=
| SharedSession
| PassThrough
| ItemSpecific.

Definition mode_of_key (e_key : string) : key_sharing_mode :=
  if bool_decide (e_key = EmptyString) || bool_decide (e_key = "null")
  then SharedSession
  else if bool_decide (e_key = "-") then PassThrough
  else ItemSpecific.

(** An item whose [data] and [encryptedDataEncryptionKey] are strings *)
Definition keyed_item (v : pyval) : bool :=
  match v with
  | PDict d =>
      required_str d "data" && required_str d "encryptedDataEncryptionKey"
  | _ => false
  end.

Section EncryptionModes.
Context `{cap : Capability}.
Context (session_key session_iv : bytes) (data_key data_iv : option bytes).

(** The new text of [data] in each mode *)
Definition data_for_mode (mode : key_sharing_mode) (data : bytes) : M string :=
  match mode with
  | SharedSession =>
      let* enc := encrypt_data data (Some session_key) (Some session_iv) in
      ret (byte_array_to_base64 enc)
  | PassThrough => ret (byte_array_to_base64 data)
  | ItemSpecific =>
      let* enc := encrypt_data data data_key data_iv in
      ret (byte_array_to_base64 enc)
  end.

(** The item after the step: only its [data] is replaced. *)
Definition encrypt_item (item : pyval) : M pyval :=
  match item with
  | PDict d =>
      match d !! "data", d !! "encryptedDataEncryptionKey" with
      | Some (PStr data), Some (PStr e_key) =>
          let* new_data :=
            data_for_mode (mode_of_key e_key) (encode_utf8 data) in
          ret (PDict (<["data" := PStr new_data]> d))
      | _, _ => raise TypeError
      end
  | _ => raise TypeError
  end.

End EncryptionModes.

(** The string [calculate_datahash] returns *)
Definition hash_str_of (m : M (pyval * string)) : result string :=
  match outcome m with
  | Ok (_, hash_str) => Ok hash_str
  | Raise e => Raise e
  end.

(** An item with an integer index, and that index *)
Definition has_int_index (item : pyval) : Prop := is_Some (int_index item).

Definition ikey (item : pyval) : Z := default 0 (int_index item).

(** The bytes hashed for an item and the text of their digest *)
Definition item_bytes (d : gmap string pyval) : bytes :=
  field_bytes d "dataHash" ++ field_bytes d "data"
    ++ field_bytes d "encryptedDataEncryptionKey" ++ field_bytes d "iv".

Definition digest_text `{cap : Capability} (d : gmap string pyval) : string :=
  cu_byte_array_to_base64 (cu_compute_message_hash (item_bytes d)).

Definition item_text `{cap : Capability} (item : pyval) : string :=
  match item with
  | PDict d => digest_text d
  | _ => EmptyString
  end.

(** The list with the item of a given index replaced *)
Definition relabel (dx dx' : gmap string pyval) (item : pyval) : pyval :=
  if decide (int_index item = int_index (PDict dx)) then PDict dx' else item.

(** The fields of an item that the claim on sensitivity names *)
Definition hashed_field (k : string) : Prop :=
  k = "data" ∨ k = "encryptedDataEncryptionKey" ∨ k = "iv".

Section Acceptance.
Context `{cap : Capability}.
Context (self : ClientSignature) (worker : worker_details)
  (session_iv : bytes).

(** The request passes the checks made before its [params] are touched. *)
Definition accepted (input_json_str : pyval) : Prop :=
  __payload_json_check input_json_str = ret true
  ∧ tcs_worker self !! "HashingAlgorithm" = Some (hashing_algorithm worker)
  ∧ tcs_worker self !! "SigningAlgorithm" = Some (signing_algorithm worker).

(** The [params] once [sessionKeyIv] is set and [inData] is encrypted *)
Definition encrypted_params (d : gmap string pyval) (items' : list pyval)
  : pyval :=
  PDict (<["inData" := PList items']>
           (<["sessionKeyIv" := PStr (byte_array_to_hex_str session_iv)]> d)).

End Acceptance.

(** * Example inputs *)

(** The request of the specification's concrete scenario: no [workloadId],
    one item, a fixed nonce. *)
Definition request_without_workload_id : pyval :=
  PDict {[ "params" :=
    PDict {[ "requesterNonce" := PStr "0a1b2c3d";
             "workOrderId" := PStr "wo1";
             "workerId" := PStr "w1";
             "requesterId" := PStr "r1";
             "inData" :=
               PList [PDict {[ "index" := PInt 0; "data" := PStr "abc";
                               "encryptedDataEncryptionKey" :=
                                 PStr EmptyString ]}] ]} ]}.

(** The configuration and the worker of the examples *)
Definition example_config : gmap string string :=
  {[ "HashingAlgorithm" := "SHA-256"; "SigningAlgorithm" := "SECP256K1" ]}.

Definition example_worker : worker_details :=
  {| hashing_algorithm := "SHA-256"; signing_algorithm := "SECP256K1";
     encryption_key := EmptyString |}.

(** A request whose nonce is not hexadecimal; its only item is passed in
    clear. *)
Definition params_with_bad_nonce : gmap string pyval :=
  {[ "requesterNonce" := PStr "zz";
     "workOrderId" := PStr "wo1";
     "workerId" := PStr "w1";
     "requesterId" := PStr "r1";
     "inData" :=
       PList [PDict {[ "index" := PInt 0; "data" := PStr "abc";
                       "encryptedDataEncryptionKey" := PStr "-" ]}] ]}.

Definition request_with_bad_nonce : gmap string pyval :=
  {[ "params" := PDict params_with_bad_nonce ]}.

(** Payloads signed with the reference capability *)
Module Examples.
Import Reference.

Definition item_fields (index : Z) (fields : list (string * string))
  : gmap string pyval :=
  <["index" := PInt index]> (list_to_map (prod_map id PStr <$> fields)).

Definition item (index : Z) (fields : list (string * string)) : pyval :=
  PDict (item_fields index fields).

Definition out_data : list pyval :=
  [ item 2 [("data", "cmVzdWx0LTI="); ("iv", "00")];
    item 0 [("data", "cmVzdWx0LTA="); ("encryptedDataEncryptionKey", "-")];
    item 1 [("data", "cmVzdWx0LTE="); ("dataHash", "aGFzaA==")] ].

Definition sorted_out_data : list pyval :=
  [ item 0 [("data", "cmVzdWx0LTA="); ("encryptedDataEncryptionKey", "-")];
    item 1 [("data", "cmVzdWx0LTE="); ("dataHash", "aGFzaA==")];
    item 2 [("data", "cmVzdWx0LTI="); ("iv", "00")] ].

(** Items of a request, one for each value of the key field that selects a
    mode *)
Definition in_data : list pyval :=
  [ item 1 [("data", "abc"); ("encryptedDataEncryptionKey", "")];
    item 0 [("data", "def"); ("encryptedDataEncryptionKey", "-")];
    item 2 [("data", "ghi"); ("encryptedDataEncryptionKey", "a1b2")];
    item 3 [("data", "jkl"); ("encryptedDataEncryptionKey", "null")] ].

Definition request_params : gmap string pyval :=
  {[ "requesterNonce" := PStr "0a1b2c3d";
     "workOrderId" := PStr "wo1";
     "workerId" := PStr "w1";
     "requesterId" := PStr "r1";
     "inData" := PList in_data ]}.

Definition response_fields : gmap string pyval :=
  {[ "workOrderId" := PStr "wo1";
     "workerId" := PStr "w1";
     "requesterId" := PStr "r1";
     "workerNonce" := PStr "5f3a";
     "outData" := PList out_data ]}.

(** The digest a worker signs for a response *)
Definition response_digest (d : gmap string pyval) (worker_nonce : string)
  : bytes :=
  match outcome (__calculate_hash_on_concatenated_string (PDict d)
                   (encode_utf8 worker_nonce)),
        outcome (calculate_datahash (PList out_data)) with
  | Ok h1, Ok (_, h2) => SHA256.digest (encode_utf8 (h1 +:+ h2))
  | _, _ => []
  end.

Definition signature_text (k digest : bytes) : string :=
  match sign k digest with
  | inr s => Base64.encode s
  | inl _ => EmptyString
  end.

Definition worker_key : string := "long-lived worker key".
Definition session_verification_key : string := "per-session key".
Definition requester_nonce : string := "0a1b2c3d".

Definition singleton_signature : string :=
  Eval vm_compute in
    signature_text (encode_utf8 worker_key)
      (response_digest response_fields "5f3a").

Definition session_signature : string :=
  Eval vm_compute in
    signature_text (encode_utf8 session_verification_key)
      (response_digest response_fields "5f3a").

Definition key_assertion (nonce : string) : string :=
  signature_text (encode_utf8 worker_key)
    (SHA256.digest (encode_utf8 (session_verification_key +:+ nonce))).

Definition key_assertion_signature : string :=
  Eval vm_compute in key_assertion requester_nonce.

Definition other_assertion_signature : string :=
  Eval vm_compute in key_assertion "ffff".

(** A response of a singleton worker, signed with the worker key *)
Definition singleton_response : pyval :=
  PDict (<["workerSignature" := PStr singleton_signature]> response_fields).

(** A response signed with a per-session key that the worker key certifies
    for the requester's nonce *)
Definition delegated_fields : gmap string pyval :=
  <["extVerificationKey" := PStr session_verification_key]>
    (<["extVerificationKeySignature" := PStr key_assertion_signature]>
       (<["workerSignature" := PStr session_signature]> response_fields)).

Definition delegated_response : pyval := PDict delegated_fields.

(** The same response with a key assertion made for another nonce *)
Definition uncertified_response : pyval :=
  PDict (<["extVerificationKeySignature" :=
             PStr other_assertion_signature]> delegated_fields).

Definition update_signature : string :=
  Eval vm_compute in
    signature_text (encode_utf8 worker_key)
      (SHA256.digest (encode_utf8 "wo11done")).

Definition update_receipt : pyval :=
  PDict {[ "workOrderId" := PStr "wo1";
           "updateType" := PInt 1;
           "updateData" := PStr "done";
           "updateSignature" := PStr update_signature;
           "receiptVerificationKey" := PStr worker_key ]}.

Definition create_signature : string :=
  Eval vm_compute in
    signature_text (encode_utf8 worker_key)
      (SHA256.digest (encode_utf8 "wo1svcw1r10abcd0a1b")).

Definition create_receipt : pyval :=
  PDict {[ "params" :=
    PDict {[ "workOrderId" := PStr "wo1";
             "workerServiceId" := PStr "svc";
             "workerId" := PStr "w1";
             "requesterId" := PStr "r1";
             "receiptCreateStatus" := PInt 0;
             "workOrderRequestHash" := PStr "abcd";
             "requesterGeneratedNonce" := PStr "0a1b";
             "requesterSignature" := PStr create_signature;
             "receiptVerificationKey" := PStr worker_key ]} ]}.

End Examples.

(** * Further vocabulary

    Predicates and reference values for the statements on the checks, the
    signed digest, the receipts and the signed request. *)

(** What [__payload_json_check] asks of one element of [inData]: a [data]
    that is present and not empty, and an [index]. *)
Definition checked_item (obj : pyval) : bool :=
  match obj with
  | PDict o =>
      match o !! "data" with
      | Some v => truthy v && bool_decide (is_Some (o !! "index"))
      | None => false
      end
  | _ => false
  end.

Definition is_pdict (v : pyval) : bool :=
  match v with
  | PDict _ => true
  | _ => false
  end.

(** Every name of [param_pool] is a key of the mapping. *)
Definition has_params (d : gmap string pyval) : bool :=
  forallb (λ k, bool_decide (is_Some (d !! k))) param_pool.

(** The item with the field [k] set to the empty string when it is absent *)
Definition with_default (k : string) (item : pyval) : pyval :=
  match item with
  | PDict d =>
      match d !! k with
      | None => PDict (<[k := PStr EmptyString]> d)
      | Some _ => item
      end
  | _ => item
  end.

(** The item with every absent optional field of [calculate_datahash] set to
    the empty string *)
Definition with_empty_fields (item : pyval) : pyval :=
  with_default "dataHash"
    (with_default "encryptedDataEncryptionKey" (with_default "iv" item)).

(** The bytes of the header hash: the nonce followed by the four fields *)
Definition header_bytes (d : gmap string pyval) (nonce : bytes) : bytes :=
  nonce ++ field_bytes d "workOrderId" ++ field_bytes d "workerId"
    ++ field_bytes d "workloadId" ++ field_bytes d "requesterId".

(** An item that [calculate_datahash] can hash: a mapping whose [data] is a
    string and whose optional fields, when present, are strings. *)
Definition hashable_item (v : pyval) : bool :=
  match v with
  | PDict d =>
      required_str d "data"
      && optional_str d "dataHash"
      && optional_str d "encryptedDataEncryptionKey"
      && optional_str d "iv"
  | _ => false
  end.

Section SignedDigest.
Context `{cap : Capability}.

(** The chain of the base64 digests of a list of items, in the order given *)
Definition chain_text (items : list pyval) : string :=
  concat_str (item_text <$> items).

(** The text of the header hash *)
Definition header_text (d : gmap string pyval) (nonce : bytes) : string :=
  cu_byte_array_to_base64 (cu_compute_message_hash (header_bytes d nonce)).

(** The digest over which the signature of a response is verified: the hash
    of the header text followed by the chain of the items of [outData] in
    sorted order. *)
Definition signed_digest (d : gmap string pyval) (worker_nonce : string)
    (sorted : list pyval) : bytes :=
  cu_compute_message_hash
    (encode_utf8 (header_text d (encode_utf8 worker_nonce)
                    +:+ chain_text sorted)).

(** The capability accepts the signature text [sig] for [digest] under the
    key text [key]: the key parses, the text decodes, and [verify_digest]
    answers [True]. *)
Definition accepts (key sig : pyval) (digest : bytes) : Prop :=
  ∃ k vk s sg,
    key = PStr k
    ∧ ecdsa_from_pem (encode_utf8 k) = inr vk
    ∧ sig = PStr s
    ∧ cu_base64_to_byte_array s = inr sg
    ∧ ecdsa_verify_digest vk sg digest = inr true.

(** The fields of a response that are hashed can be read: the nonce [n] is a
    string, the signature field holds [sig], the header fields are strings,
    and [outData] is a list of items that can be hashed and that sorts into
    [sorted]. *)
Definition hashed_response (d : gmap string pyval) (n : string) (sig : pyval)
    (sorted : list pyval) : Prop :=
  d !! "workerNonce" = Some (PStr n)
  ∧ d !! "workerSignature" = Some sig
  ∧ wf_header d = true
  ∧ ∃ items,
      d !! "outData" = Some (PList items)
      ∧ forallb hashable_item items = true
      ∧ outcome (sort_by_index (PList items)) = Ok sorted.

(** The response [d] carries a signature that the capability accepts, under
    [key], for the digest of its header and its [outData]. *)
Definition response_accepted (d : gmap string pyval) (key : pyval) : Prop :=
  ∃ n sig sorted,
    hashed_response d n sig sorted
    ∧ accepts key sig (signed_digest d n sorted).

(** The response [d] carries a signature that the capability accepts, under
    [key], for the digest of [extVerificationKey] followed by the requester's
    nonce. *)
Definition assertion_accepted (d : gmap string pyval)
    (key requester_nonce : pyval) : Prop :=
  ∃ ek n sig,
    d !! "extVerificationKey" = Some (PStr ek)
    ∧ requester_nonce = PStr n
    ∧ d !! "extVerificationKeySignature" = Some sig
    ∧ accepts key sig (cu_compute_message_hash (encode_utf8 (ek +:+ n))).

End SignedDigest.

(** The mappings agree on every key outside [ks] *)
Definition agree_off (ks : list string) (d d' : gmap string pyval) : Prop :=
  ∀ k, k ∉ ks → d' !! k = d !! k.

(** The keys that [generate_client_signature] may write in [params] *)
Definition written_keys : list string :=
  ["sessionKeyIv"; "inData"; "requesterNonce"; "outData";
   "encryptedRequestHash"; "requesterSignature"; "encryptedSessionKey";
   "verifyingKey"].

Section ReceiptDigest.
Context `{cap : Capability}.

(** The field [k] of [d] is the text [s], or a value that [str] turns into
    [s] when [printable] is set. *)
Definition text_field (printable : bool) (d : gmap string pyval) (k : string)
    (s : string) : Prop :=
  if printable then ∃ v, d !! k = Some v ∧ str v = ret (PStr s)
  else d !! k = Some (PStr s).

(** The receipt [d] carries, under [sig_field], a signature that the
    capability accepts under its ASCII [receiptVerificationKey] for the hash
    of the concatenation [text]. *)
Definition receipt_accepted (d : gmap string pyval) (sig_field : string)
    (text : string) : Prop :=
  ∃ k sig,
    d !! sig_field = Some sig
    ∧ d !! "receiptVerificationKey" = Some (PStr k)
    ∧ forallb is_ascii (String.list_ascii_of_string k) = true
    ∧ accepts (PStr k) sig (cu_compute_message_hash (encode_utf8 text)).

End ReceiptDigest.

(** Further example inputs *)
Module Scenarios.
Import Reference.

(** A request with a [workloadId], and the run that signs it *)
Definition workload_request : gmap string pyval :=
  {[ "params" :=
       PDict (<["workloadId" := PStr "776c"]> Examples.request_params) ]}.

Definition signing_run (top : gmap string pyval)
  : M (ClientSignature * (returned_payload * SignatureStatus)) :=
  generate_client_signature (cap := Reference.capability)
    (init example_config) (PDict top) example_worker
    (encode_utf8 "signing key") (encode_utf8 "session key")
    (encode_utf8 "IV") (encode_utf8 "wrapped key")
    (Some (encode_utf8 "data key")) (Some (encode_utf8 "JW")).

(** Two headers whose fields are split differently *)
Definition header_ab_c : gmap string pyval :=
  {[ "workOrderId" := PStr "ab"; "workerId" := PStr "c";
     "requesterId" := PStr "r1" ]}.

Definition header_a_bc : gmap string pyval :=
  {[ "workOrderId" := PStr "a"; "workerId" := PStr "bc";
     "requesterId" := PStr "r1" ]}.

(** The fields of an update receipt, and a verification key with a character
    outside ASCII *)
Definition update_fields : gmap string pyval :=
  {[ "workOrderId" := PStr "wo1";
     "updateData" := PStr "done";
     "updateSignature" := PStr Examples.update_signature;
     "receiptVerificationKey" := PStr Examples.worker_key ]}.

Definition key_outside_ascii : string := String "233"%char "cole".

(** The fields of a create receipt *)
Definition create_fields : gmap string pyval :=
  {[ "workOrderId" := PStr "wo1";
     "workerServiceId" := PStr "svc";
     "workerId" := PStr "w1";
     "requesterId" := PStr "r1";
     "receiptCreateStatus" := PInt 0;
     "workOrderRequestHash" := PStr "abcd";
     "requesterGeneratedNonce" := PStr "0a1b";
     "requesterSignature" := PStr Examples.create_signature;
     "receiptVerificationKey" := PStr Examples.worker_key ]}.

(** The fields of the singleton response *)
Definition singleton_fields : gmap string pyval :=
  <["workerSignature" := PStr Examples.singleton_signature]>
    Examples.response_fields.

End Scenarios.

(** * Lemmas and theorems *)

(** Known answers of SHA-256 and base64 *)
Example sha256_abc :
  hexlify (SHA256.digest (encode_utf8 "abc"))
  = "ba7816bf8f01cfea414140de5dae2223b00361a396177a9cb410ff61f20015ad".
Proof. vm_compute. reflexivity. Qed.

Example sha256_empty :
  hexlify (SHA256.digest [])
  = "e3b0c44298fc1c149afbf4c8996fb92427ae41e4649b934ca495991b7852b855".
Proof. vm_compute. reflexivity. Qed.

Example base64_foobar :
  Base64.encode (encode_utf8 "fooba") = "Zm9vYmE="
  ∧ Base64.decode "Zm9vYmE=" = inr (encode_utf8 "fooba")
  ∧ Base64.encode (encode_utf8 "foobar") = "Zm9vYmFy"
  ∧ Base64.decode "Zm9vYg==" = inr (encode_utf8 "foob").
Proof. vm_compute. done. Qed.

(** * Facts about the monad *)

Lemma bind_ret_l {A B} (a : A) (f : A → M B) : bind (ret a) f = f a.
Proof. unfold bind, ret. by destruct (f a). Qed.

Lemma bind_ret_r {A} (m : M A) : bind m ret = m.
Proof.
  destruct m as [t [a|e]]; simpl; [|done]. by rewrite app_nil_r.
Qed.

Lemma bind_assoc {A B C} (m : M A) (f : A → M B) (g : B → M C) :
  bind (bind m f) g = bind m (λ a, bind (f a) g).
Proof.
  destruct m as [t [a|e]]; simpl; [|done].
  destruct (f a) as [t' [b|e]]; simpl; [|done].
  destruct (g b) as [t'' r]. by rewrite app_assoc.
Qed.

Lemma bind_ext {A B} (m : M A) (f g : A → M B) :
  (∀ a, f a = g a) → bind m f = bind m g.
Proof.
  intros Hfg. destruct m as [t [a|e]]; simpl; [|done]. by rewrite Hfg.
Qed.

Lemma bind_ok {A B} (t : trace) (a : A) (f : A → M B) :
  bind (t, Ok a) f = ((t ++ (f a).1), (f a).2).
Proof. simpl. by destruct (f a). Qed.

(** * Facts about strings and bytes *)

Lemma append_cons (x : ascii) (a b : string) :
  String x a +:+ b = String x (a +:+ b).
Proof. reflexivity. Qed.

Lemma append_assoc (a b c : string) : (a +:+ b) +:+ c = a +:+ (b +:+ c).
Proof.
  induction a as [|x a IH]; [done|]. by rewrite !append_cons, IH.
Qed.

Lemma append_empty_r (a : string) : a +:+ EmptyString = a.
Proof. induction a as [|x a IH]; [done|]. by rewrite append_cons, IH. Qed.

Lemma encode_utf8_inj (s1 s2 : string) :
  encode_utf8 s1 = encode_utf8 s2 → s1 = s2.
Proof.
  unfold encode_utf8. intros H.
  rewrite <- (String.string_of_list_byte_of_string s1),
          <- (String.string_of_list_byte_of_string s2).
  by rewrite H.
Qed.

(** * Facts about [stable_sort] *)

Section StableSortFacts.
Context {K A : Type} (leb : K → K → bool).
Implicit Types (x : K * A) (l : list (K * A)).

Lemma insert_by_key_perm x l : insert_by_key leb x l ≡ₚ x :: l.
Proof.
  induction l as [|y l IH]; simpl; [done|].
  destruct (leb x.1 y.1); [done|].
  rewrite IH. apply Permutation_swap.
Qed.

Lemma stable_sort_perm l : stable_sort leb l ≡ₚ l.
Proof.
  induction l as [|x l IH]; simpl; [done|].
  by rewrite insert_by_key_perm, IH.
Qed.

Hypothesis leb_total : ∀ a b, leb a b = true ∨ leb b a = true.

Lemma insert_by_key_sorted x l :
  Sorted (key_rel leb) l → Sorted (key_rel leb) (insert_by_key leb x l).
Proof.
  induction 1 as [|y l Hl IH Hhd]; simpl.
  - repeat constructor.
  - destruct (leb x.1 y.1) eqn:Hxy.
    + constructor; [by constructor|]. by constructor.
    + constructor; [done|].
      destruct (leb_total x.1 y.1) as [Hc|Hyx]; [congruence|].
      destruct l as [|z l]; simpl.
      * by constructor.
      * destruct (leb x.1 z.1); constructor; [done|].
        by inversion Hhd.
Qed.

Lemma stable_sort_sorted l : Sorted (key_rel leb) (stable_sort leb l).
Proof.
  induction l as [|x l IH]; simpl; [constructor|].
  by apply insert_by_key_sorted.
Qed.

Lemma leb_refl a : leb a a = true.
Proof using leb_total. by destruct (leb_total a a). Qed.

(** Stability: the elements with one and the same key keep their order. *)
Context `{!EqDecision K}.

Lemma insert_by_key_stable (k : K) x l :
  filter (λ p, p.1 = k) (insert_by_key leb x l)
  = filter (λ p, p.1 = k) (x :: l).
Proof using leb_total.
  induction l as [|y l IH]; simpl; [done|].
  destruct (leb x.1 y.1) eqn:Hxy; [done|].
  rewrite filter_cons, IH, !filter_cons.
  destruct (decide (y.1 = k)) as [Hy|Hy];
    destruct (decide (x.1 = k)) as [Hx|Hx]; try done.
  rewrite Hx, Hy, leb_refl in Hxy. done.
Qed.

Lemma stable_sort_stable (k : K) l :
  filter (λ p, p.1 = k) (stable_sort leb l) = filter (λ p, p.1 = k) l.
Proof using leb_total.
  induction l as [|x l IH]; simpl; [done|].
  by rewrite insert_by_key_stable, !filter_cons, IH.
Qed.
End StableSortFacts.

(** * The data-items hash *)

Section DataHash.
Context `{cap : Capability}.

Lemma for_each_digests (acc : string) (l : list pyval) :
  for_each (λ hash_str item,
      let* concat_string := item_concat_string item in
      let* hash := compute_message_hash concat_string in
      ret (hash_str +:+ byte_array_to_base64 hash)) acc l
  = let* digests := map_M item_digest l in
    ret (acc +:+ concat_str digests).
Proof.
  revert acc. induction l as [|x l IH]; intros acc.
  - cbn [for_each map_M]. by rewrite bind_ret_l, append_empty_r.
  - cbn [for_each map_M]. rewrite !bind_assoc. unfold item_digest at 1.
    rewrite !bind_assoc. apply bind_ext; intros c.
    rewrite !bind_assoc. apply bind_ext; intros h.
    rewrite !bind_ret_l, IH, !bind_assoc. apply bind_ext; intros ds.
    by rewrite !bind_ret_l, append_assoc.
Qed.

Lemma calculate_datahash_digest_chain (data_objects : pyval) :
  calculate_datahash data_objects = digest_chain data_objects.
Proof.
  unfold calculate_datahash, digest_chain.
  apply bind_ext; intros sorted.
  rewrite for_each_digests, bind_assoc. apply bind_ext; intros ds.
  by rewrite bind_ret_l.
Qed.

Lemma optional_field_str (d : gmap string pyval) (k : string) :
  optional_str d k = true →
  optional_field (PDict d) k = ret (field_bytes d k).
Proof.
  unfold optional_str, optional_field, field_bytes, contains, getitem.
  destruct (d !! k) as [[]|] eqn:Hk; try done.
Qed.

Lemma item_concat_string_fields (d : gmap string pyval) (data : string) :
  d !! "data" = Some (PStr data) →
  optional_str d "dataHash" = true →
  optional_str d "encryptedDataEncryptionKey" = true →
  optional_str d "iv" = true →
  item_concat_string (PDict d)
  = ret (field_bytes d "dataHash" ++ encode_utf8 data
           ++ field_bytes d "encryptedDataEncryptionKey" ++ field_bytes d "iv").
Proof.
  intros Hdata H1 H2 H3. unfold item_concat_string.
  rewrite !optional_field_str by done.
  simpl. by rewrite Hdata.
Qed.

End DataHash.

(** * Sorting items by a key read from the item *)

Lemma Sorted_weaken {A} (R R' : relation A) (P : A → Prop) (l : list A) :
  (∀ x y, P x → P y → R x y → R' x y) →
  Forall P l → Sorted R l → Sorted R' l.
Proof.
  intros HR HP Hs. induction Hs as [|x l Hs IH Hhd]; [constructor|].
  inversion HP as [|? ? Hx Hl]; subst.
  constructor; [by apply IH|].
  destruct Hhd as [|y l Hxy]; constructor.
  inversion Hl; subst. by apply HR.
Qed.

Lemma filter_fmap_snd {K A} (P : A → Prop) `{!∀ a, Decision (P a)}
    (l : list (K * A)) :
  filter P l.*2 = (filter (λ p, P p.2) l).*2.
Proof.
  induction l as [|p l IH]; [done|].
  rewrite fmap_cons, !filter_cons, IH. simpl.
  by destruct (decide (P p.2)).
Qed.

Lemma filter_Forall_iff {A} (P Q : A → Prop) `{!∀ a, Decision (P a)}
    `{!∀ a, Decision (Q a)} (l : list A) :
  Forall (λ a, P a ↔ Q a) l → filter P l = filter Q l.
Proof.
  induction 1 as [|a l Ha Hl IH]; [done|].
  rewrite !filter_cons, IH.
  destruct (decide (P a)) as [Hp|Hp], (decide (Q a)) as [Hq|Hq];
    try done; exfalso; tauto.
Qed.

Section SortByKey.
Context {K : Type} `{!EqDecision K} (leb : K → K → bool).
Context (key_of : pyval → option K).
Hypothesis leb_total : ∀ a b, leb a b = true ∨ leb b a = true.

Lemma sort_pairs_facts (ks : list K) (items : list pyval) :
  Forall2 (λ it k, key_of it = Some k) items ks →
  let sorted := (stable_sort leb (zip ks items)).*2 in
  sorted ≡ₚ items
  ∧ Sorted (keyed_le leb key_of) sorted
  ∧ ∀ k, filter (λ it, key_of it = Some k) sorted
         = filter (λ it, key_of it = Some k) items.
Proof using leb_total.
  intros Hk sorted.
  assert (Hlen : length items = length ks) by by eapply Forall2_length.
  assert (Hsnd : (zip ks items).*2 = items) by (apply snd_zip; lia).
  assert (Hinv : Forall (λ p, key_of p.2 = Some p.1) (zip ks items)).
  { clear Hlen Hsnd. induction Hk; simpl; by constructor. }
  assert (Hinv' : Forall (λ p, key_of p.2 = Some p.1)
                    (stable_sort leb (zip ks items))).
  { by rewrite stable_sort_perm. }
  split_and!.
  - unfold sorted. by rewrite stable_sort_perm, Hsnd.
  - unfold sorted. apply Sorted_fmap with (R1 := λ p q, keyed_le leb key_of p.2 q.2); [done|].
    eapply Sorted_weaken; [|exact Hinv'|by apply stable_sort_sorted].
    intros p q Hp Hq Hpq. exists p.1, q.1. by split_and!.
  - intros k. unfold sorted.
    rewrite (filter_fmap_snd (λ it, key_of it = Some k)).
    rewrite (filter_Forall_iff (λ p : K * pyval, key_of p.2 = Some k)
               (λ p, p.1 = k)).
    2:{ eapply Forall_impl; [exact Hinv'|]. intros p Hp. simpl.
        rewrite Hp. naive_solver. }
    rewrite stable_sort_stable by done.
    rewrite <- (filter_Forall_iff (λ p : K * pyval, key_of p.2 = Some k)
                  (λ p, p.1 = k)).
    2:{ eapply Forall_impl; [exact Hinv|]. intros p Hp. simpl.
        rewrite Hp. naive_solver. }
    rewrite <- Hsnd at 2. symmetry.
    exact (filter_fmap_snd (λ it : pyval, key_of it = Some k) (zip ks items)).
Qed.
End SortByKey.

Lemma getitem_index_ok (x : pyval) t (v : pyval) :
  getitem x "index" = (t, Ok v) → t = [] ∧ index_value x = Some v.
Proof.
  destruct x; try done. simpl. destruct (_ !! _); [|done]. by intros [= <- <-].
Qed.

Lemma index_keys (items : list pyval) t (keys : list pyval) :
  map_M (λ x, getitem x "index") items = (t, Ok keys) →
  t = [] ∧ Forall2 (λ it k, index_value it = Some k) items keys.
Proof.
  revert t keys. induction items as [|x items IH]; intros t keys; simpl.
  - intros [= <- <-]. by split.
  - destruct (getitem x "index") as [t1 [v|e]] eqn:Hx; simpl; [|done].
    destruct (map_M _ items) as [t2 [vs|e]]; simpl; [|done].
    intros [= <- <-].
    apply getitem_index_ok in Hx as [-> Hv].
    destruct (IH _ _ eq_refl) as [-> Hvs]. split; [done|]. by constructor.
Qed.

Lemma index_keys_ok (items keys : list pyval) :
  Forall2 (λ it k, index_value it = Some k) items keys →
  map_M (λ x, getitem x "index") items = ret keys.
Proof.
  induction 1 as [|x k items keys Hx _ IH]; [done|].
  cbn [map_M]. rewrite IH.
  destruct x; try done. simpl in Hx. simpl. by rewrite Hx.
Qed.

Lemma filter_nil_Forall {A} (P : A → Prop) `{!∀ a, Decision (P a)}
    (l : list A) :
  Forall (λ a, ¬ P a) l → filter P l = [].
Proof.
  induction 1 as [|a l Ha Hl IH]; [done|].
  rewrite filter_cons, IH. by destruct (decide (P a)).
Qed.

Lemma Forall2_compose_key {K} (f : pyval → option K) (items keys : list pyval)
    (ks : list K) :
  Forall2 (λ it k, index_value it = Some k) items keys →
  Forall2 (λ k z, f k = Some z) keys ks →
  Forall2 (λ it z, index_value it ≫= f = Some z) items ks.
Proof.
  intros H. revert ks. induction H as [|it k items keys Hk _ IH]; intros ks Hks.
  - inversion Hks. constructor.
  - inversion Hks as [|? z ? ks' Hz Hks']; subst. constructor; [|by apply IH].
    by rewrite Hk.
Qed.

Lemma int_key_not_str (v : pyval) z : int_key v = Some z → str_key v = None.
Proof. by destruct v. Qed.

Lemma str_key_not_int (v : pyval) s : str_key v = Some s → int_key v = None.
Proof. by destruct v. Qed.

Lemma keyed_le_int_index (a b : pyval) :
  keyed_le Z.leb int_index a b → index_le a b.
Proof.
  intros (x & y & Ha & Hb & Hxy). unfold int_index in *.
  destruct (index_value a) as [ka|] eqn:Eka; [|done].
  destruct (index_value b) as [kb|] eqn:Ekb; [|done].
  exists ka, kb. split_and!; [done..|]. left. exists x, y.
  split_and!; [done..|]. by apply Z.leb_le.
Qed.

Lemma keyed_le_str_index (a b : pyval) :
  keyed_le String.leb str_index a b → index_le a b.
Proof.
  intros (x & y & Ha & Hb & Hxy). unfold str_index in *.
  destruct (index_value a) as [ka|] eqn:Eka; [|done].
  destruct (index_value b) as [kb|] eqn:Ekb; [|done].
  exists ka, kb. split_and!; [done..|]. right. by exists x, y.
Qed.

Lemma Z_leb_total (a b : Z) : (a <=? b) = true ∨ (b <=? a) = true.
Proof. rewrite !Z.leb_le. lia. Qed.

Lemma sort_by_index_facts (items : list pyval) t (sorted : list pyval) :
  sort_by_index (PList items) = (t, Ok sorted) →
  t = [] ∧ sorted_by_index items sorted.
Proof.
  unfold sort_by_index.
  destruct (map_M _ items) as [t1 [keys|e]] eqn:Hkeys; simpl; [|done].
  apply index_keys in Hkeys as [-> Hkeys]. simpl.
  unfold sort_by_keys.
  destruct (length items <=? 1)%nat eqn:Hlen.
  { intros [= <- <-]. split; [done|]. split_and!; try done.
    apply Nat.leb_le in Hlen.
    destruct items as [|x [|y items]]; simpl in Hlen; [| |lia];
      repeat constructor. }
  destruct (mapM int_key keys) as [zs|] eqn:Hint.
  { intros [= <- <-]. split; [done|].
    apply mapM_Some_1 in Hint.
    pose proof (Forall2_compose_key _ _ _ _ Hkeys Hint) as Hzs.
    destruct (sort_pairs_facts Z.leb int_index Z_leb_total zs items Hzs)
      as (Hperm & Hsorted & Hstable).
    split_and!; [done| |done|].
    - eapply Sorted_weaken with (P := λ _, True);
        [|by apply Forall_true|exact Hsorted].
      intros ????. apply keyed_le_int_index.
    - intros s.
      assert (Hnone : Forall (λ it, ¬ str_index it = Some s) items).
      { clear -Hzs. induction Hzs as [|it z ? ? Hz _ IH]; constructor; [|done].
        unfold str_index, int_index in *.
        destruct (index_value it) as [k|]; [|done]. simpl in *.
        by rewrite (int_key_not_str _ _ Hz). }
      rewrite !filter_nil_Forall; [done|done|]. by rewrite Hperm. }
  destruct (mapM str_key keys) as [ss|] eqn:Hstr.
  { intros [= <- <-]. split; [done|].
    apply mapM_Some_1 in Hstr.
    pose proof (Forall2_compose_key _ _ _ _ Hkeys Hstr) as Hss.
    destruct (sort_pairs_facts String.leb str_index String.leb_total ss items
                Hss) as (Hperm & Hsorted & Hstable).
    split_and!; [done| | |done].
    - eapply Sorted_weaken with (P := λ _, True);
        [|by apply Forall_true|exact Hsorted].
      intros ????. apply keyed_le_str_index.
    - intros z.
      assert (Hnone : Forall (λ it, ¬ int_index it = Some z) items).
      { clear -Hss. induction Hss as [|it s ? ? Hs _ IH]; constructor; [|done].
        unfold str_index, int_index in *.
        destruct (index_value it) as [k|]; [|done]. simpl in *.
        by rewrite (str_key_not_int _ _ Hs). }
      rewrite !filter_nil_Forall; [done|done|]. by rewrite Hperm. }
  by destruct (forallb is_plist keys).
Qed.

(** C1.  For every list of data items, [calculate_datahash] sorts the items
    ascending by their ['index'] (a stable rearrangement of the list), then
    forms for each item in sorted order the bytes
    [dataHash ++ data ++ encryptedDataEncryptionKey ++ iv], an absent optional
    field counting as the empty byte string, hashes each item's bytes on its
    own, base64-encodes each digest, and returns the concatenation of these
    base64 texts: a chain of per-item digests, not one hash over all items. *)
Theorem calculate_datahash_sorted_digest_chain `{cap : Capability}
    (items : list pyval) :
  (* the loop computes the chain of per-item digests over the sorted list *)
  calculate_datahash (PList items)
  = (let* sorted := sort_by_index (PList items) in
     let* digests := map_M item_digest sorted in
     ret (PList sorted, concat_str digests))
  (* the sort arranges the items ascending by index *)
  ∧ (∀ t sorted, sort_by_index (PList items) = (t, Ok sorted) →
       t = [] ∧ sorted_by_index items sorted)
  (* the digest of one item *)
  ∧ (∀ d data,
       d !! "data" = Some (PStr data) →
       optional_str d "dataHash" = true →
       optional_str d "encryptedDataEncryptionKey" = true →
       optional_str d "iv" = true →
       let concat_string :=
         field_bytes d "dataHash" ++ encode_utf8 data
           ++ field_bytes d "encryptedDataEncryptionKey"
           ++ field_bytes d "iv" in
       item_digest (PDict d)
       = ([Call_compute_message_hash concat_string],
          Ok (cu_byte_array_to_base64
                (cu_compute_message_hash concat_string)))).
Proof.
  split_and!.
  - apply calculate_datahash_digest_chain.
  - apply sort_by_index_facts.
  - intros d data Hdata H1 H2 H3 c. unfold item_digest.
    by rewrite (item_concat_string_fields d data).
Qed.

(** * Well-formed payloads *)

Lemma required_str_lookup (d : gmap string pyval) (k : string) :
  required_str d k = true → ∃ s, d !! k = Some (PStr s).
Proof.
  unfold required_str. destruct (d !! k) as [[]|]; try done. by eexists.
Qed.

Lemma required_str_field_bytes (d : gmap string pyval) (k : string) s :
  d !! k = Some (PStr s) → field_bytes d k = encode_utf8 s.
Proof. unfold field_bytes. by intros ->. Qed.

Lemma forallb_Forall_true {A} (f : A → bool) (l : list A) :
  forallb f l = true → Forall (λ a, f a = true) l.
Proof.
  induction l as [|a l IH]; simpl; [constructor|].
  rewrite andb_true_iff. intros [Ha Hl]. constructor; [done|by apply IH].
Qed.

Section WellFormed.
Context `{cap : Capability}.

Lemma item_digest_wf (item : pyval) :
  wf_item item = true →
  ∃ c, item_digest item
       = ([Call_compute_message_hash c],
          Ok (cu_byte_array_to_base64 (cu_compute_message_hash c))).
Proof.
  destruct item as [| | | | |d]; try done. simpl.
  rewrite !andb_true_iff. intros [[[[_ Hdata] H1] H2] H3].
  apply required_str_lookup in Hdata as [data Hdata].
  eexists. unfold item_digest.
  by rewrite (item_concat_string_fields d data).
Qed.

Lemma map_M_item_digest_wf (items : list pyval) :
  Forall (λ it, wf_item it = true) items →
  ∃ t ds, map_M item_digest items = (t, Ok ds) ∧ length ds = length items.
Proof.
  induction 1 as [|it items Hit _ (t & ds & IH & Hlen)].
  - by exists [], [].
  - destruct (item_digest_wf it Hit) as [c Hc].
    exists ([Call_compute_message_hash c] ++ t),
      (cu_byte_array_to_base64 (cu_compute_message_hash c) :: ds).
    cbn [map_M]. rewrite Hc, IH. simpl. rewrite app_nil_r.
    split; [done|]. by rewrite Hlen.
Qed.

Lemma wf_items_int_keys (items : list pyval) :
  Forall (λ it, wf_item it = true) items →
  ∃ keys zs,
    Forall2 (λ it k, index_value it = Some k) items keys
    ∧ Forall2 (λ k z, int_key k = Some z) keys zs.
Proof.
  induction 1 as [|it items Hit _ (keys & zs & IH1 & IH2)].
  - exists [], []. by split; constructor.
  - destruct it as [| | | | |d]; try done. simpl in Hit.
    rewrite !andb_true_iff in Hit. destruct Hit as [[[[Hidx _] _] _] _].
    apply bool_decide_eq_true in Hidx as [z Hz].
    unfold int_index in Hz.
    destruct (index_value (PDict d)) as [k|] eqn:Hk; [|done]. simpl in Hz.
    exists (k :: keys), (z :: zs). split; by constructor.
Qed.

Lemma sort_by_index_wf (items : list pyval) :
  Forall (λ it, wf_item it = true) items →
  ∃ sorted, sort_by_index (PList items) = ret sorted
            ∧ Forall (λ it, wf_item it = true) sorted.
Proof.
  intros Hwf. destruct (wf_items_int_keys items Hwf) as (keys & zs & Hk & Hz).
  unfold sort_by_index. rewrite (index_keys_ok _ _ Hk), bind_ret_l.
  unfold sort_by_keys. destruct (length items <=? 1)%nat.
  { by exists items. }
  rewrite (mapM_Some_2 _ _ _ Hz). eexists. split; [done|].
  pose proof (Forall2_compose_key _ _ _ _ Hk Hz) as Hzs.
  destruct (sort_pairs_facts Z.leb int_index Z_leb_total zs items Hzs)
    as (Hperm & _).
  by rewrite Hperm.
Qed.

Lemma calculate_datahash_wf (items : list pyval) :
  Forall (λ it, wf_item it = true) items →
  ∃ t sorted h, calculate_datahash (PList items) = (t, Ok (PList sorted, h)).
Proof.
  intros Hwf. rewrite calculate_datahash_digest_chain. unfold digest_chain.
  destruct (sort_by_index_wf items Hwf) as (sorted & -> & Hsorted).
  rewrite bind_ret_l.
  destruct (map_M_item_digest_wf sorted Hsorted) as (t & ds & -> & _).
  simpl. by eexists _, _, _.
Qed.

Lemma header_hash_wf (d : gmap string pyval) (nonce : bytes) :
  wf_header d = true →
  let concat_string :=
    nonce ++ field_bytes d "workOrderId" ++ field_bytes d "workerId"
      ++ field_bytes d "workloadId" ++ field_bytes d "requesterId" in
  __calculate_hash_on_concatenated_string (PDict d) nonce
  = ([Call_compute_message_hash concat_string],
     Ok (cu_byte_array_to_base64 (cu_compute_message_hash concat_string))).
Proof.
  intros Hwf c. unfold wf_header in Hwf. rewrite !andb_true_iff in Hwf.
  destruct Hwf as [[[H1 H2] H3] H4].
  apply required_str_lookup in H1 as [s1 H1].
  apply required_str_lookup in H2 as [s2 H2].
  apply required_str_lookup in H4 as [s4 H4].
  unfold __calculate_hash_on_concatenated_string.
  rewrite (optional_field_str d "workloadId" H3).
  unfold c. rewrite (required_str_field_bytes _ _ _ H1),
    (required_str_field_bytes _ _ _ H2), (required_str_field_bytes _ _ _ H4).
  simpl. rewrite H1. simpl. rewrite H2. simpl. by rewrite H4.
Qed.

End WellFormed.

(** * Signature verification *)

Section Verification.
Context `{cap : Capability}.

Lemma decodable_lookup (d : gmap string pyval) (k : string) :
  decodable d k = true →
  ∃ s b, d !! k = Some (PStr s) ∧ cu_base64_to_byte_array s = inr b.
Proof.
  unfold decodable. destruct (d !! k) as [[]|]; try done.
  destruct (cu_base64_to_byte_array _) eqn:E; [done|]. by eexists _, _.
Qed.

Lemma printable_lookup (d : gmap string pyval) (k : string) :
  printable_field d k = true →
  ∃ v s, d !! k = Some v ∧ str v = ret (PStr s).
Proof.
  unfold printable_field. destruct (d !! k) as [[]|]; try done;
    intros _; by eexists _, _.
Qed.

Lemma ascii_lookup (d : gmap string pyval) (k : string) :
  ascii_field d k = true →
  ∃ s, d !! k = Some (PStr s) ∧ encode_ascii (PStr s) = ret (encode_utf8 s).
Proof.
  unfold ascii_field. destruct (d !! k) as [[]|]; try done.
  intros H. eexists. split; [done|]. simpl. by rewrite H.
Qed.

Lemma verify_digest_run (vk : verifying_key) (sg dg : bytes) :
  verify_digest vk sg dg
  = ([Call_verify_digest sg dg],
     match ecdsa_verify_digest vk sg dg with
     | inl msg => Raise (ExternalError msg)
     | inr ok => Ok ok
     end).
Proof.
  unfold verify_digest, external. simpl.
  by destruct (ecdsa_verify_digest vk sg dg).
Qed.

Lemma verify_with_key_status (parse_key : M verifying_key) (s : string)
    (b h : bytes) :
  (∀ vk sg dg, ecdsa_verify_digest vk sg dg ≠ inr false) →
  cu_base64_to_byte_array s = inr b →
  is_status (verify_with_key parse_key (PStr s) h).
Proof.
  intros Hcontract Hb. unfold verify_with_key, is_status.
  destruct parse_key as [t [vk|e]]; simpl; [|by eexists _, _].
  rewrite Hb. simpl. unfold verify_digest, external, emit.
  destruct (ecdsa_verify_digest vk b h) as [msg|[|]] eqn:Hv; simpl.
  - destruct (is_substring "Malformed formatting of signature" msg); simpl;
      by eexists _, _.
  - by eexists _, _.
  - by apply Hcontract in Hv.
Qed.

Lemma is_status_bind {A} (t : trace) (a : A)
    (f : A → M (option SignatureStatus)) :
  is_status (f a) → is_status (bind (t, Ok a) f).
Proof.
  intros (t' & s & Hf). unfold is_status. simpl. rewrite Hf. by eexists _, _.
Qed.

Lemma response_signature_status (d : gmap string pyval) (key : pyval) :
  (∀ vk sg dg, ecdsa_verify_digest vk sg dg ≠ inr false) →
  required_str d "workerNonce" = true →
  decodable d "workerSignature" = true →
  wf_header d = true →
  wf_out_data d = true →
  is_status (_verify_wo_response_signature (PDict d) key).
Proof.
  intros Hcontract Hnonce Hsig Hhdr Hout.
  apply required_str_lookup in Hnonce as [n Hn].
  apply decodable_lookup in Hsig as (s & b & Hs & Hb).
  unfold wf_out_data in Hout.
  destruct (d !! "outData") as [[| | | |items|]|] eqn:Ho; try done.
  pose proof (forallb_Forall_true _ _ Hout) as Hitems.
  destruct (calculate_datahash_wf items Hitems) as (t2 & sorted & h2 & Hdh).
  unfold _verify_wo_response_signature.
  cbn [getitem]. rewrite Hn, bind_ret_l. cbn [encode]. rewrite bind_ret_l.
  rewrite Hs, bind_ret_l.
  rewrite (header_hash_wf d _ Hhdr). apply is_status_bind.
  rewrite Ho, bind_ret_l, Hdh. apply is_status_bind.
  unfold compute_message_hash, emit. rewrite bind_ok. cbn [fst snd].
  apply is_status_bind.
  by eapply verify_with_key_status.
Qed.

End Verification.

Section VerificationClaims.
Context `{cap : Capability}.

Lemma key_signature_first_step (d : gmap string pyval) (key : pyval)
    (ek n : string) (sig : pyval) :
  d !! "extVerificationKey" = Some (PStr ek) →
  d !! "extVerificationKeySignature" = Some sig →
  _verify_wo_verification_key_signature (PDict d) key (PStr n)
  = (let* v_key_hash := compute_message_hash (encode_utf8 (ek +:+ n)) in
     verify_with_key (from_pem_value key) sig v_key_hash).
Proof.
  intros Hek Hsig. unfold _verify_wo_verification_key_signature.
  cbn [getitem]. rewrite Hek, bind_ret_l. cbn [add]. rewrite bind_ret_l.
  rewrite Hsig, bind_ret_l. cbn [bytes_of_str]. by rewrite bind_ret_l.
Qed.

Lemma key_signature_status (d : gmap string pyval) (key nonce : pyval)
    (ek : string) :
  (∀ vk sg dg, ecdsa_verify_digest vk sg dg ≠ inr false) →
  d !! "extVerificationKey" = Some (PStr ek) →
  wf_key_assertion d nonce = true →
  is_status (_verify_wo_verification_key_signature (PDict d) key nonce).
Proof.
  intros Hcontract Hek Hwf. unfold wf_key_assertion in Hwf. rewrite Hek in Hwf.
  destruct nonce as [| | |n| |]; try done.
  - by eexists _, _.
  - apply decodable_lookup in Hwf as (s & b & Hs & Hb).
    rewrite (key_signature_first_step d key ek n (PStr s)) by done.
    unfold compute_message_hash, emit. rewrite bind_ok. cbn [fst snd].
    apply is_status_bind. by eapply verify_with_key_status.
Qed.

(** C2.  For a work-order response that contains an [extVerificationKey],
    [verify_signature] first verifies [extVerificationKeySignature] over
    [extVerificationKey ++ requesterNonce] with the supplied worker key; when
    that first step yields anything but PASSED, [verify_signature] yields
    exactly that and performs no call beyond those of the first step, so the
    second step is never invoked; when it yields PASSED the response signature
    is verified with [extVerificationKey]; and with [requester_nonce] equal to
    [None] the result is FAILED with no call into the capability at all. *)
Theorem verify_signature_two_step (wo_response key requester_nonce : pyval) :
  contains "extVerificationKey" wo_response = ret true →
  let step1 :=
    _verify_wo_verification_key_signature wo_response key requester_nonce in
  (outcome step1 ≠ Ok (Some PASSED) →
     verify_signature wo_response key requester_nonce = step1)
  ∧ (outcome step1 = Ok (Some PASSED) →
     verify_signature wo_response key requester_nonce
     = (let* _ := step1 in
        let* ek := getitem wo_response "extVerificationKey" in
        _verify_wo_response_signature wo_response ek))
  ∧ (requester_nonce = PNone →
     verify_signature wo_response key requester_nonce
     = ([], Ok (Some FAILED)))
  ∧ (∀ d ek n sig,
       wo_response = PDict d →
       d !! "extVerificationKey" = Some (PStr ek) →
       d !! "extVerificationKeySignature" = Some sig →
       requester_nonce = PStr n →
       step1
       = (let* v_key_hash := compute_message_hash (encode_utf8 (ek +:+ n)) in
          verify_with_key (from_pem_value key) sig v_key_hash)).
Proof.
  intros Hin step1. unfold verify_signature. rewrite Hin, bind_ret_l.
  fold step1. split_and!.
  - destruct step1 as [t [st|e]]; simpl; [|done].
    intros Hne. rewrite bool_decide_eq_false_2 by congruence.
    simpl. by rewrite app_nil_r.
  - destruct step1 as [t [st|e]]; simpl; [|done].
    intros [= ->]. by rewrite bool_decide_eq_true_2.
  - intros ->. subst step1. by destruct wo_response.
  - intros d ek n sig -> Hek Hsig ->. by apply key_signature_first_step.
Qed.

(** C3 as amended.  For every input whose fields read by the operation are
    present with string values ([updateType] and [receiptCreateStatus] may
    also be integers, booleans or null; [workloadId] and the optional fields
    of an item may be absent; [outData] is a list of items with integer index
    and string data), whose receipt verification key is ASCII text and whose
    signature text the base64 decoder accepts, and given that [verify_digest]
    reports a failed verification by raising and never by returning [False],
    each of [verify_signature], [verify_create_receipt_signature] and
    [verify_update_receipt_signature] returns one of PASSED, FAILED,
    INVALID_SIGNATURE_FORMAT and INVALID_VERIFICATION_KEY. *)
Theorem verification_returns_status :
  (∀ vk sg dg, ecdsa_verify_digest vk sg dg ≠ inr false) →
  (∀ wo_response key requester_nonce,
     wf_response wo_response requester_nonce = true →
     is_status (verify_signature wo_response key requester_nonce))
  ∧ (∀ input_json,
       wf_create_receipt input_json = true →
       is_status (verify_create_receipt_signature input_json))
  ∧ (∀ input_json,
       wf_update_receipt input_json = true →
       is_status (verify_update_receipt_signature input_json)).
Proof.
  intros Hcontract. split_and!.
  - intros [| | | | |d] key nonce Hwf; try done. simpl in Hwf.
    rewrite !andb_true_iff in Hwf.
    destruct Hwf as [[[[Hn Hs] Hh] Ho] Hk].
    pose proof (response_signature_status d) as Hstep2.
    unfold verify_signature. cbn [contains]. rewrite bind_ret_l.
    destruct (d !! "extVerificationKey") as [v|] eqn:Hek.
    + rewrite bool_decide_eq_true_2 by done.
      assert (∃ ek, v = PStr ek) as [ek ->].
      { unfold wf_key_assertion in Hk. rewrite Hek in Hk.
        destruct v; try done. by eexists. }
      destruct (key_signature_status d key nonce ek Hcontract Hek Hk)
        as (t1 & s1 & ->).
      apply is_status_bind. case_bool_decide.
      * cbn [getitem]. rewrite Hek, bind_ret_l. by apply Hstep2.
      * by eexists _, _.
    + rewrite bool_decide_eq_false_2 by (by intros [? ?]).
      by apply Hstep2.
  - intros [| | | | |top] Hwf; try done. simpl in Hwf.
    destruct (top !! "params") as [[| | | | |d]|] eqn:Hp; try done.
    rewrite !andb_true_iff in Hwf.
    destruct Hwf as [[[[[[[[H1 H2] H3] H4] H5] H6] H7] H8] H9].
    apply required_str_lookup in H1 as [s1 H1].
    apply required_str_lookup in H2 as [s2 H2].
    apply required_str_lookup in H3 as [s3 H3].
    apply required_str_lookup in H4 as [s4 H4].
    apply printable_lookup in H5 as (v5 & s5 & H5 & Hstr).
    apply required_str_lookup in H6 as [s6 H6].
    apply required_str_lookup in H7 as [s7 H7].
    apply decodable_lookup in H8 as (s8 & b8 & H8 & Hb).
    apply ascii_lookup in H9 as (s9 & H9 & Hascii).
    unfold verify_create_receipt_signature.
    cbn [getitem]. rewrite Hp, bind_ret_l.
    cbn [getitem]. rewrite H1, bind_ret_l, H2, bind_ret_l.
    cbn [add]. rewrite bind_ret_l, H3, bind_ret_l. cbn [add].
    rewrite bind_ret_l, H4, bind_ret_l. cbn [add].
    rewrite bind_ret_l, H5, bind_ret_l, Hstr, bind_ret_l. cbn [add].
    rewrite bind_ret_l, H6, bind_ret_l. cbn [add].
    rewrite bind_ret_l, H7, bind_ret_l. cbn [add].
    rewrite bind_ret_l. cbn [bytes_of_str]. rewrite bind_ret_l.
    unfold compute_message_hash, emit. rewrite bind_ok. cbn [fst snd].
    apply is_status_bind.
    rewrite H8, bind_ret_l, H9, bind_ret_l, Hascii, bind_ret_l.
    by eapply verify_with_key_status.
  - intros [| | | | |d] Hwf; try done. simpl in Hwf.
    rewrite !andb_true_iff in Hwf.
    destruct Hwf as [[[[H1 H2] H3] H4] H5].
    apply required_str_lookup in H1 as [s1 H1].
    apply printable_lookup in H2 as (v2 & s2 & H2 & Hstr).
    apply required_str_lookup in H3 as [s3 H3].
    apply decodable_lookup in H4 as (s4 & b4 & H4 & Hb).
    apply ascii_lookup in H5 as (s5 & H5 & Hascii).
    unfold verify_update_receipt_signature.
    cbn [getitem]. rewrite H1, bind_ret_l, H2, bind_ret_l, Hstr, bind_ret_l.
    cbn [add]. rewrite bind_ret_l, H3, bind_ret_l. cbn [add].
    rewrite bind_ret_l. cbn [bytes_of_str]. rewrite bind_ret_l.
    unfold compute_message_hash, emit. rewrite bind_ok. cbn [fst snd].
    apply is_status_bind.
    rewrite H4, bind_ret_l, H5, bind_ret_l, Hascii, bind_ret_l.
    by eapply verify_with_key_status.
Qed.

End VerificationClaims.

(** C3, counterexample.  Whatever the capability, a receipt without the field
    [workOrderId] (here the empty mapping) makes
    [verify_update_receipt_signature] raise [KeyError] instead of returning a
    status. *)
Lemma verify_update_receipt_signature_escapes :
  ¬ ∃ cap : Capability,
      is_status (verify_update_receipt_signature (PDict ∅)).
Proof. by intros (cap & t & s & ?). Qed.

(** * Encryption of [inData] *)

Section Encryption.
Context `{cap : Capability}.
Context (session_key session_iv : bytes) (data_key data_iv : option bytes).

Lemma encrypted_item_data_mode (data : bytes) (e_key : string) :
  encrypted_item_data data (encode_utf8 e_key) session_key session_iv
    data_key data_iv
  = data_for_mode session_key session_iv data_key data_iv (mode_of_key e_key)
      data.
Proof.
  unfold encrypted_item_data, mode_of_key.
  assert (Heq : ∀ k, bool_decide (encode_utf8 e_key = encode_utf8 k)
                     = bool_decide (e_key = k)).
  { intros k. apply bool_decide_ext. split; [apply encode_utf8_inj|].
    by intros ->. }
  assert (Heq0 : bool_decide (encode_utf8 e_key = [])
                 = bool_decide (e_key = EmptyString)).
  { apply bool_decide_ext. split; [apply (encode_utf8_inj _ EmptyString)|].
    by intros ->. }
  rewrite Heq0, !Heq.
  destruct (bool_decide (e_key = EmptyString) || bool_decide (e_key = "null"));
    simpl; [done|].
  by destruct (bool_decide (e_key = "-")).
Qed.

Lemma encrypt_loop_body_step (d : gmap string pyval) (before after : list pyval)
    (item : pyval) :
  keyed_item item = true →
  encrypt_loop_body session_key session_iv data_key data_iv
    (PDict (<["inData" := PList (before ++ item :: after)]> d), length before)
    item
  = (let* item' :=
       encrypt_item session_key session_iv data_key data_iv item in
     ret (PDict (<["inData" := PList ((before ++ [item']) ++ after)]> d),
          length (before ++ [item']))).
Proof.
  destruct item as [| | | | |dx]; try done. simpl.
  rewrite andb_true_iff. intros [Hd Hk].
  apply required_str_lookup in Hd as [data Hd].
  apply required_str_lookup in Hk as [e_key Hk].
  unfold encrypt_loop_body, encrypt_item. cbn [getitem].
  rewrite Hd, bind_ret_l. cbn [encode]. rewrite bind_ret_l, Hk, bind_ret_l.
  cbn [encode]. rewrite bind_ret_l, encrypted_item_data_mode.
  rewrite !bind_assoc. apply bind_ext; intros new_data. rewrite bind_ret_l.
  unfold set_indata_data. cbn [getitem]. rewrite lookup_insert_eq, bind_ret_l.
  rewrite list_lookup_middle by done. cbn [setitem]. rewrite !bind_ret_l.
  rewrite insert_insert_eq, insert_app_r_alt, Nat.sub_diag by done.
  rewrite <- app_assoc. simpl. rewrite length_app. simpl.
  by rewrite Nat.add_1_r.
Qed.

Lemma encrypt_loop (d : gmap string pyval) (before todo : list pyval) :
  Forall (λ it, keyed_item it = true) todo →
  for_each (encrypt_loop_body session_key session_iv data_key data_iv)
    (PDict (<["inData" := PList (before ++ todo)]> d), length before) todo
  = (let* todo' :=
       map_M (encrypt_item session_key session_iv data_key data_iv) todo in
     ret (PDict (<["inData" := PList (before ++ todo')]> d),
          length (before ++ todo'))).
Proof.
  intros Htodo. revert before.
  induction Htodo as [|item todo Hitem _ IH]; intros before.
  - cbn [for_each map_M]. by rewrite bind_ret_l, !app_nil_r.
  - cbn [for_each map_M]. rewrite encrypt_loop_body_step by done.
    rewrite !bind_assoc. apply bind_ext; intros item'.
    rewrite bind_ret_l, IH, !bind_assoc. apply bind_ext; intros todo'.
    by rewrite !bind_ret_l, <- !app_assoc.
Qed.

Lemma encrypt_workorder_indata_items (d : gmap string pyval)
    (items : list pyval) (worker_encryption_key : string) :
  d !! "inData" = Some (PList items) →
  Forall (λ it, keyed_item it = true) items →
  __encrypt_workorder_indata (PDict d) session_key session_iv
    worker_encryption_key data_key data_iv
  = (let* items' :=
       map_M (encrypt_item session_key session_iv data_key data_iv) items in
     ret (PDict (<["inData" := PList items']> d))).
Proof.
  intros Hin Hitems. unfold __encrypt_workorder_indata.
  cbn [getitem]. rewrite Hin, bind_ret_l. cbn [setitem iterate].
  rewrite !bind_ret_l.
  pose proof (encrypt_loop d [] items Hitems) as Hloop. simpl in Hloop.
  rewrite Hloop, !bind_assoc. apply bind_ext; intros items'.
  by rewrite !bind_ret_l.
Qed.

End Encryption.

Lemma map_M_Forall2 {A B} (f : A → M B) (l : list A) t (l' : list B) :
  map_M f l = (t, Ok l') → Forall2 (λ x y, ∃ t', f x = (t', Ok y)) l l'.
Proof.
  revert t l'. induction l as [|x l IH]; intros t l'; simpl.
  - intros [= _ <-]. constructor.
  - destruct (f x) as [t1 [y|e]] eqn:Hx; simpl; [|done].
    destruct (map_M f l) as [t2 [ys|e]]; simpl; [|done].
    intros [= _ <-]. constructor; [by eexists|]. by eapply IH.
Qed.

Section EncryptionClaims.
Context `{cap : Capability}.

Lemma encrypt_item_shape (sk siv : bytes) (dk div : option bytes)
    (item item' : pyval) t :
  encrypt_item sk siv dk div item = (t, Ok item') →
  ∃ dx new_data,
    item = PDict dx ∧ item' = PDict (<["data" := PStr new_data]> dx).
Proof.
  destruct item as [| | | | |dx]; try done. simpl.
  destruct (dx !! "data") as [[]|]; try done.
  destruct (dx !! "encryptedDataEncryptionKey") as [[]|]; try done.
  destruct (data_for_mode _ _ _ _ _ _) as [t1 [new|e]]; simpl; [|done].
  intros [= _ <-]. by eexists _, _.
Qed.

(** C4 as amended.  For every [inData] item whose [data] and
    [encryptedDataEncryptionKey] are present strings the mode is selected by
    [encryptedDataEncryptionKey]: when it is empty or the literal ["null"] the
    data is encrypted with the session key and session IV; when it is the
    literal ["-"] the data is only base64-encoded; for any other value the
    data is encrypted with the per-item data key and data IV.  In every mode
    the [data] field is replaced in place by the base64 text, the items keep
    their order, and every other field (the index among them) is untouched. *)
Theorem encrypt_workorder_indata_modes (session_key session_iv : bytes)
    (worker_encryption_key : string) (data_key data_iv : option bytes)
    (d : gmap string pyval) (items : list pyval) :
  d !! "inData" = Some (PList items) →
  Forall (λ it, keyed_item it = true) items →
  (* the step maps [encrypt_item] over the list, in place *)
  __encrypt_workorder_indata (PDict d) session_key session_iv
    worker_encryption_key data_key data_iv
  = (let* items' :=
       map_M (encrypt_item session_key session_iv data_key data_iv) items in
     ret (PDict (<["inData" := PList items']> d)))
  (* the mode each key value selects *)
  ∧ mode_of_key EmptyString = SharedSession
  ∧ mode_of_key "null" = SharedSession
  ∧ mode_of_key "-" = PassThrough
  ∧ (∀ k, k ≠ EmptyString → k ≠ "null" → k ≠ "-" →
       mode_of_key k = ItemSpecific)
  (* order and the other fields are preserved *)
  ∧ (∀ t p,
       __encrypt_workorder_indata (PDict d) session_key session_iv
         worker_encryption_key data_key data_iv = (t, Ok p) →
       ∃ items',
         p = PDict (<["inData" := PList items']> d)
         ∧ Forall2 (λ it it', ∃ dx new_data,
                      it = PDict dx
                      ∧ it' = PDict (<["data" := PStr new_data]> dx))
             items items').
Proof.
  intros Hin Hitems.
  pose proof (encrypt_workorder_indata_items session_key session_iv data_key
                data_iv d items worker_encryption_key Hin Hitems) as Hrun.
  split_and!; try done.
  - intros k H1 H2 H3. unfold mode_of_key.
    by rewrite !bool_decide_eq_false_2.
  - intros t p. rewrite Hrun.
    destruct (map_M _ items) as [t1 [items'|e]] eqn:Hmap; simpl; [|done].
    intros [= _ <-]. exists items'. split; [done|].
    apply map_M_Forall2 in Hmap.
    eapply Forall2_impl; [exact Hmap|].
    intros it it' [t' Hit]. by eapply encrypt_item_shape.
Qed.

(** C10.  In the encryption step a key field equal to the literal ["null"] is
    treated exactly like an empty one: the data is encrypted with the session
    key and the session IV. *)
Theorem null_key_selects_session_key (data session_key session_iv : bytes)
    (data_key data_iv : option bytes) :
  encrypted_item_data data (encode_utf8 "null") session_key session_iv
    data_key data_iv
  = encrypted_item_data data (encode_utf8 EmptyString) session_key session_iv
      data_key data_iv
  ∧ encrypted_item_data data (encode_utf8 "null") session_key session_iv
      data_key data_iv
    = (let* enc_data :=
         encrypt_data data (Some session_key) (Some session_iv) in
       ret (byte_array_to_base64 enc_data))
  ∧ ∀ dx text worker_encryption_key,
      dx !! "data" = Some (PStr text) →
      dx !! "encryptedDataEncryptionKey" = Some (PStr "null") →
      __encrypt_workorder_indata (PDict {[ "inData" := PList [PDict dx] ]})
        session_key session_iv worker_encryption_key data_key data_iv
      = (let* enc_data :=
           encrypt_data (encode_utf8 text) (Some session_key)
             (Some session_iv) in
         ret (PDict {[ "inData" :=
                PList [PDict (<["data" :=
                         PStr (byte_array_to_base64 enc_data)]> dx)] ]})).
Proof.
  split_and!; [done..|].
  intros dx text wek Hdata Hkey.
  rewrite (encrypt_workorder_indata_items session_key session_iv data_key
             data_iv _ [PDict dx]).
  - cbn [map_M encrypt_item]. rewrite Hdata, Hkey.
    change (mode_of_key "null") with SharedSession. cbn [data_for_mode].
    rewrite !bind_assoc. apply bind_ext; intros enc.
    rewrite !bind_ret_l. by rewrite insert_singleton_eq.
  - apply lookup_singleton_eq.
  - constructor; [|constructor]. unfold keyed_item, required_str.
    by rewrite Hdata, Hkey.
Qed.

End EncryptionClaims.

(** C4, counterexample.  Whatever the capability: an item without the field
    [encryptedDataEncryptionKey] does not get session-key encryption, the step
    raises [KeyError]; and an item whose key field is ["null"], a value other
    than the empty one and ["-"], is not encrypted with the data key and
    data IV: the only encryption call made uses the session key. *)
Lemma encrypt_workorder_indata_absent_and_null :
  (¬ ∃ cap : Capability, ∃ t p,
       __encrypt_workorder_indata
         (PDict {[ "inData" :=
            PList [PDict {[ "index" := PInt 0; "data" := PStr "abc" ]}] ]})
         (encode_utf8 "S") (encode_utf8 "I") EmptyString None None
       = (t, Ok p))
  ∧ (¬ ∃ cap : Capability,
       calls (__encrypt_workorder_indata
                (PDict {[ "inData" :=
                   PList [PDict {[ "index" := PInt 0; "data" := PStr "abc";
                                   "encryptedDataEncryptionKey" :=
                                     PStr "null" ]}] ]})
                (encode_utf8 "S") (encode_utf8 "I") EmptyString
                (Some (encode_utf8 "D")) (Some (encode_utf8 "J")))
       = [Call_encrypt_data (encode_utf8 "abc") (Some (encode_utf8 "D"))
            (Some (encode_utf8 "J"))]).
Proof.
  split.
  - intros (cap & t & p & H). vm_compute in H. discriminate.
  - intros (cap & H). revert H.
    unfold calls, __encrypt_workorder_indata.
    cbn [getitem]. rewrite lookup_singleton_eq, bind_ret_l.
    cbn [setitem iterate]. rewrite !bind_ret_l. cbn [for_each].
    unfold encrypt_loop_body. cbn [getitem].
    rewrite (lookup_insert_ne _ "index" "data") by done.
    rewrite lookup_insert_eq, bind_ret_l. cbn [encode]. rewrite bind_ret_l.
    rewrite (lookup_insert_ne _ "index" "encryptedDataEncryptionKey") by done.
    rewrite (lookup_insert_ne _ "data" "encryptedDataEncryptionKey") by done.
    rewrite lookup_singleton_eq, bind_ret_l. cbn [encode]. rewrite bind_ret_l.
    unfold encrypted_item_data, encrypt_data, emit, external.
    destruct (cu_encrypt_data _ _ _); vm_compute; discriminate.
Qed.

(** * Signing *)

Ltac no_such_call :=
  let H := fresh in
  intros ? H;
  repeat (apply elem_of_cons in H as [H|H]; [discriminate|]);
  by apply elem_of_nil in H.

Section Signing.
Context `{cap : Capability}.

Lemma generate_signature_run (self : ClientSignature) (hash : bytes)
    (k : signing_key) :
  generate_signature self hash k
  = match cu_get_verifying_key k with
    | inl _ =>
        ([Call_get_verifying_key],
         Ok ({| private_key := Some k; public_key := public_key self;
                tcs_worker := tcs_worker self |}, (false, None)))
    | inr pk =>
        let self' :=
          {| private_key := Some k; public_key := Some pk;
             tcs_worker := tcs_worker self |} in
        match ecdsa_sign_digest_deterministic k hash with
        | inl _ =>
            ([Call_get_verifying_key; Call_sign_digest_deterministic hash],
             Ok (self', (false, None)))
        | inr signature_res =>
            ([Call_get_verifying_key; Call_sign_digest_deterministic hash],
             Ok (self', (true,
                         Some (cu_byte_array_to_base64 signature_res))))
        end
    end.
Proof.
  unfold generate_signature, get_verifying_key, sign_digest_deterministic,
    external, emit.
  destruct (cu_get_verifying_key k) as [msg|pk]; simpl; [done|].
  by destruct (ecdsa_sign_digest_deterministic k hash).
Qed.

(** C8.  [generate_signature] is deterministic: two invocations with the
    same digest and the same private key, whatever the state of the instance
    each one starts from, make the same calls, draw no random bytes, and
    return the same status and the same base64 signature text. *)
Theorem generate_signature_deterministic (self1 self2 : ClientSignature)
    (hash : bytes) (k : signing_key) :
  let run1 := generate_signature self1 hash k in
  let run2 := generate_signature self2 hash k in
  calls run1 = calls run2
  ∧ (∀ n, Call_token_hex n ∉ calls run1)
  ∧ ∃ self1' self2' status signature,
      outcome run1 = Ok (self1', (status, signature))
      ∧ outcome run2 = Ok (self2', (status, signature))
      ∧ (status = true ↔
         ∃ s, ecdsa_sign_digest_deterministic k hash = inr s
              ∧ signature = Some (cu_byte_array_to_base64 s)).
Proof.
  intros run1 run2. subst run1 run2. rewrite !generate_signature_run.
  destruct (cu_get_verifying_key k) as [msg|pk]; simpl.
  - split_and!; [done|no_such_call|]. eexists _, _, _, _.
    split_and!; [done..|]. split; [done|]. by intros (s & _ & ?).
  - destruct (ecdsa_sign_digest_deterministic k hash) as [msg|s]; simpl.
    + split_and!; [done|no_such_call|]. eexists _, _, _, _.
      split_and!; [done..|]. split; [done|]. by intros (s & ? & _).
    + split_and!; [done|no_such_call|]. eexists _, _, _, _.
      split_and!; [done..|]. split; [|done]. intros _. by exists s.
Qed.

(** C9 as amended.  The signing operation receives the private key as an
    explicit per-call parameter and stores it in the attribute
    [self.private_key] of the signer; when the public key can be derived it
    is stored in [self.public_key]; the configuration is left as it was.  The
    returned tuple holds the status and the base64 signature text only, not
    the public key. *)
Theorem generate_signature_stores_keys (self : ClientSignature) (hash : bytes)
    (k : signing_key) :
  ∃ t self' status signature,
    generate_signature self hash k = (t, Ok (self', (status, signature)))
    ∧ private_key self' = Some k
    ∧ tcs_worker self' = tcs_worker self
    ∧ public_key self'
      = match cu_get_verifying_key k with
        | inr pk => Some pk
        | inl _ => public_key self
        end
    ∧ signature
      = match cu_get_verifying_key k, ecdsa_sign_digest_deterministic k hash
        with
        | inr _, inr s => Some (cu_byte_array_to_base64 s)
        | _, _ => None
        end.
Proof.
  rewrite generate_signature_run.
  destruct (cu_get_verifying_key k) as [msg|pk]; simpl.
  - by eexists _, _, _, _.
  - destruct (ecdsa_sign_digest_deterministic k hash); by eexists _, _, _, _.
Qed.

End Signing.

(** C9, counterexample.  Whatever the capability and the key: after
    [generate_signature] has run on a fresh instance (both key attributes
    [None]) with the empty digest, the private key is held in the instance;
    there is no run that leaves [self.private_key] unset. *)
Lemma generate_signature_keeps_private_key :
  ¬ ∃ (cap : Capability) (k : signing_key),
      ∃ t self' r,
        generate_signature (init ∅) [] k = (t, Ok (self', r))
        ∧ private_key self' = private_key (init ∅).
Proof.
  intros (cap & k & t & self' & r & Hrun & Hkey).
  rewrite generate_signature_run in Hrun.
  destruct (cu_get_verifying_key k); simpl in Hrun.
  - injection Hrun as _ <- _. done.
  - destruct (ecdsa_sign_digest_deterministic k []);
      injection Hrun as _ <- _; done.
Qed.

(** * The request hash *)

(** C7, the code at the failing input.  For [request_without_workload_id],
    which has no [workloadId], the header hash of [__calculate_hash_on_concatenated_string]
    is computed with the empty byte string in the place of [workloadId], but
    [calculate_request_hash] raises [KeyError] before any hash is computed. *)
Theorem calculate_request_hash_requires_workload_id `{cap : Capability} :
  calculate_request_hash request_without_workload_id
  = ([], Raise (KeyError "workloadId"))
  ∧ ∃ params,
      getitem request_without_workload_id "params" = ret params
      ∧ __calculate_hash_on_concatenated_string params
          (encode_utf8 "0a1b2c3d")
        = (let* h :=
             compute_message_hash
               (encode_utf8 "0a1b2c3d" ++ encode_utf8 "wo1"
                  ++ encode_utf8 "w1" ++ [] ++ encode_utf8 "r1") in
           ret (byte_array_to_base64 h)).
Proof.
  split; [by vm_compute|]. eexists. split; [by vm_compute|]. by vm_compute.
Qed.

(** * Order-independence and sensitivity of the data-items hash *)

Lemma keyed_perm_eq {A K} (f : A → K) (l l' : list A) :
  l ≡ₚ l' → f <$> l = f <$> l' → NoDup (f <$> l) → l = l'.
Proof.
  revert l'. induction l as [|x l IH]; intros l' Hperm Hkeys Hnodup.
  - by apply Permutation_nil in Hperm.
  - destruct l' as [|y l']; [done|].
    simpl in Hkeys. injection Hkeys as Hxy Hkeys.
    rewrite fmap_cons in Hnodup. apply NoDup_cons in Hnodup as [Hx Hnodup].
    assert (Hy : y ∈ x :: l) by (rewrite Hperm; left).
    apply elem_of_cons in Hy as [->|Hy].
    + f_equal. apply IH; [|done..]. by eapply Permutation_cons_inv.
    + exfalso. apply Hx. rewrite Hxy. by apply list_elem_of_fmap_2.
Qed.

Lemma int_index_ikey (items : list pyval) :
  Forall has_int_index items →
  int_index <$> items = Some <$> (ikey <$> items).
Proof.
  induction 1 as [|it items [z Hz] _ IH]; [done|].
  rewrite !fmap_cons, IH. unfold ikey. by rewrite Hz.
Qed.

Lemma NoDup_ikey (items : list pyval) :
  Forall has_int_index items →
  NoDup (int_index <$> items) → NoDup (ikey <$> items).
Proof.
  intros Hint. rewrite (int_index_ikey _ Hint).
  apply NoDup_fmap_1.
Qed.

Lemma index_le_ikey (a b : pyval) :
  has_int_index a → has_int_index b → index_le a b → ikey a ≤ ikey b.
Proof.
  intros [x Hx] [y Hy] (ka & kb & Ha & Hb & Hle).
  unfold ikey, int_index in *. rewrite Ha, Hb in *. simpl in *.
  rewrite Hx, Hy. simpl.
  destruct Hle as [(x' & y' & Hx' & Hy' & Hle)|(x' & y' & Hx' & _)].
  - congruence.
  - by rewrite (int_key_not_str _ _ Hx) in Hx'.
Qed.

Section IntegerIndices.
Context `{cap : Capability}.

Lemma int_indexed_keys (items : list pyval) :
  Forall has_int_index items →
  ∃ keys zs,
    Forall2 (λ it k, index_value it = Some k) items keys
    ∧ Forall2 (λ k z, int_key k = Some z) keys zs.
Proof.
  induction 1 as [|it items [z Hz] _ (keys & zs & IH1 & IH2)].
  - exists [], []. by split; constructor.
  - unfold int_index in Hz.
    destruct (index_value it) as [k|] eqn:Hk; [|done]. simpl in Hz.
    exists (k :: keys), (z :: zs). split; by constructor.
Qed.

Lemma sort_by_index_int (items : list pyval) :
  Forall has_int_index items →
  ∃ sorted,
    sort_by_index (PList items) = ret sorted
    ∧ sorted ≡ₚ items
    ∧ Sorted Z.le (ikey <$> sorted).
Proof.
  intros Hint. destruct (int_indexed_keys items Hint) as (keys & zs & Hk & Hz).
  assert (∃ sorted, sort_by_index (PList items) = ret sorted)
    as [sorted Hrun].
  { unfold sort_by_index. rewrite (index_keys_ok _ _ Hk), bind_ret_l.
    unfold sort_by_keys. destruct (length items <=? 1)%nat; [by eexists|].
    rewrite (mapM_Some_2 _ _ _ Hz). by eexists. }
  exists sorted. split; [done|].
  destruct (sort_by_index_facts items [] sorted Hrun)
    as (_ & Hperm & Hsorted & _).
  split; [done|].
  apply Sorted_fmap with (R1 := λ a b, ikey a ≤ ikey b); [done|].
  eapply Sorted_weaken with (P := has_int_index); [|by rewrite Hperm|done].
  intros a b Ha Hb. by apply index_le_ikey.
Qed.

Lemma sorted_unique (l l' : list pyval) :
  l ≡ₚ l' →
  NoDup (ikey <$> l) →
  Sorted Z.le (ikey <$> l) → Sorted Z.le (ikey <$> l') →
  l = l'.
Proof.
  intros Hperm Hnodup Hs Hs'.
  apply (keyed_perm_eq ikey); [done| |done].
  apply (Sorted_unique Z.le); [done..|]. by rewrite Hperm.
Qed.

Lemma sort_by_index_perm (items items' : list pyval) :
  Forall has_int_index items →
  NoDup (int_index <$> items) →
  items ≡ₚ items' →
  sort_by_index (PList items) = sort_by_index (PList items').
Proof.
  intros Hint Hnodup Hperm.
  assert (Hint' : Forall has_int_index items') by by rewrite <- Hperm.
  destruct (sort_by_index_int items Hint) as (s & -> & Hp & Hs).
  destruct (sort_by_index_int items' Hint') as (s' & -> & Hp' & Hs').
  f_equal. apply sorted_unique; [|rewrite Hp; by apply NoDup_ikey|done..].
  by rewrite Hp, Hp'.
Qed.

End IntegerIndices.

Lemma string_length_app (a b : string) :
  String.length (a +:+ b) = (String.length a + String.length b)%nat.
Proof.
  induction a as [|c a IH]; [done|]. rewrite append_cons. simpl. by rewrite IH.
Qed.

Lemma append_inj_r (a b r : string) : a +:+ r = b +:+ r → a = b.
Proof.
  revert b. induction a as [|c a IH]; intros [|c' b] H; [done| | |].
  - change (EmptyString +:+ r) with r in H.
    apply (f_equal String.length) in H.
    rewrite append_cons in H. simpl in H. rewrite string_length_app in H. lia.
  - change (EmptyString +:+ r) with r in H.
    apply (f_equal String.length) in H.
    rewrite append_cons in H. simpl in H. rewrite string_length_app in H. lia.
  - rewrite !append_cons in H. injection H as -> H. f_equal. by apply IH.
Qed.

Lemma concat_str_app (l1 l2 : list string) :
  concat_str (l1 ++ l2) = concat_str l1 +:+ concat_str l2.
Proof.
  induction l1 as [|x l1 IH]; [done|]. simpl.
  by rewrite IH, append_assoc.
Qed.

Lemma concat_str_middle (l1 l2 : list string) (x y : string) :
  concat_str (l1 ++ x :: l2) = concat_str (l1 ++ y :: l2) ↔ x = y.
Proof.
  split; [|by intros ->].
  rewrite !concat_str_app. simpl. intros H.
  apply String.app_inj in H. by apply append_inj_r in H.
Qed.

Section Sensitivity.
Context `{cap : Capability}.

Lemma wf_item_has_int_index (item : pyval) :
  wf_item item = true → has_int_index item.
Proof.
  destruct item; try done. simpl. rewrite !andb_true_iff.
  intros [[[[H _] _] _] _]. by apply bool_decide_eq_true in H.
Qed.

Lemma item_digest_text (d : gmap string pyval) :
  wf_item (PDict d) = true →
  item_digest (PDict d)
  = ([Call_compute_message_hash (item_bytes d)], Ok (digest_text d)).
Proof.
  simpl. rewrite !andb_true_iff. intros [[[[_ Hdata] H1] H2] H3].
  apply required_str_lookup in Hdata as [data Hdata].
  unfold item_digest. rewrite (item_concat_string_fields d data) by done.
  unfold digest_text, item_bytes.
  by rewrite (required_str_field_bytes _ _ _ Hdata).
Qed.

Lemma map_M_item_digest_text (items : list pyval) :
  Forall (λ it, wf_item it = true) items →
  ∃ t, map_M item_digest items = (t, Ok (item_text <$> items)).
Proof.
  induction 1 as [|it items Hit _ [t IH]]; [by exists []|].
  destruct it as [| | | | |d]; try done.
  cbn [map_M]. rewrite (item_digest_text d Hit), IH. simpl. by eexists.
Qed.

Lemma hash_str_wf (items : list pyval) :
  Forall (λ it, wf_item it = true) items →
  ∃ sorted,
    sort_by_index (PList items) = ret sorted
    ∧ sorted ≡ₚ items
    ∧ Sorted Z.le (ikey <$> sorted)
    ∧ hash_str_of (calculate_datahash (PList items))
      = Ok (concat_str (item_text <$> sorted)).
Proof.
  intros Hwf.
  assert (Hint : Forall has_int_index items).
  { eapply Forall_impl; [done|]. apply wf_item_has_int_index. }
  destruct (sort_by_index_int items Hint) as (sorted & Hrun & Hperm & Hs).
  exists sorted. split_and!; [done..|].
  rewrite calculate_datahash_digest_chain. unfold digest_chain.
  rewrite Hrun, bind_ret_l.
  destruct (map_M_item_digest_text sorted) as [t ->]; [by rewrite Hperm|].
  done.
Qed.

Lemma relabel_items (items : list pyval) (i : nat)
    (dx dx' : gmap string pyval) :
  NoDup (int_index <$> items) →
  items !! i = Some (PDict dx) →
  relabel dx dx' <$> items = <[i := PDict dx']> items.
Proof.
  intros Hnodup Hi. apply list_eq. intros j.
  rewrite list_lookup_fmap.
  destruct (decide (i = j)) as [<-|Hne].
  - rewrite list_lookup_insert_eq by by eapply lookup_lt_Some.
    rewrite Hi. simpl. unfold relabel. by rewrite decide_True.
  - rewrite list_lookup_insert_ne by done.
    destruct (items !! j) as [it|] eqn:Hj; [|done]. simpl. f_equal.
    unfold relabel. rewrite decide_False; [done|]. intros Heq.
    apply Hne. eapply NoDup_lookup; [exact Hnodup| |].
    + by rewrite list_lookup_fmap, Hi.
    + rewrite list_lookup_fmap, Hj. simpl. by rewrite Heq.
Qed.

Lemma relabel_split (l : list pyval) (dx dx' : gmap string pyval) :
  NoDup (int_index <$> l) →
  PDict dx ∈ l →
  ∃ l1 l2, l = l1 ++ PDict dx :: l2
           ∧ relabel dx dx' <$> l = l1 ++ PDict dx' :: l2.
Proof.
  intros Hnodup Hin.
  apply list_elem_of_lookup in Hin as [i Hi].
  rewrite (relabel_items l i dx dx') by done.
  exists (take i l), (drop (S i) l). split.
  - by rewrite take_drop_middle.
  - apply lookup_lt_Some in Hi. by rewrite insert_take_drop.
Qed.

End Sensitivity.

Section SensitivityClaims.
Context `{cap : Capability}.

Lemma update_keeps_wf (dx : gmap string pyval) (k v' : string) :
  hashed_field k →
  wf_item (PDict dx) = true →
  wf_item (PDict (<[k := PStr v']> dx)) = true
  ∧ int_index (PDict (<[k := PStr v']> dx)) = int_index (PDict dx).
Proof.
  intros Hk. unfold wf_item, int_index, index_value, required_str,
    optional_str.
  rewrite !andb_true_iff, !bool_decide_eq_true.
  intros [[[[H0 H1] H2] H3] H4].
  destruct Hk as [-> | [-> | ->]];
    rewrite ?lookup_insert_eq, ?lookup_insert_ne by done; by split_and!.
Qed.

Lemma update_changes_bytes (dx : gmap string pyval) (k v v' : string) :
  hashed_field k →
  dx !! k = Some (PStr v) →
  v' ≠ v →
  item_bytes (<[k := PStr v']> dx) ≠ item_bytes dx.
Proof.
  intros Hk Hv Hne. unfold item_bytes, field_bytes.
  destruct Hk as [-> | [-> | ->]];
    rewrite ?lookup_insert_eq, ?lookup_insert_ne, ?Hv by done; intros H.
  - apply app_inv_head, app_inv_tail in H. by apply encode_utf8_inj in H.
  - apply app_inv_head, app_inv_head, app_inv_tail in H.
    by apply encode_utf8_inj in H.
  - apply app_inv_head, app_inv_head, app_inv_head in H.
    by apply encode_utf8_inj in H.
Qed.

Lemma update_changes_hash (items : list pyval) (i : nat)
    (dx dx' : gmap string pyval) :
  Forall (λ it, wf_item it = true) items →
  NoDup (int_index <$> items) →
  items !! i = Some (PDict dx) →
  wf_item (PDict dx') = true →
  int_index (PDict dx') = int_index (PDict dx) →
  hash_str_of (calculate_datahash (PList (<[i := PDict dx']> items)))
  = hash_str_of (calculate_datahash (PList items))
  ↔ digest_text dx' = digest_text dx.
Proof.
  intros Hwf Hnodup Hi Hwf' Hidx.
  assert (Hwf_new : Forall (λ it, wf_item it = true) (<[i := PDict dx']> items))
    by by apply Forall_insert.
  assert (Hkeys : int_index <$> <[i := PDict dx']> items = int_index <$> items).
  { rewrite list_fmap_insert, Hidx. apply list_insert_id.
    by rewrite list_lookup_fmap, Hi. }
  destruct (hash_str_wf items Hwf) as (s & _ & Hp & Hs & ->).
  destruct (hash_str_wf _ Hwf_new) as (s' & _ & Hp' & Hs' & ->).
  assert (Hint : Forall has_int_index s).
  { rewrite Hp. eapply Forall_impl; [done|]. apply wf_item_has_int_index. }
  assert (Hnodup_s : NoDup (int_index <$> s)) by by rewrite Hp.
  assert (Hrelabel_keys : ikey <$> (relabel dx dx' <$> s) = ikey <$> s).
  { rewrite <- list_fmap_compose. apply list_fmap_ext. intros j it _. simpl.
    unfold relabel. case_decide as Hd; [|done]. unfold ikey.
    by rewrite Hidx, Hd. }
  assert (s' = relabel dx dx' <$> s) as ->.
  { symmetry. apply sorted_unique.
    - by rewrite Hp', <- (relabel_items items i dx dx'), Hp.
    - rewrite Hrelabel_keys. by apply NoDup_ikey.
    - by rewrite Hrelabel_keys.
    - done. }
  assert (Hin : PDict dx ∈ s).
  { rewrite Hp. apply list_elem_of_lookup. by exists i. }
  destruct (relabel_split s dx dx' Hnodup_s Hin) as (l1 & l2 & -> & ->).
  rewrite !fmap_app, !fmap_cons. simpl. split.
  - intros [= H]. by apply concat_str_middle in H.
  - intros H. f_equal. by apply concat_str_middle.
Qed.

(** C6 as amended.  For every list of data items whose indices are present,
    pairwise distinct integers, [calculate_datahash] returns the same result
    for every permutation of the list.  The index is not among the hashed
    bytes.  Changing the [data], [encryptedDataEncryptionKey] or [iv] text of
    one item of a well-formed list changes the bytes hashed for that item, and
    it changes the result exactly when the base64 digest of those bytes
    changes, that is, unless the two byte strings collide under the hash. *)
Theorem calculate_datahash_order_and_sensitivity :
  (∀ items items',
     Forall has_int_index items →
     NoDup (int_index <$> items) →
     items ≡ₚ items' →
     calculate_datahash (PList items) = calculate_datahash (PList items'))
  ∧ (∀ items i dx k v v',
       Forall (λ it, wf_item it = true) items →
       NoDup (int_index <$> items) →
       items !! i = Some (PDict dx) →
       hashed_field k →
       dx !! k = Some (PStr v) →
       v' ≠ v →
       let dx' := <[k := PStr v']> dx in
       item_bytes dx' ≠ item_bytes dx
       ∧ (hash_str_of (calculate_datahash (PList (<[i := PDict dx']> items)))
          = hash_str_of (calculate_datahash (PList items))
          ↔ digest_text dx' = digest_text dx)).
Proof.
  split.
  - intros items items' Hint Hnodup Hperm. unfold calculate_datahash.
    by rewrite (sort_by_index_perm items items').
  - intros items i dx k v v' Hwf Hnodup Hi Hk Hv Hne dx'. split.
    + by eapply update_changes_bytes.
    + assert (Hx : wf_item (PDict dx) = true).
      { eapply Forall_lookup_1 in Hwf; [|exact Hi]. done. }
      destruct (update_keeps_wf dx k v' Hk Hx) as [Hwf' Hidx].
      by apply update_changes_hash.
Qed.

End SensitivityClaims.

(** C6, counterexample.  Whatever the capability, changing the index of the
    only item of a list from 0 to 1 leaves the result unchanged; and with
    SHA-256 and base64, the two orders of two items that share the index 0
    give different results. *)
Lemma calculate_datahash_index_and_duplicates :
  (¬ ∃ cap : Capability,
       hash_str_of (calculate_datahash
         (PList [PDict {[ "index" := PInt 0; "data" := PStr "a" ]}]))
       ≠ hash_str_of (calculate_datahash
         (PList [PDict {[ "index" := PInt 1; "data" := PStr "a" ]}])))
  ∧ hash_str_of (calculate_datahash (cap := Reference.capability)
      (PList [PDict {[ "index" := PInt 0; "data" := PStr "a" ]};
              PDict {[ "index" := PInt 0; "data" := PStr "b" ]}]))
    ≠ hash_str_of (calculate_datahash (cap := Reference.capability)
      (PList [PDict {[ "index" := PInt 0; "data" := PStr "b" ]};
              PDict {[ "index" := PInt 0; "data" := PStr "a" ]}])).
Proof.
  split.
  - intros [cap H]. apply H. by vm_compute.
  - vm_compute. discriminate.
Qed.

(** * The request orchestrator *)

Lemma bind_Ok_inv {A B} (m : M A) (f : A → M B) t (b : B) :
  bind m f = (t, Ok b) →
  ∃ t1 a t2, m = (t1, Ok a) ∧ f a = (t2, Ok b) ∧ t = t1 ++ t2.
Proof.
  destruct m as [t1 [a|e]]; simpl; [|done].
  destruct (f a) as [t2 r] eqn:Hf. intros [= <- ->]. by eexists _, _, _.
Qed.

Lemma utf8_chars_nonempty (s : string) :
  s ≠ EmptyString → length (utf8_chars s) ≠ 0%nat.
Proof.
  destruct s as [|c s]; [done|]. intros _. simpl.
  destruct (starts_with_continuation s); [|done].
  by destruct (utf8_chars s).
Qed.

Lemma hexlify_length (b : bytes) :
  String.length (hexlify b) = (2 * length b)%nat.
Proof. induction b as [|x b IH]; simpl; [done|]. rewrite IH. lia. Qed.

Lemma hex_digit_is_hex (n : N) : Reference.is_hex_digit (hex_digit n) = true.
Proof.
  destruct n as [|p]; [done|].
  do 5 (destruct p as [p|p|]; try done).
Qed.

Lemma hexlify_hex (b : bytes) :
  forallb Reference.is_hex_digit (String.list_ascii_of_string (hexlify b))
  = true.
Proof.
  induction b as [|x b IH]; [done|].
  cbn [hexlify String.list_ascii_of_string forallb].
  by rewrite !hex_digit_is_hex, IH.
Qed.

Lemma token_bytes_length `{cap : Capability} (n : nat) :
  length (token_bytes n) = n.
Proof. unfold token_bytes. by rewrite length_fmap, length_seq. Qed.

Section Orchestrator.
Context `{cap : Capability}.
Context (self : ClientSignature) (worker : worker_details)
  (private_key : signing_key) (session_key session_iv : bytes)
  (encrypted_session_key : bytes) (data_key data_iv : option bytes).

Lemma generate_client_signature_nonce_stage (top d : gmap string pyval)
    (items : list pyval) (s : string) :
  accepted self worker (PDict top) →
  top !! "params" = Some (PDict d) →
  d !! "inData" = Some (PList items) →
  Forall (λ it, keyed_item it = true) items →
  d !! "requesterNonce" = Some (PStr s) →
  generate_client_signature self (PDict top) worker private_key session_key
    session_iv encrypted_session_key data_key data_iv
  = (let* items' :=
       map_M (encrypt_item session_key session_iv data_key data_iv) items in
     let input_json_params := encrypted_params session_iv d items' in
     if bool_decide (s = EmptyString) then
       let* fresh := token_hex NO_OF_BYTES in
       let* input_json_params :=
         setitem input_json_params "requesterNonce" (PStr fresh) in
       sign_request self (PDict top) input_json_params private_key
         session_key session_iv (byte_array_to_hex_str encrypted_session_key)
     else
       let* valid := is_valid_hex_str (PStr s) in
       if negb valid then ret (self, (ParamsObject input_json_params, FAILED))
       else
         sign_request self (PDict top) input_json_params private_key
           session_key session_iv
           (byte_array_to_hex_str encrypted_session_key)).
Proof.
  intros (Hcheck & Hhash & Hsign) Hparams Hin Hitems Hnonce.
  unfold generate_client_signature.
  rewrite Hcheck, bind_ret_l. cbn [negb].
  unfold config_get. rewrite Hhash, bind_ret_l.
  rewrite bool_decide_eq_true_2 by done. cbn [negb].
  rewrite Hsign, bind_ret_l. rewrite bool_decide_eq_true_2 by done.
  cbn [negb getitem]. rewrite Hparams, bind_ret_l. cbn [setitem].
  rewrite bind_ret_l.
  rewrite (encrypt_workorder_indata_items session_key session_iv data_key
             data_iv _ items) by (by rewrite ?lookup_insert_ne).
  rewrite bind_assoc. apply bind_ext; intros items'. rewrite bind_ret_l.
  fold (encrypted_params session_iv d items'). unfold encrypted_params at 1 2.
  cbn [contains getitem].
  rewrite !lookup_insert_ne, Hnonce by done.
  rewrite bool_decide_eq_true_2 by done. rewrite !bind_ret_l.
  cbn [len]. rewrite bind_ret_l.
  destruct (decide (s = EmptyString)) as [->|Hs].
  - by rewrite bool_decide_eq_true_2.
  - rewrite bool_decide_eq_false_2 by done.
    apply utf8_chars_nonempty, Nat.eqb_neq in Hs. by rewrite Hs.
Qed.

End Orchestrator.

Ltac invert_run H :=
  repeat first
    [ apply bind_Ok_inv in H as (? & ? & ? & ? & H & ?)
    | match type of H with
      | (if ?b then _ else _) = _ => destruct b eqn:?
      | (match ?x with _ => _ end) = _ => destruct x eqn:?
      end ].

Section OrchestratorFailures.
Context `{cap : Capability}.

Lemma sign_request_failed (self self' : ClientSignature)
    (input_json_str input_json_params : pyval) (private_key : signing_key)
    (session_key session_iv : bytes) (encrypted_session_key_str : string)
    t (out : returned_payload) :
  sign_request self input_json_str input_json_params private_key session_key
    session_iv encrypted_session_key_str
  = (t, Ok (self', (out, FAILED))) →
  out = JsonText input_json_str.
Proof.
  unfold sign_request. intros H. invert_run H; simplify_eq; try done.
  all: unfold ret in H; by simplify_eq.
Qed.

Lemma generate_client_signature_failed (self self' : ClientSignature)
    (input_json_str : pyval) (worker : worker_details)
    (private_key : signing_key) (session_key session_iv : bytes)
    (encrypted_session_key : bytes) (data_key data_iv : option bytes)
    t (out : returned_payload) :
  generate_client_signature self input_json_str worker private_key
    session_key session_iv encrypted_session_key data_key data_iv
  = (t, Ok (self', (out, FAILED))) →
  out = JsonText input_json_str
  ∨ ∃ params p0 p,
      outcome (getitem input_json_str "params") = Ok params
      ∧ outcome (setitem params "sessionKeyIv"
                   (PStr (byte_array_to_hex_str session_iv))) = Ok p0
      ∧ outcome (__encrypt_workorder_indata p0 session_key session_iv
                   (encryption_key worker) data_key data_iv) = Ok p
      ∧ out = ParamsObject p
      ∧ self' = self.
Proof.
  unfold generate_client_signature. intros H.
  apply bind_Ok_inv in H as (? & checked & ? & _ & H & _).
  destruct checked; cbn [negb] in H; [|left; unfold ret in H; by simplify_eq].
  apply bind_Ok_inv in H as (? & h & ? & _ & H & _).
  destruct (bool_decide (h = hashing_algorithm worker)); cbn [negb] in H;
    [|left; unfold ret in H; by simplify_eq].
  apply bind_Ok_inv in H as (? & sa & ? & _ & H & _).
  destruct (bool_decide (sa = signing_algorithm worker)); cbn [negb] in H;
    [|left; unfold ret in H; by simplify_eq].
  apply bind_Ok_inv in H as (? & params & ? & Hparams & H & _).
  apply bind_Ok_inv in H as (? & p0 & ? & Hp0 & H & _).
  apply bind_Ok_inv in H as (? & p & ? & Hp & H & _).
  assert (Hpartial : ∃ params p0 p',
            outcome (getitem input_json_str "params") = Ok params
            ∧ outcome (setitem params "sessionKeyIv"
                         (PStr (byte_array_to_hex_str session_iv))) = Ok p0
            ∧ outcome (__encrypt_workorder_indata p0 session_key session_iv
                         (encryption_key worker) data_key data_iv) = Ok p'
            ∧ ParamsObject p = ParamsObject p' ∧ self = self).
  { exists params, p0, p. unfold outcome. by rewrite Hparams, Hp0, Hp. }
  apply bind_Ok_inv in H as (? & has_nonce & ? & _ & H & _).
  destruct has_nonce; [|right; unfold ret in H; by simplify_eq].
  apply bind_Ok_inv in H as (? & n & ? & _ & H & _).
  apply bind_Ok_inv in H as (? & nonce_len & ? & _ & H & _).
  destruct (nonce_len =? 0)%nat.
  - apply bind_Ok_inv in H as (? & fresh & ? & _ & H & _).
    apply bind_Ok_inv in H as (? & p1 & ? & _ & H & _).
    left. by eapply sign_request_failed.
  - apply bind_Ok_inv in H as (? & valid & ? & _ & H & _).
    destruct valid; cbn [negb] in H.
    + left. by eapply sign_request_failed.
    + right. unfold ret in H. by simplify_eq.
Qed.

End OrchestratorFailures.

Section OrchestratorClaims.
Context `{cap : Capability}.
Context (self : ClientSignature) (worker : worker_details)
  (private_key : signing_key) (session_key session_iv : bytes)
  (encrypted_session_key : bytes) (data_key data_iv : option bytes).

(** X17.  The nonce stage of [generate_client_signature], on a request that
    passes the checks and whose [inData] items hold string [data] and key
    fields.  An empty [requesterNonce] is replaced by [token_hex(16)], a text
    of 32 hexadecimal characters, before the request is signed.  A nonce that
    is not empty and that [is_valid_hex_str] rejects ends the run with
    FAILED: the instance is unchanged, the only calls made are those of the
    encryption of [inData], and what is returned is the [params] mapping with
    [sessionKeyIv] set and the [data] of every item replaced by its encrypted
    or encoded text.  Every FAILED return is the request text or that
    mapping. *)
Theorem generate_client_signature_nonce_and_failures :
  (* an empty nonce is replaced before the request is signed *)
  (∀ top d items,
     accepted self worker (PDict top) →
     top !! "params" = Some (PDict d) →
     d !! "inData" = Some (PList items) →
     Forall (λ it, keyed_item it = true) items →
     d !! "requesterNonce" = Some (PStr EmptyString) →
     generate_client_signature self (PDict top) worker private_key
       session_key session_iv encrypted_session_key data_key data_iv
     = (let* items' :=
          map_M (encrypt_item session_key session_iv data_key data_iv) items in
        let* fresh := token_hex NO_OF_BYTES in
        let* input_json_params :=
          setitem (encrypted_params session_iv d items') "requesterNonce"
            (PStr fresh) in
        sign_request self (PDict top) input_json_params private_key
          session_key session_iv
          (byte_array_to_hex_str encrypted_session_key)))
  ∧ token_hex NO_OF_BYTES
    = ([Call_token_hex 16], Ok (hexlify (token_bytes 16)))
  ∧ String.length (hexlify (token_bytes 16)) = 32%nat
  ∧ forallb Reference.is_hex_digit
      (String.list_ascii_of_string (hexlify (token_bytes 16))) = true
  (* a nonce that is not hexadecimal *)
  ∧ (∀ top d items s t items',
       accepted self worker (PDict top) →
       top !! "params" = Some (PDict d) →
       d !! "inData" = Some (PList items) →
       Forall (λ it, keyed_item it = true) items →
       d !! "requesterNonce" = Some (PStr s) →
       s ≠ EmptyString →
       hex_is_valid_hex_str (PStr s) = inr false →
       map_M (encrypt_item session_key session_iv data_key data_iv) items
       = (t, Ok items') →
       generate_client_signature self (PDict top) worker private_key
         session_key session_iv encrypted_session_key data_key data_iv
       = (t, Ok (self,
                 (ParamsObject (encrypted_params session_iv d items'),
                  FAILED))))
  (* what a failure returns *)
  ∧ (∀ input_json_str t self' out,
       generate_client_signature self input_json_str worker private_key
         session_key session_iv encrypted_session_key data_key data_iv
       = (t, Ok (self', (out, FAILED))) →
       out = JsonText input_json_str
       ∨ ∃ params p0 p,
           outcome (getitem input_json_str "params") = Ok params
           ∧ outcome (setitem params "sessionKeyIv"
                        (PStr (byte_array_to_hex_str session_iv))) = Ok p0
           ∧ outcome (__encrypt_workorder_indata p0 session_key session_iv
                        (encryption_key worker) data_key data_iv) = Ok p
           ∧ out = ParamsObject p
           ∧ self' = self).
Proof.
  split_and!.
  - intros top d items Hacc Hparams Hin Hitems Hnonce.
    by rewrite (generate_client_signature_nonce_stage self worker private_key
                  session_key session_iv encrypted_session_key data_key
                  data_iv top d items EmptyString).
  - done.
  - by rewrite hexlify_length, token_bytes_length.
  - apply hexlify_hex.
  - intros top d items s t items' Hacc Hparams Hin Hitems Hnonce Hs Hvalid
      Hmap.
    rewrite (generate_client_signature_nonce_stage self worker private_key
               session_key session_iv encrypted_session_key data_key
               data_iv top d items s) by done.
    rewrite Hmap, bool_decide_eq_false_2 by done.
    unfold is_valid_hex_str. rewrite Hvalid. simpl. by rewrite app_nil_r.
  - intros input_json_str t self' out.
    apply generate_client_signature_failed.
Qed.

End OrchestratorClaims.

(** C5, the code at the failing input.  Whatever the capability and the
    signing key: when [is_valid_hex_str] rejects the nonce ["zz"] of
    [request_with_bad_nonce], [generate_client_signature] makes no call and
    returns FAILED with the [params] mapping it was working on (line 290),
    in which [sessionKeyIv] has been set and the [data] of the item has been
    replaced by its base64 text; this is neither the request text nor the
    [params] as supplied.  The other failure exits return the request text:
    the same request for a worker with another hashing algorithm gets its
    text back (line 263), and so does every request whose signing fails
    (line 322), which happens after the same changes to [params]. *)
Theorem generate_client_signature_bad_nonce_returns_params
    `{cap : Capability} (k : signing_key) :
  hex_is_valid_hex_str (PStr "zz") = inr false →
  let returned :=
    encrypted_params (encode_utf8 "I") params_with_bad_nonce
      [PDict (<["data" := PStr (byte_array_to_base64 (encode_utf8 "abc"))]>
                {[ "index" := PInt 0; "data" := PStr "abc";
                   "encryptedDataEncryptionKey" := PStr "-" ]})] in
  generate_client_signature (init example_config)
    (PDict request_with_bad_nonce) example_worker k
    (encode_utf8 "S") (encode_utf8 "I") (encode_utf8 "E") None None
  = ([], Ok (init example_config, (ParamsObject returned, FAILED)))
  ∧ returned ≠ PDict params_with_bad_nonce
  ∧ generate_client_signature (init example_config)
      (PDict request_with_bad_nonce)
      {| hashing_algorithm := "SHA-512"; signing_algorithm := "SECP256K1";
         encryption_key := EmptyString |} k
      (encode_utf8 "S") (encode_utf8 "I") (encode_utf8 "E") None None
    = ([], Ok (init example_config,
               (JsonText (PDict request_with_bad_nonce), FAILED)))
  ∧ ∀ self self' input_json_str input_json_params session_key session_iv
      encrypted_session_key_str t out,
      sign_request self input_json_str input_json_params k session_key
        session_iv encrypted_session_key_str
      = (t, Ok (self', (out, FAILED))) →
      out = JsonText input_json_str.
Proof.
  intros Hvalid returned. subst returned. split_and!.
  - rewrite (generate_client_signature_nonce_stage _ _ _ _ _ _ _ _
               request_with_bad_nonce params_with_bad_nonce
               [PDict {[ "index" := PInt 0; "data" := PStr "abc";
                         "encryptedDataEncryptionKey" := PStr "-" ]}] "zz");
      [|by vm_compute|done|done| |done].
    2:{ constructor; [by vm_compute|constructor]. }
    cbn [map_M]. unfold encrypt_item.
    rewrite (lookup_insert_ne _ "index" "data") by done.
    rewrite lookup_insert_eq.
    rewrite (lookup_insert_ne _ "index" "encryptedDataEncryptionKey") by done.
    rewrite (lookup_insert_ne _ "data" "encryptedDataEncryptionKey") by done.
    rewrite lookup_singleton_eq.
    change (mode_of_key "-") with PassThrough.
    cbn [data_for_mode]. rewrite !bind_ret_l.
    rewrite bool_decide_eq_false_2 by done.
    unfold is_valid_hex_str. rewrite Hvalid. done.
  - intros Heq.
    apply (f_equal (λ o, match o with
                         | PDict m => m !! "sessionKeyIv"
                         | _ => None
                         end)) in Heq.
    unfold encrypted_params in Heq.
    rewrite lookup_insert_ne, lookup_insert_eq in Heq by done.
    by vm_compute in Heq.
  - unfold generate_client_signature.
    assert (Hcheck : __payload_json_check (PDict request_with_bad_nonce)
                     = ret true) by (by vm_compute).
    rewrite Hcheck, bind_ret_l. cbn [negb]. unfold config_get.
    assert (Hcfg : tcs_worker (init example_config) !! "HashingAlgorithm"
                   = Some "SHA-256") by (by vm_compute).
    rewrite Hcfg, bind_ret_l. by rewrite bool_decide_eq_false_2.
  - intros self self' input_json_str input_json_params session_key session_iv
      encrypted_session_key_str t out. apply sign_request_failed.
Qed.

(** * Concrete runs with the reference capability *)

Example singleton_response_passes :
  outcome (verify_signature (cap := Reference.capability)
             Examples.singleton_response
             (PStr Examples.worker_key) PNone) = Ok (Some PASSED).
Proof. vm_compute. reflexivity. Qed.

Example delegated_response_passes :
  outcome (verify_signature (cap := Reference.capability)
             Examples.delegated_response
             (PStr Examples.worker_key) (PStr Examples.requester_nonce))
  = Ok (Some PASSED).
Proof. vm_compute. reflexivity. Qed.

Example receipts_pass :
  outcome (verify_update_receipt_signature (cap := Reference.capability)
             Examples.update_receipt)
  = Ok (Some PASSED)
  ∧ outcome (verify_create_receipt_signature (cap := Reference.capability)
               Examples.create_receipt)
    = Ok (Some PASSED).
Proof. vm_compute. done. Qed.

(** * The theorems at concrete inputs *)

(** C1 at three items given out of order: the sorted list and the chain of
    their three digests *)
Lemma calculate_datahash_sorted_digest_chain_witness :
  sort_by_index (PList Examples.out_data)
  = ([], Ok Examples.sorted_out_data)
  ∧ sorted_by_index Examples.out_data Examples.sorted_out_data
  ∧ hash_str_of (calculate_datahash (cap := Reference.capability)
                   (PList Examples.out_data))
    = Ok ("jfuODSyAN0I3ykT7qHycTaTT7nF4RNt/Z2ez+7rKe6U="
          +:+ "/V9lB0VVJz3OFNNrZVRTaGAL5a53KwGQ86DoClaMyNI="
          +:+ "JkRn6eDoGK+Yuzqd5IclItA5v/QjDzJWCXfGDsuNVO0=").
Proof.
  assert (H : sort_by_index (PList Examples.out_data)
              = ([], Ok Examples.sorted_out_data)) by (by vm_compute).
  pose proof (calculate_datahash_sorted_digest_chain
                (cap := Reference.capability) Examples.out_data)
    as (Hchain & Hsort & _).
  split_and!; [exact H|exact (proj2 (Hsort _ _ H))|].
  rewrite Hchain. vm_compute. reflexivity.
Defined.

(** C2 at a response whose key assertion was made for another nonce: the
    first step fails and is the whole result; without a nonce nothing runs. *)
Lemma verify_signature_two_step_witness :
  contains "extVerificationKey" Examples.uncertified_response = ret true
  ∧ verify_signature (cap := Reference.capability)
      Examples.uncertified_response (PStr Examples.worker_key)
      (PStr Examples.requester_nonce)
    = _verify_wo_verification_key_signature (cap := Reference.capability)
        Examples.uncertified_response (PStr Examples.worker_key)
        (PStr Examples.requester_nonce)
  ∧ outcome (verify_signature (cap := Reference.capability)
               Examples.uncertified_response (PStr Examples.worker_key)
               (PStr Examples.requester_nonce))
    = Ok (Some FAILED)
  ∧ verify_signature (cap := Reference.capability)
      Examples.uncertified_response (PStr Examples.worker_key) PNone
    = ([], Ok (Some FAILED)).
Proof.
  assert (Hin : contains "extVerificationKey" Examples.uncertified_response
                = ret true) by (by vm_compute).
  pose proof (verify_signature_two_step (cap := Reference.capability)
                Examples.uncertified_response (PStr Examples.worker_key)
                (PStr Examples.requester_nonce) Hin) as (Hfail & _).
  pose proof (verify_signature_two_step (cap := Reference.capability)
                Examples.uncertified_response (PStr Examples.worker_key)
                PNone Hin) as (_ & _ & Hnone & _).
  split_and!; [exact Hin| | |by apply Hnone].
  - apply Hfail. by vm_compute.
  - rewrite Hfail by (by vm_compute). by vm_compute.
Defined.

(** The reference signature scheme reports a failed verification by
    raising. *)
Lemma reference_verify_contract (vk sg dg : bytes) :
  Reference.verify vk sg dg ≠ inr false.
Proof.
  unfold Reference.verify. destruct (negb _); [done|].
  by case_bool_decide.
Qed.

(** C3 as amended, at a delegated response and two receipts *)
Lemma verification_returns_status_witness :
  wf_response (cap := Reference.capability) Examples.delegated_response
    (PStr Examples.requester_nonce) = true
  ∧ is_status (verify_signature (cap := Reference.capability)
                 Examples.delegated_response (PStr Examples.worker_key)
                 (PStr Examples.requester_nonce))
  ∧ wf_create_receipt (cap := Reference.capability) Examples.create_receipt
    = true
  ∧ is_status (verify_create_receipt_signature (cap := Reference.capability)
                 Examples.create_receipt)
  ∧ wf_update_receipt (cap := Reference.capability) Examples.update_receipt
    = true
  ∧ is_status (verify_update_receipt_signature (cap := Reference.capability)
                 Examples.update_receipt).
Proof.
  pose proof (verification_returns_status (cap := Reference.capability)
                reference_verify_contract) as (H1 & H2 & H3).
  assert (W1 : wf_response (cap := Reference.capability)
                 Examples.delegated_response
                 (PStr Examples.requester_nonce) = true) by (by vm_compute).
  assert (W2 : wf_create_receipt (cap := Reference.capability)
                 Examples.create_receipt = true) by (by vm_compute).
  assert (W3 : wf_update_receipt (cap := Reference.capability)
                 Examples.update_receipt = true) by (by vm_compute).
  split_and!; [exact W1|by apply H1|exact W2|by apply H2|exact W3|by apply H3].
Defined.

(** C4 as amended, at four items, one for each value of the key field *)
Lemma encrypt_workorder_indata_modes_witness :
  Examples.request_params !! "inData" = Some (PList Examples.in_data)
  ∧ Forall (λ it, keyed_item it = true) Examples.in_data
  ∧ __encrypt_workorder_indata (cap := Reference.capability)
      (PDict Examples.request_params) (encode_utf8 "session key")
      (encode_utf8 "IV") EmptyString (Some (encode_utf8 "data key"))
      (Some (encode_utf8 "JW"))
    = (let* items' :=
         map_M (encrypt_item (cap := Reference.capability)
                  (encode_utf8 "session key") (encode_utf8 "IV")
                  (Some (encode_utf8 "data key")) (Some (encode_utf8 "JW")))
           Examples.in_data in
       ret (PDict (<["inData" := PList items']> Examples.request_params))).
Proof.
  assert (H1 : Examples.request_params !! "inData"
               = Some (PList Examples.in_data)) by (by vm_compute).
  assert (H2 : Forall (λ it, keyed_item it = true) Examples.in_data).
  { repeat (constructor; [by vm_compute|]). constructor. }
  split_and!; [exact H1|exact H2|].
  exact (proj1 (encrypt_workorder_indata_modes (cap := Reference.capability)
                  (encode_utf8 "session key") (encode_utf8 "IV") EmptyString
                  (Some (encode_utf8 "data key")) (Some (encode_utf8 "JW"))
                  Examples.request_params Examples.in_data H1 H2)).
Defined.

(** C10 at an item whose key field is ["null"] *)
Lemma null_key_selects_session_key_witness :
  __encrypt_workorder_indata (cap := Reference.capability)
    (PDict {[ "inData" :=
       PList [PDict (Examples.item_fields 3
                       [("data", "jkl");
                        ("encryptedDataEncryptionKey", "null")])] ]})
    (encode_utf8 "session key") (encode_utf8 "IV") EmptyString
    (Some (encode_utf8 "data key")) (Some (encode_utf8 "JW"))
  = (let* enc_data :=
       encrypt_data (cap := Reference.capability) (encode_utf8 "jkl")
         (Some (encode_utf8 "session key")) (Some (encode_utf8 "IV")) in
     ret (PDict {[ "inData" :=
            PList [PDict (<["data" := PStr (Base64.encode enc_data)]>
                            (Examples.item_fields 3
                               [("data", "jkl");
                                ("encryptedDataEncryptionKey", "null")]))] ]})).
Proof.
  apply (null_key_selects_session_key (cap := Reference.capability)
           (encode_utf8 "jkl") (encode_utf8 "session key") (encode_utf8 "IV")
           (Some (encode_utf8 "data key")) (Some (encode_utf8 "JW")));
    by vm_compute.
Defined.

(** C5 at the reference capability, for which ["zz"] is not hexadecimal: the
    mapping returned has [sessionKeyIv] ["49"] and the item's [data]
    ["YWJj"]. *)
Lemma generate_client_signature_bad_nonce_returns_params_witness :
  generate_client_signature (cap := Reference.capability)
    (init example_config) (PDict request_with_bad_nonce) example_worker
    (encode_utf8 "signing key") (encode_utf8 "S") (encode_utf8 "I")
    (encode_utf8 "E") None None
  = ([], Ok (init example_config,
             (ParamsObject
                (PDict (<["inData" :=
                            PList [PDict {[ "index" := PInt 0;
                                            "data" := PStr "YWJj";
                                            "encryptedDataEncryptionKey" :=
                                              PStr "-" ]}]]>
                          (<["sessionKeyIv" := PStr "49"]>
                             params_with_bad_nonce))),
              FAILED))).
Proof.
  assert (Heq :
    encrypted_params (cap := Reference.capability) (encode_utf8 "I")
      params_with_bad_nonce
      [PDict (<["data" := PStr (byte_array_to_base64
                                  (cap := Reference.capability)
                                  (encode_utf8 "abc"))]>
                {[ "index" := PInt 0; "data" := PStr "abc";
                   "encryptedDataEncryptionKey" := PStr "-" ]})]
    = PDict (<["inData" :=
                 PList [PDict {[ "index" := PInt 0; "data" := PStr "YWJj";
                                 "encryptedDataEncryptionKey" :=
                                   PStr "-" ]}]]>
               (<["sessionKeyIv" := PStr "49"]> params_with_bad_nonce)))
    by (vm_compute; reflexivity).
  rewrite <- Heq.
  apply (generate_client_signature_bad_nonce_returns_params
           (cap := Reference.capability) (encode_utf8 "signing key")).
  vm_compute. reflexivity.
Defined.

(** X17 at the request whose nonce is ["zz"] *)
Lemma generate_client_signature_nonce_and_failures_witness :
  generate_client_signature (cap := Reference.capability)
    (init example_config) (PDict request_with_bad_nonce) example_worker
    (encode_utf8 "signing key") (encode_utf8 "S") (encode_utf8 "I")
    (encode_utf8 "E") None None
  = ([], Ok (init example_config,
             (ParamsObject
                (encrypted_params (cap := Reference.capability)
                   (encode_utf8 "I") params_with_bad_nonce
                   [PDict (<["data" := PStr "YWJj"]>
                             {[ "index" := PInt 0; "data" := PStr "abc";
                                "encryptedDataEncryptionKey" := PStr "-" ]})]),
              FAILED))).
Proof.
  pose proof (generate_client_signature_nonce_and_failures
                (cap := Reference.capability) (init example_config)
                example_worker (encode_utf8 "signing key") (encode_utf8 "S")
                (encode_utf8 "I") (encode_utf8 "E") None None)
    as (_ & _ & _ & _ & Hbad & _).
  apply (Hbad request_with_bad_nonce params_with_bad_nonce
           [PDict {[ "index" := PInt 0; "data" := PStr "abc";
                     "encryptedDataEncryptionKey" := PStr "-" ]}] "zz").
  - split_and!; by vm_compute.
  - by vm_compute.
  - by vm_compute.
  - constructor; [by vm_compute|constructor].
  - by vm_compute.
  - done.
  - by vm_compute.
  - by vm_compute.
Defined.

(** C6 as amended, at three items: the reversed list gives the same result,
    and changing the [data] of one item changes it. *)
Lemma calculate_datahash_order_and_sensitivity_witness :
  calculate_datahash (cap := Reference.capability) (PList Examples.out_data)
  = calculate_datahash (cap := Reference.capability)
      (PList (reverse Examples.out_data))
  ∧ hash_str_of (calculate_datahash (cap := Reference.capability)
      (PList (<[0%nat := PDict (<["data" := PStr "dGFtcGVyZWQ="]>
                 (Examples.item_fields 2
                    [("data", "cmVzdWx0LTI="); ("iv", "00")]))]>
                Examples.out_data)))
    ≠ hash_str_of (calculate_datahash (cap := Reference.capability)
                     (PList Examples.out_data)).
Proof.
  pose proof (calculate_datahash_order_and_sensitivity
                (cap := Reference.capability)) as [Hperm Hsens].
  assert (Hnodup : NoDup (int_index <$> Examples.out_data)).
  { apply (bool_decide_unpack _). by vm_compute. }
  split.
  - apply Hperm; [|exact Hnodup|by rewrite reverse_Permutation].
    repeat (constructor; [by eexists|]). constructor.
  - destruct (Hsens Examples.out_data 0%nat
                (Examples.item_fields 2
                   [("data", "cmVzdWx0LTI="); ("iv", "00")])
                "data" "cmVzdWx0LTI=" "dGFtcGVyZWQ=") as [_ Hiff].
    + repeat (constructor; [by vm_compute|]). constructor.
    + exact Hnodup.
    + done.
    + by left.
    + by vm_compute.
    + done.
    + intros Heq. apply Hiff in Heq. vm_compute in Heq. discriminate.
Defined.

(** Further runs: the outcomes of a verification.  A response whose data was
    changed after signing fails; a signature of the wrong size is a format
    error; an unusable key is reported as such; signature text that the
    decoder refuses raises out of the operation. *)
Example tampered_response_fails :
  outcome (verify_signature (cap := Reference.capability)
             (PDict (<["outData" := PList Examples.sorted_out_data]>
                       (<["workerId" := PStr "w2"]>
                          (<["workerSignature" :=
                               PStr Examples.singleton_signature]>
                             Examples.response_fields))))
             (PStr Examples.worker_key) PNone)
  = Ok (Some FAILED).
Proof. vm_compute. reflexivity. Qed.

Example reordered_response_passes :
  outcome (verify_signature (cap := Reference.capability)
             (PDict (<["outData" := PList Examples.sorted_out_data]>
                       (<["workerSignature" :=
                            PStr Examples.singleton_signature]>
                          Examples.response_fields)))
             (PStr Examples.worker_key) PNone)
  = Ok (Some PASSED).
Proof. vm_compute. reflexivity. Qed.

Example short_signature_is_malformed :
  outcome (verify_signature (cap := Reference.capability)
             (PDict (<["workerSignature" := PStr "c2lnbmF0dXJl"]>
                       Examples.response_fields))
             (PStr Examples.worker_key) PNone)
  = Ok (Some INVALID_SIGNATURE_FORMAT).
Proof. vm_compute. reflexivity. Qed.

Example unusable_key_is_reported :
  outcome (verify_signature (cap := Reference.capability)
             Examples.singleton_response (PStr EmptyString) PNone)
  = Ok (Some INVALID_VERIFICATION_KEY).
Proof. vm_compute. reflexivity. Qed.

Example undecodable_signature_raises :
  outcome (verify_signature (cap := Reference.capability)
             (PDict (<["workerSignature" := PStr "abc"]>
                       Examples.response_fields))
             (PStr Examples.worker_key) PNone)
  = Raise (ExternalError "Incorrect padding").
Proof. vm_compute. reflexivity. Qed.

(** A request with an empty nonce is signed, and the nonce of the signed
    request has 32 characters. *)
Example empty_nonce_request_is_signed :
  match outcome (generate_client_signature (cap := Reference.capability)
                   (init example_config)
                   (PDict {[ "params" :=
                      PDict (<["requesterNonce" := PStr EmptyString]>
                               Examples.request_params) ]})
                   example_worker (encode_utf8 "signing key")
                   (encode_utf8 "session key") (encode_utf8 "IV")
                   (encode_utf8 "wrapped key")
                   (Some (encode_utf8 "data key")) (Some (encode_utf8 "JW")))
  with
  | Ok (self', (JsonText (PDict top), PASSED)) =>
      match top !! "params" with
      | Some (PDict d) =>
          match d !! "requesterNonce", d !! "verifyingKey" with
          | Some (PStr n), Some (PStr pk) =>
              String.length n = 32%nat
              ∧ pk = "signing key"
              ∧ public_key self' = Some pk
          | _, _ => False
          end
      | _ => False
      end
  | _ => False
  end.
Proof. vm_compute. done. Qed.

(** * The checks, the digests and the runs in full *)

Lemma check_params_loop (d : gmap string pyval) (acc : bool) (l : list string) :
  for_each (λ param_valid param,
      let* present := contains param (PDict d) in
      ret (if negb present then false else param_valid)) acc l
  = ret (acc && forallb (λ k, bool_decide (is_Some (d !! k))) l).
Proof.
  revert acc. induction l as [|k l IH]; intros acc.
  - by rewrite andb_true_r.
  - cbn [for_each forallb contains]. rewrite !bind_ret_l, IH.
    by destruct (bool_decide (is_Some (d !! k))), acc.
Qed.

Lemma check_items_loop (acc : bool) (items : list pyval) :
  forallb is_pdict items = true →
  for_each (λ param_valid obj,
      let* has_data := contains "data" obj in
      if negb has_data then ret false
      else
        let* d := getitem obj "data" in
        if negb (truthy d) then ret false
        else
          let* has_index := contains "index" obj in
          ret (if negb has_index then false else param_valid)) acc items
  = ret (acc && forallb checked_item items).
Proof.
  revert acc. induction items as [|obj items IH]; intros acc Hd.
  - by rewrite andb_true_r.
  - cbn [forallb] in Hd. apply andb_prop in Hd as [Hobj Hd].
    destruct obj as [| | | | |o]; try done.
    cbn [for_each forallb contains getitem checked_item].
    rewrite bind_ret_l.
    destruct (o !! "data") as [v|] eqn:Hv.
    + rewrite bool_decide_eq_true_2 by done. cbn [negb].
      rewrite bind_ret_l.
      destruct (truthy v); cbn [negb andb].
      * rewrite bind_ret_l, bind_ret_l, IH by done.
        by destruct (bool_decide (is_Some (o !! "index"))), acc.
      * rewrite bind_ret_l, IH by done. by rewrite andb_false_r.
    + rewrite bool_decide_eq_false_2 by (by intros [? ?]). cbn [negb].
      rewrite bind_ret_l, IH by done. by rewrite andb_false_r.
Qed.

(** X1.  [__payload_json_check] never raises on a request whose [params] is a
    mapping and whose [inData] is a list of mappings.  It answers [False] when
    [params] is absent or lacks one of the five names of [param_pool] (the
    items of [inData] are then not looked at), and otherwise answers whether
    every item of [inData] has a [data] that is not empty and an [index]. *)
Theorem payload_json_check_decides (top : gmap string pyval) :
  (top !! "params" = None → __payload_json_check (PDict top) = ret false)
  ∧ (∀ d, top !! "params" = Some (PDict d) →
       has_params d = false →
       __payload_json_check (PDict top) = ret false)
  ∧ (∀ d items,
       top !! "params" = Some (PDict d) →
       has_params d = true →
       d !! "inData" = Some (PList items) →
       forallb is_pdict items = true →
       __payload_json_check (PDict top) = ret (forallb checked_item items)).
Proof.
  unfold __payload_json_check. cbn [contains getitem].
  split; [|split].
  - intros ->. by rewrite bool_decide_eq_false_2 by (by intros [? ?]).
  - intros d -> Hd. rewrite bool_decide_eq_true_2 by done.
    rewrite !bind_ret_l. cbn [negb].
    rewrite check_params_loop. fold (has_params d). by rewrite Hd.
  - intros d items -> Hd Hin Hitems. rewrite bool_decide_eq_true_2 by done.
    rewrite !bind_ret_l. cbn [negb].
    rewrite check_params_loop. fold (has_params d). rewrite Hd.
    rewrite bind_ret_l. cbn [andb getitem]. rewrite Hin, bind_ret_l.
    cbn [iterate]. rewrite bind_ret_l.
    by rewrite check_items_loop.
Qed.

Lemma payload_check_refuses (top d : gmap string pyval) :
  top !! "params" = Some (PDict d) →
  has_params d = false
  ∨ (∃ items, d !! "inData" = Some (PList items)
              ∧ forallb is_pdict items = true
              ∧ forallb checked_item items = false) →
  __payload_json_check (PDict top) = ret false.
Proof.
  intros Hp Hbad. unfold __payload_json_check. cbn [contains getitem].
  rewrite Hp, bool_decide_eq_true_2 by done.
  rewrite !bind_ret_l. cbn [negb].
  rewrite check_params_loop. fold (has_params d).
  destruct (has_params d) eqn:Hd; [|done].
  destruct Hbad as [?|(items & Hin & Hdicts & Hitems)]; [done|].
  rewrite bind_ret_l. cbn [andb getitem]. rewrite Hin, bind_ret_l.
  cbn [iterate]. rewrite bind_ret_l.
  by rewrite check_items_loop, Hitems.
Qed.

Section Refusals.
Context `{cap : Capability}.
Context (self : ClientSignature) (worker : worker_details)
  (private_key : signing_key) (session_key session_iv : bytes)
  (encrypted_session_key : bytes) (data_key data_iv : option bytes).

(** X2.  [generate_client_signature] makes its checks before it touches the
    request: a request whose [params] lack one of the five required names, or
    hold an [inData] item without [data] (or with an empty one) or without
    [index], and a request for a worker whose hashing or signing algorithm
    differs from the configured one, is answered with FAILED and the request
    text as given; the instance is unchanged and no call into the capability
    (hashing, encryption, key derivation, signing, random bytes) is made. *)
Theorem generate_client_signature_checks_first (top : gmap string pyval) :
  let run :=
    generate_client_signature self (PDict top) worker private_key
      session_key session_iv encrypted_session_key data_key data_iv in
  let refused := ([], Ok (self, (JsonText (PDict top), FAILED))) in
  (∀ d, top !! "params" = Some (PDict d) → has_params d = false →
     run = refused)
  ∧ (∀ d items,
       top !! "params" = Some (PDict d) →
       d !! "inData" = Some (PList items) →
       forallb is_pdict items = true →
       forallb checked_item items = false →
       run = refused)
  ∧ (∀ h,
       __payload_json_check (PDict top) = ret true →
       tcs_worker self !! "HashingAlgorithm" = Some h →
       h ≠ hashing_algorithm worker →
       run = refused)
  ∧ (∀ s,
       __payload_json_check (PDict top) = ret true →
       tcs_worker self !! "HashingAlgorithm" = Some (hashing_algorithm worker) →
       tcs_worker self !! "SigningAlgorithm" = Some s →
       s ≠ signing_algorithm worker →
       run = refused).
Proof.
  intros run refused. subst run refused.
  unfold generate_client_signature. repeat split.
  - intros d Hp Hd.
    rewrite (payload_check_refuses top d Hp) by (by left).
    by rewrite bind_ret_l.
  - intros d items Hp Hin Hdicts Hbad.
    rewrite (payload_check_refuses top d Hp) by (right; by exists items).
    by rewrite bind_ret_l.
  - intros h -> Hh Hne. rewrite bind_ret_l. cbn [negb].
    unfold config_get. rewrite Hh, bind_ret_l.
    by rewrite bool_decide_eq_false_2.
  - intros s -> Hh Hs Hne. rewrite bind_ret_l. cbn [negb].
    unfold config_get. rewrite Hh, bind_ret_l.
    rewrite bool_decide_eq_true_2 by done. cbn [negb].
    rewrite Hs, bind_ret_l. by rewrite bool_decide_eq_false_2.
Qed.

End Refusals.

(** Membership in a list of names given in full *)
Ltac listed := by repeat constructor.

Ltac not_listed :=
  let H := fresh in
  intros H;
  repeat (apply elem_of_cons in H as [H|H]; [discriminate|]);
  by apply elem_of_nil in H.

Ltac sublisted :=
  let H := fresh in
  intros ? H;
  repeat (apply elem_of_cons in H as [->|H]; [listed|]);
  by apply elem_of_nil in H.

Lemma encode_utf8_app (a b : string) :
  encode_utf8 (a +:+ b) = encode_utf8 a ++ encode_utf8 b.
Proof.
  unfold encode_utf8, String.list_byte_of_string.
  induction a as [|c a IH]; [done|].
  rewrite append_cons. cbn [String.list_ascii_of_string map app].
  by rewrite IH.
Qed.

(** * Sorting a second time *)

Section StableSortAgain.
Context {K A : Type} (leb : K → K → bool).

Lemma stable_sort_sorted_id (l : list (K * A)) :
  Sorted (key_rel leb) l → stable_sort leb l = l.
Proof.
  induction 1 as [|x l Hs IH Hhd]; [done|].
  unfold stable_sort in *. cbn [foldr]. rewrite IH.
  destruct Hhd as [|y l Hxy]; [done|].
  cbn [insert_by_key]. unfold key_rel in Hxy. by rewrite Hxy.
Qed.

Lemma insert_by_key_fmap {B} (f : A → B) (x : K * A) (l : list (K * A)) :
  insert_by_key leb (prod_map id f x) (prod_map id f <$> l)
  = prod_map id f <$> insert_by_key leb x l.
Proof.
  induction l as [|y l IH]; [done|].
  cbn [fmap list_fmap insert_by_key]. destruct x as [k a], y as [k' a'].
  cbn [prod_map fst snd id]. destruct (leb k k'); [done|].
  cbn [fmap list_fmap prod_map fst snd id]. f_equal. exact IH.
Qed.

Lemma stable_sort_fmap {B} (f : A → B) (l : list (K * A)) :
  stable_sort leb (prod_map id f <$> l) = prod_map id f <$> stable_sort leb l.
Proof.
  induction l as [|x l IH]; [done|].
  unfold stable_sort in *. cbn [fmap list_fmap foldr].
  rewrite IH. apply insert_by_key_fmap.
Qed.

End StableSortAgain.

Section SortAgain.
Context {K : Type} (leb : K → K → bool) (key_of : pyval → option K).
Hypothesis leb_total : ∀ a b, leb a b = true ∨ leb b a = true.

Lemma keys_of_pairs (ps : list (K * pyval)) :
  Forall (λ p, ∃ k, index_value p.2 = Some k ∧ key_of k = Some p.1) ps →
  ∃ keys, map_M (λ x, getitem x "index") ps.*2 = ret keys
          ∧ Forall2 (λ k z, key_of k = Some z) keys ps.*1.
Proof.
  induction 1 as [|p ps (k & Hk & Hz) _ (keys & Hkeys & Hzs)].
  - by exists [].
  - exists (k :: keys). split; [|by constructor].
    apply index_keys_ok. constructor; [done|].
    apply index_keys in Hkeys as [_ ?]. done.
Qed.

Lemma zip_keys_inv (items keys : list pyval) (ks : list K) :
  Forall2 (λ it k, index_value it = Some k) items keys →
  Forall2 (λ k z, key_of k = Some z) keys ks →
  Forall (λ p, ∃ k, index_value p.2 = Some k ∧ key_of k = Some p.1)
    (zip ks items).
Proof.
  intros H. revert ks. induction H as [|it k items keys Hk _ IH]; intros ks Hks.
  - destruct ks; constructor.
  - inversion Hks as [|? z ? ks' Hz Hks']; subst. cbn [zip zip_with].
    constructor; [by exists k|]. by apply IH.
Qed.

Lemma sorted_pairs_again (items keys : list pyval) (ks : list K) :
  Forall2 (λ it k, index_value it = Some k) items keys →
  Forall2 (λ k z, key_of k = Some z) keys ks →
  let ps := stable_sort leb (zip ks items) in
  ∃ keys',
    map_M (λ x, getitem x "index") ps.*2 = ret keys'
    ∧ Forall2 (λ k z, key_of k = Some z) keys' ps.*1
    ∧ (stable_sort leb (zip ps.*1 ps.*2)).*2 = ps.*2.
Proof using leb_total.
  intros Hkeys Hks ps.
  destruct (keys_of_pairs ps) as (keys' & Hkeys' & Hks').
  { unfold ps. rewrite stable_sort_perm. by eapply zip_keys_inv. }
  exists keys'. split_and!; [done..|].
  rewrite zip_fst_snd, stable_sort_sorted_id; [done|].
  by apply stable_sort_sorted.
Qed.

End SortAgain.

Lemma mapM_int_key_str (keys : list pyval) (ss : list string) :
  keys ≠ [] →
  Forall2 (λ k s, str_key k = Some s) keys ss →
  mapM int_key keys = None.
Proof.
  intros Hne H. destruct H as [|k s keys ss Hk _]; [done|].
  apply str_key_not_int in Hk. simpl. by rewrite Hk.
Qed.

Lemma sort_by_index_again (items : list pyval) t (sorted : list pyval) :
  sort_by_index (PList items) = (t, Ok sorted) →
  sort_by_index (PList sorted) = ret sorted.
Proof.
  intros Hrun. pose proof Hrun as Hrun0. revert Hrun.
  unfold sort_by_index.
  destruct (map_M _ items) as [t1 [keys|e]] eqn:Hkeys; simpl; [|done].
  apply index_keys in Hkeys as [-> Hkeys]. simpl.
  unfold sort_by_keys at 1.
  destruct (length items <=? 1)%nat eqn:Hlen.
  { intros [= <- <-]. rewrite (index_keys_ok _ _ Hkeys), bind_ret_l.
    unfold sort_by_keys. by rewrite Hlen. }
  destruct (mapM int_key keys) as [zs|] eqn:Hint.
  { intros [= <- <-]. apply mapM_Some_1 in Hint.
    destruct (sorted_pairs_again Z.leb int_key Z_leb_total _ _ _ Hkeys Hint)
      as (keys' & Hkeys' & Hzs' & Hid).
    rewrite Hkeys', bind_ret_l. unfold sort_by_keys.
    apply mapM_Some_2 in Hzs'. rewrite Hzs', Hid.
    by destruct (length (stable_sort Z.leb (zip zs items)).*2 <=? 1)%nat. }
  destruct (mapM str_key keys) as [ss|] eqn:Hstr.
  { intros [= <- <-]. apply mapM_Some_1 in Hstr.
    destruct (sorted_pairs_again String.leb str_key String.leb_total _ _ _
                Hkeys Hstr) as (keys' & Hkeys' & Hss' & Hid).
    rewrite Hkeys', bind_ret_l. unfold sort_by_keys.
    destruct (length (stable_sort String.leb (zip ss items)).*2 <=? 1)%nat
      eqn:Hlen'; [done|].
    rewrite (mapM_int_key_str keys' (stable_sort String.leb (zip ss items)).*1);
      [|intros ->|exact Hss'].
    2:{ apply index_keys in Hkeys' as [_ Hk'].
        apply Forall2_length in Hk'. by rewrite Hk' in Hlen'. }
    apply mapM_Some_2 in Hss'. by rewrite Hss', Hid. }
  by destruct (forallb is_plist keys).
Qed.

Section DataHashAgain.
Context `{cap : Capability}.

(** X3.  [calculate_datahash] sorts the caller's list in place, and a second
    call on the list it has left behind makes the same hashing calls, returns
    the same text and leaves the list as it is. *)
Theorem calculate_datahash_again (items sorted : list pyval) t
    (hash_str : string) :
  calculate_datahash (PList items) = (t, Ok (PList sorted, hash_str)) →
  calculate_datahash (PList sorted) = (t, Ok (PList sorted, hash_str)).
Proof.
  unfold calculate_datahash. intros Hrun.
  apply bind_Ok_inv in Hrun as (t1 & sorted' & t2 & Hsort & Hrun & ->).
  apply bind_Ok_inv in Hrun as (t3 & h & t4 & Hloop & Hret & ->).
  injection Hret as <- <- <-.
  pose proof (sort_by_index_facts _ _ _ Hsort) as [-> _].
  rewrite (sort_by_index_again _ _ _ Hsort), bind_ret_l, Hloop.
  simpl. by rewrite app_nil_r.
Qed.

End DataHashAgain.

(** * Absent optional fields *)

Lemma getitem_with_default (k k' : string) (item : pyval) :
  k ≠ k' → getitem (with_default k item) k' = getitem item k'.
Proof.
  intros Hne. destruct item as [| | | | |d]; try done.
  unfold with_default. destruct (d !! k) eqn:Hk; [done|].
  cbn [getitem]. by rewrite lookup_insert_ne.
Qed.

Lemma optional_field_with_default_ne (k k' : string) (item : pyval) :
  k ≠ k' → optional_field (with_default k item) k' = optional_field item k'.
Proof.
  intros Hne. destruct item as [| | | | |d]; try done.
  unfold with_default. destruct (d !! k) eqn:Hk; [done|].
  unfold optional_field. cbn [contains getitem].
  by rewrite lookup_insert_ne.
Qed.

Lemma optional_field_with_default (k : string) (item : pyval) :
  optional_field (with_default k item) k = optional_field item k.
Proof.
  destruct item as [| | | | |d]; try done.
  unfold with_default. destruct (d !! k) eqn:Hk; [done|].
  unfold optional_field. cbn [contains getitem].
  rewrite lookup_insert_eq, Hk.
  rewrite (bool_decide_eq_true_2 (is_Some (Some _))) by done.
  by rewrite (bool_decide_eq_false_2 (is_Some None)) by (by intros [? ?]).
Qed.

Section AbsentFields.
Context `{cap : Capability}.

Lemma item_concat_string_with_default (k : string) (item : pyval) :
  k = "dataHash" ∨ k = "encryptedDataEncryptionKey" ∨ k = "iv" →
  item_concat_string (with_default k item) = item_concat_string item.
Proof.
  unfold item_concat_string.
  intros [-> | [-> | ->]];
    rewrite ?optional_field_with_default,
      ?optional_field_with_default_ne, ?getitem_with_default by done;
    done.
Qed.

Lemma item_concat_string_with_empty_fields (item : pyval) :
  item_concat_string (with_empty_fields item) = item_concat_string item.
Proof.
  unfold with_empty_fields.
  rewrite !item_concat_string_with_default; auto.
Qed.

Lemma getitem_index_with_empty_fields (item : pyval) :
  getitem (with_empty_fields item) "index" = getitem item "index".
Proof.
  unfold with_empty_fields. by rewrite !getitem_with_default.
Qed.

Lemma sort_by_keys_fmap (f : pyval → pyval) (keys items : list pyval) :
  sort_by_keys keys (f <$> items)
  = (let* sorted := sort_by_keys keys items in ret (f <$> sorted)).
Proof.
  unfold sort_by_keys. rewrite length_fmap.
  destruct (length items <=? 1)%nat; [done|].
  assert (Hzip : ∀ K (ks : list K),
            zip ks (f <$> items) = prod_map id f <$> zip ks items).
  { intros K ks. revert ks. induction items as [|x items' IH]; intros [|k ks];
      try done. cbn [zip zip_with fmap list_fmap]. f_equal. apply IH. }
  assert (Hsnd : ∀ K (l : list (K * pyval)),
            (prod_map id f <$> l).*2 = f <$> l.*2).
  { intros K l. induction l as [|[k a] l IH]; [done|].
    cbn [fmap list_fmap prod_map snd]. by f_equal. }
  destruct (mapM int_key keys) as [zs|].
  { by rewrite Hzip, stable_sort_fmap, Hsnd. }
  destruct (mapM str_key keys) as [ss|].
  { by rewrite Hzip, stable_sort_fmap, Hsnd. }
  by destruct (forallb is_plist keys).
Qed.

Lemma map_M_fmap_ext {A B} (f g : A → M B) (h : A → A) (l : list A) :
  (∀ x, f (h x) = g x) → map_M f (h <$> l) = map_M g l.
Proof.
  intros Hfg. induction l as [|x l IH]; [done|].
  cbn [fmap list_fmap map_M]. by rewrite Hfg, IH.
Qed.

Lemma sort_by_index_fmap (f : pyval → pyval) (items : list pyval) :
  (∀ x, getitem (f x) "index" = getitem x "index") →
  sort_by_index (PList (f <$> items))
  = (let* sorted := sort_by_index (PList items) in ret (f <$> sorted)).
Proof.
  intros Hf. unfold sort_by_index.
  rewrite (map_M_fmap_ext _ (λ x, getitem x "index")) by done.
  rewrite bind_assoc. apply bind_ext; intros keys.
  apply sort_by_keys_fmap.
Qed.

Lemma calculate_datahash_fmap (f : pyval → pyval) (items : list pyval) :
  (∀ x, getitem (f x) "index" = getitem x "index") →
  (∀ x, item_concat_string (f x) = item_concat_string x) →
  calculate_datahash (PList (f <$> items))
  = (let* '(sorted, hash_str) := calculate_datahash (PList items) in
     match sorted with
     | PList l => ret (PList (f <$> l), hash_str)
     | _ => ret (sorted, hash_str)
     end).
Proof.
  intros Hindex Hconcat.
  rewrite !calculate_datahash_digest_chain. unfold digest_chain.
  rewrite sort_by_index_fmap by done.
  rewrite !bind_assoc. apply bind_ext; intros sorted.
  rewrite bind_ret_l, bind_assoc.
  rewrite (map_M_fmap_ext _ item_digest).
  2:{ intros x. unfold item_digest. by rewrite Hconcat. }
  apply bind_ext; intros ds. by rewrite bind_ret_l.
Qed.

(** X4.  An optional field that is absent is hashed as the empty string.
    For every list of data items, [calculate_datahash] makes the same hashing
    calls and returns the same text when each absent [dataHash],
    [encryptedDataEncryptionKey] and [iv] is supplied as the empty string
    (it raises the same exception when it raises); and the header hash of
    [__calculate_hash_on_concatenated_string] is the same whether
    [workloadId] is absent or the empty string. *)
Theorem absent_optional_fields_hash_as_empty :
  (∀ items,
     calls (calculate_datahash (PList (with_empty_fields <$> items)))
     = calls (calculate_datahash (PList items))
     ∧ hash_str_of (calculate_datahash (PList (with_empty_fields <$> items)))
       = hash_str_of (calculate_datahash (PList items)))
  ∧ (∀ input_json_params nonce,
       __calculate_hash_on_concatenated_string
         (with_default "workloadId" input_json_params) nonce
       = __calculate_hash_on_concatenated_string input_json_params nonce).
Proof.
  split.
  - intros items.
    rewrite (calculate_datahash_fmap with_empty_fields)
      by auto using getitem_index_with_empty_fields,
                    item_concat_string_with_empty_fields.
    unfold hash_str_of, calls, outcome.
    destruct (calculate_datahash (PList items)) as [t [[sorted h]|e]];
      [|done].
    simpl. destruct sorted; simpl; by rewrite app_nil_r.
  - intros p nonce. unfold __calculate_hash_on_concatenated_string.
    by rewrite optional_field_with_default, !getitem_with_default.
Qed.

End AbsentFields.

(** * Field boundaries and index errors *)

Section Boundaries.
Context `{cap : Capability}.

(** X5.  The header hash is taken over the plain concatenation of the nonce,
    [workOrderId], [workerId], [workloadId] and [requesterId], with nothing
    between them: two headers whose fields are split differently but
    concatenate to the same bytes get the same hash, by the same call. *)
Theorem header_hash_ignores_field_boundaries (d d' : gmap string pyval)
    (nonce nonce' : bytes) :
  wf_header d = true →
  wf_header d' = true →
  header_bytes d nonce = header_bytes d' nonce' →
  __calculate_hash_on_concatenated_string (PDict d) nonce
  = __calculate_hash_on_concatenated_string (PDict d') nonce'.
Proof.
  intros Hd Hd' Heq. rewrite !header_hash_wf by done.
  fold (header_bytes d nonce) (header_bytes d' nonce'). by rewrite Heq.
Qed.

Lemma index_keys_missing (items : list pyval) :
  forallb is_pdict items = true →
  Exists (λ it, index_value it = None) items →
  map_M (λ x, getitem x "index") items = ([], Raise (KeyError "index")).
Proof.
  induction items as [|x items IH]; intros Hd Hex.
  - by apply Exists_nil in Hex.
  - cbn [forallb] in Hd. apply andb_prop in Hd as [Hx Hd].
    destruct x as [| | | | |o]; try done. cbn [map_M getitem].
    destruct (o !! "index") as [v|] eqn:Hv; [|done].
    apply Exists_cons in Hex as [Hex|Hex]; [simpl in Hex; congruence|].
    rewrite bind_ret_l, (IH Hd Hex). done.
Qed.

(** X6.  [calculate_datahash] reads every ['index'] and sorts before it
    hashes anything.  On a list of mappings one of which has no [index] it
    raises [KeyError('index')], and on a list in which one index is an integer
    and another one a string it raises [TypeError]; in both cases no hashing
    call has been made. *)
Theorem calculate_datahash_checks_index_first (items : list pyval) :
  (forallb is_pdict items = true →
   Exists (λ it, index_value it = None) items →
   calculate_datahash (PList items) = ([], Raise (KeyError "index")))
  ∧ (∀ keys z s,
       Forall2 (λ it k, index_value it = Some k) items keys →
       PInt z ∈ keys → PStr s ∈ keys →
       calculate_datahash (PList items) = ([], Raise TypeError)).
Proof.
  unfold calculate_datahash, sort_by_index. split.
  - intros Hd Hex. by rewrite (index_keys_missing _ Hd Hex).
  - intros keys z s Hkeys Hz Hs.
    rewrite (index_keys_ok _ _ Hkeys), bind_ret_l.
    unfold sort_by_keys.
    assert (Hlen : (length items <=? 1)%nat = false).
    { apply Nat.leb_gt. rewrite (Forall2_length _ _ _ Hkeys).
      destruct keys as [|k1 [|k2 keys]]; simpl; [|  |lia].
      - by apply elem_of_nil in Hz.
      - apply list_elem_of_singleton in Hz, Hs. congruence. }
    rewrite Hlen.
    assert (Hint : mapM int_key keys = None).
    { destruct (mapM int_key keys) as [zs|] eqn:Hm; [|done].
      apply mapM_Some_1 in Hm.
      apply list_elem_of_lookup_1 in Hs as [i Hi].
      destruct (Forall2_lookup_l _ _ _ _ _ Hm Hi) as (? & _ & ?); done. }
    assert (Hstr : mapM str_key keys = None).
    { destruct (mapM str_key keys) as [ss|] eqn:Hm; [|done].
      apply mapM_Some_1 in Hm.
      apply list_elem_of_lookup_1 in Hz as [i Hi].
      destruct (Forall2_lookup_l _ _ _ _ _ Hm Hi) as (? & _ & ?); done. }
    rewrite Hint, Hstr.
    assert (Hlist : forallb is_plist keys = false).
    { apply not_true_is_false. intros Hall.
      apply forallb_Forall_true in Hall.
      rewrite Forall_forall in Hall. by specialize (Hall _ Hz). }
    by rewrite Hlist.
Qed.

End Boundaries.

(** * What a verification accepts *)

Lemma outcome_bind {A B} (m : M A) (f : A → M B) :
  outcome (bind m f)
  = match outcome m with
    | Ok a => outcome (f a)
    | Raise e => Raise e
    end.
Proof. destruct m as [t [a|e]]; simpl; [|done]. by destruct (f a). Qed.

Lemma outcome_try_except {A} (m : M A) (h : exn → M A) :
  outcome (try_except m h)
  = match outcome m with
    | Ok a => Ok a
    | Raise e => outcome (h e)
    end.
Proof. destruct m as [t [a|e]]; simpl; [done|]. by destruct (h e). Qed.

Lemma outcome_bind_Ok {A B} (m : M A) (f : A → M B) (b : B) :
  outcome (bind m f) = Ok b → ∃ a, outcome m = Ok a ∧ outcome (f a) = Ok b.
Proof.
  rewrite outcome_bind. destruct (outcome m) as [a|e]; [|done]. by exists a.
Qed.

Lemma hashable_item_concat (d : gmap string pyval) :
  hashable_item (PDict d) = true →
  item_concat_string (PDict d) = ret (item_bytes d).
Proof.
  cbn [hashable_item]. rewrite !andb_true_iff. intros [[[Hdata H1] H2] H3].
  apply required_str_lookup in Hdata as [data Hdata].
  rewrite (item_concat_string_fields d data) by done.
  unfold item_bytes. by rewrite (required_str_field_bytes _ _ _ Hdata).
Qed.

Lemma optional_field_inv (d : gmap string pyval) (k : string) t (b : bytes) :
  optional_field (PDict d) k = (t, Ok b) → optional_str d k = true.
Proof.
  unfold optional_field, optional_str. cbn [contains getitem].
  rewrite bind_ret_l.
  destruct (d !! k) as [v|] eqn:Hk.
  - rewrite bool_decide_eq_true_2 by done. rewrite bind_ret_l.
    by destruct v.
  - done.
Qed.

Lemma item_concat_string_inv (item : pyval) t (b : bytes) :
  item_concat_string item = (t, Ok b) → hashable_item item = true.
Proof.
  unfold item_concat_string. intros H.
  apply bind_Ok_inv in H as (t1 & b1 & ? & H1 & H & _).
  apply bind_Ok_inv in H as (t2 & v & ? & Hd & H & _).
  apply bind_Ok_inv in H as (t3 & b2 & ? & He & H & _).
  apply bind_Ok_inv in H as (t4 & b3 & ? & H2 & H & _).
  apply bind_Ok_inv in H as (t5 & b4 & ? & H3 & H & _).
  destruct item as [| | | | |d]; try done.
  apply optional_field_inv in H1, H2, H3.
  cbn [hashable_item]. rewrite H1, H2, H3, !andb_true_r.
  unfold required_str. cbn [getitem] in Hd.
  destruct (d !! "data") as [v'|]; [|done].
  injection Hd as _ ->. by destruct v.
Qed.

Section Accepting.
Context `{cap : Capability}.

Lemma item_digest_hashable (item : pyval) :
  hashable_item item = true →
  ∃ c, item_digest item = ([Call_compute_message_hash c], Ok (item_text item)).
Proof.
  destruct item as [| | | | |d]; try done. intros Hd.
  exists (item_bytes d). unfold item_digest.
  by rewrite (hashable_item_concat d Hd).
Qed.

Lemma item_digest_inv (item : pyval) t (h : string) :
  item_digest item = (t, Ok h) → hashable_item item = true.
Proof.
  unfold item_digest. intros H.
  apply bind_Ok_inv in H as (t1 & b1 & ? & H1 & _).
  by eapply item_concat_string_inv.
Qed.

Lemma map_M_item_digest_hashable (items : list pyval) :
  forallb hashable_item items = true →
  ∃ t, map_M item_digest items = (t, Ok (item_text <$> items)).
Proof.
  induction items as [|it items IH]; intros H.
  - by exists [].
  - cbn [forallb] in H. apply andb_prop in H as [Hit H].
    destruct (item_digest_hashable it Hit) as [c Hc].
    destruct (IH H) as [t Ht].
    exists ([Call_compute_message_hash c] ++ t).
    cbn [map_M]. rewrite Hc, Ht. simpl. by rewrite app_nil_r.
Qed.

Lemma map_M_item_digest_inv (items : list pyval) t (ds : list string) :
  map_M item_digest items = (t, Ok ds) →
  forallb hashable_item items = true.
Proof.
  revert t ds. induction items as [|it items IH]; intros t ds H; [done|].
  cbn [map_M] in H.
  apply bind_Ok_inv in H as (t1 & h & ? & H1 & H & _).
  apply bind_Ok_inv in H as (t2 & hs & ? & H2 & _).
  cbn [forallb]. by rewrite (item_digest_inv _ _ _ H1), (IH _ _ H2).
Qed.

Lemma forallb_hashable_perm (l l' : list pyval) :
  l ≡ₚ l' → forallb hashable_item l = forallb hashable_item l'.
Proof.
  intros Hp. apply eq_true_iff_eq.
  rewrite <- !Is_true_true, !forallb_True. by rewrite Hp.
Qed.

(** The outcome of [calculate_datahash] on a list *)
Lemma calculate_datahash_outcome (items : list pyval) :
  outcome (calculate_datahash (PList items))
  = match outcome (sort_by_index (PList items)) with
    | Ok sorted =>
        match outcome (map_M item_digest sorted) with
        | Ok ds => Ok (PList sorted, concat_str ds)
        | Raise e => Raise e
        end
    | Raise e => Raise e
    end.
Proof.
  rewrite calculate_datahash_digest_chain. unfold digest_chain.
  rewrite outcome_bind. destruct (outcome (sort_by_index _)); [|done].
  rewrite outcome_bind. by destruct (outcome (map_M _ _)).
Qed.

Lemma calculate_datahash_Ok_iff (items sorted : list pyval) (h : string) :
  outcome (calculate_datahash (PList items)) = Ok (PList sorted, h)
  ↔ outcome (sort_by_index (PList items)) = Ok sorted
    ∧ forallb hashable_item items = true
    ∧ h = chain_text sorted.
Proof.
  rewrite calculate_datahash_outcome.
  destruct (sort_by_index (PList items)) as [t [sorted'|e]] eqn:Hsort;
    cbn [outcome snd]; [|split; [done|by intros [? _]]].
  destruct (sort_by_index_facts _ _ _ Hsort) as (_ & Hperm & _).
  rewrite <- (forallb_hashable_perm _ _ Hperm).
  destruct (map_M item_digest sorted') as [t' [ds|e]] eqn:Hds; cbn [snd].
  - pose proof (map_M_item_digest_inv _ _ _ Hds) as Hh.
    destruct (map_M_item_digest_hashable _ Hh) as [t'' Ht''].
    rewrite Ht'' in Hds. injection Hds as _ <-.
    unfold chain_text. split; [by intros [= -> <-]|].
    by intros ([= ->] & _ & ->).
  - split; [done|]. intros ([= <-] & Hh & _).
    destruct (map_M_item_digest_hashable _ Hh) as [t'' Ht''].
    by rewrite Ht'' in Hds.
Qed.

Lemma header_hash_inv (d : gmap string pyval) (nonce : bytes) t (h : string) :
  __calculate_hash_on_concatenated_string (PDict d) nonce = (t, Ok h) →
  wf_header d = true.
Proof.
  unfold __calculate_hash_on_concatenated_string. intros H.
  apply bind_Ok_inv in H as (? & v1 & ? & H1 & H & _).
  apply bind_Ok_inv in H as (? & b1 & ? & E1 & H & _).
  apply bind_Ok_inv in H as (? & v2 & ? & H2 & H & _).
  apply bind_Ok_inv in H as (? & b2 & ? & E2 & H & _).
  apply bind_Ok_inv in H as (? & b3 & ? & H3 & H & _).
  apply bind_Ok_inv in H as (? & v4 & ? & H4 & H & _).
  apply bind_Ok_inv in H as (? & b4 & ? & E4 & H & _).
  apply optional_field_inv in H3.
  unfold wf_header, required_str. rewrite H3. cbn [getitem] in H1, H2, H4.
  destruct (d !! "workOrderId") as [w1|]; [|done].
  destruct (d !! "workerId") as [w2|]; [|done].
  destruct (d !! "requesterId") as [w4|]; [|done].
  injection H1 as _ ->. injection H2 as _ ->. injection H4 as _ ->.
  by destruct v1, v2, v4.
Qed.

Lemma header_hash_outcome (d : gmap string pyval) (nonce : bytes) :
  outcome (__calculate_hash_on_concatenated_string (PDict d) nonce)
  = Ok (header_text d nonce) ↔ wf_header d = true.
Proof.
  split.
  - destruct (__calculate_hash_on_concatenated_string _ _) as [t [h|e]] eqn:H;
      [|done].
    intros _. by eapply header_hash_inv.
  - intros Hwf. by rewrite header_hash_wf.
Qed.

Lemma verify_with_key_passed (key sig : pyval) (digest : bytes) :
  outcome (verify_with_key (from_pem_value key) sig digest) = Ok (Some PASSED)
  ↔ accepts key sig digest.
Proof.
  unfold verify_with_key, accepts.
  rewrite outcome_bind, outcome_try_except, outcome_bind.
  destruct key as [| | |k| |]; cbn [from_pem_value outcome raise snd];
    try by (split; [done|intros (? & ? & ? & ? & ? & _); done]).
  unfold from_pem. rewrite outcome_bind. cbn [emit outcome snd].
  unfold external.
  destruct (ecdsa_from_pem (encode_utf8 k)) as [msg|vk] eqn:Hpem;
    cbn [outcome raise ret snd].
  { split; [done|]. intros (? & ? & ? & ? & [= <-] & ? & _). congruence. }
  rewrite outcome_bind.
  destruct sig as [| | |s| |]; cbn [base64_to_byte_array outcome raise snd];
    try by (split; [done|intros (? & ? & ? & ? & ? & ? & ? & _); done]).
  unfold external.
  destruct (cu_base64_to_byte_array s) as [msg|sg] eqn:Hsg;
    cbn [outcome raise ret snd].
  { split; [done|]. intros (? & ? & ? & ? & _ & _ & [= <-] & ? & _).
    congruence. }
  rewrite outcome_try_except, outcome_bind, verify_digest_run.
  cbn [outcome snd].
  destruct (ecdsa_verify_digest vk sg digest) as [msg|[|]] eqn:Hv;
    cbn [outcome ret snd].
  - split.
    + by destruct (is_substring _ _).
    + intros (? & ? & ? & ? & [= <-] & ? & [= <-] & ? & ?). congruence.
  - split; [|done]. intros _. by exists k, vk, s, sg.
  - split; [done|].
    intros (? & ? & ? & ? & [= <-] & ? & [= <-] & ? & ?). congruence.
Qed.

Lemma response_signature_outcome (d : gmap string pyval) (key : pyval)
    (n : string) (sig : pyval) (sorted : list pyval) :
  hashed_response d n sig sorted →
  outcome (_verify_wo_response_signature (PDict d) key)
  = outcome (verify_with_key (from_pem_value key) sig
               (signed_digest d n sorted)).
Proof.
  intros (Hn & Hsig & Hhdr & items & Ho & Hh & Hs).
  unfold _verify_wo_response_signature. cbn [getitem].
  rewrite Hn, Hsig, Ho. rewrite !bind_ret_l. cbn [encode].
  rewrite !bind_ret_l. rewrite outcome_bind.
  rewrite (proj2 (header_hash_outcome d (encode_utf8 n)) Hhdr).
  rewrite bind_ret_l, outcome_bind.
  rewrite (proj2 (calculate_datahash_Ok_iff items sorted (chain_text sorted)))
    by done.
  unfold compute_message_hash. by rewrite !outcome_bind.
Qed.

Lemma response_signature_hashed (d : gmap string pyval) (key : pyval)
    (status : option SignatureStatus) :
  outcome (_verify_wo_response_signature (PDict d) key) = Ok status →
  ∃ n sig sorted, hashed_response d n sig sorted.
Proof.
  unfold _verify_wo_response_signature. intros H.
  apply outcome_bind_Ok in H as (wn & Hwn & H).
  apply outcome_bind_Ok in H as (nb & Hnb & H).
  apply outcome_bind_Ok in H as (sig & Hsig & H).
  apply outcome_bind_Ok in H as (h1 & Hh1 & H).
  apply outcome_bind_Ok in H as (o & Ho & H).
  apply outcome_bind_Ok in H as ([srt h2] & Hdh & H).
  destruct wn as [| | |n| |]; try done.
  cbn [getitem] in Hwn, Hsig, Ho.
  destruct (d !! "workerNonce") as [?|] eqn:E1; [|done].
  destruct (d !! "workerSignature") as [?|] eqn:E2; [|done].
  destruct (d !! "outData") as [?|] eqn:E3; [|done].
  cbn [outcome ret snd] in Hwn, Hsig, Ho.
  injection Hwn as ->. injection Hsig as ->. injection Ho as ->.
  destruct (__calculate_hash_on_concatenated_string _ _) as [t [h|e]] eqn:Hh;
    [|done].
  apply header_hash_inv in Hh.
  destruct o as [| | | |items|]; try done.
  assert (∃ sorted, srt = PList sorted) as [sorted ->].
  { rewrite calculate_datahash_outcome in Hdh.
    destruct (outcome (sort_by_index _)); [|done].
    destruct (outcome (map_M _ _)); [|done].
    injection Hdh as <- _. by eexists. }
  apply calculate_datahash_Ok_iff in Hdh as (Hs & Hhash & ->).
  exists n, sig, sorted. split_and!; try done. by exists items.
Qed.

Lemma hashed_response_unique (d : gmap string pyval) (n n' : string)
    (sig sig' : pyval) (sorted sorted' : list pyval) :
  hashed_response d n sig sorted → hashed_response d n' sig' sorted' →
  n = n' ∧ sig = sig' ∧ sorted = sorted'.
Proof.
  intros (Hn & Hsig & _ & items & Ho & _ & Hs)
         (Hn' & Hsig' & _ & items' & Ho' & _ & Hs').
  rewrite Hn in Hn'. rewrite Hsig in Hsig'. rewrite Ho in Ho'.
  injection Hn' as <-. injection Hsig' as <-. injection Ho' as <-.
  rewrite Hs in Hs'. by injection Hs' as <-.
Qed.

Lemma response_signature_passed (d : gmap string pyval) (key : pyval) :
  outcome (_verify_wo_response_signature (PDict d) key) = Ok (Some PASSED)
  ↔ response_accepted d key.
Proof.
  unfold response_accepted. split.
  - intros H. destruct (response_signature_hashed _ _ _ H)
      as (n & sig & sorted & Hd).
    rewrite (response_signature_outcome d key n sig sorted Hd) in H.
    apply verify_with_key_passed in H. by exists n, sig, sorted.
  - intros (n & sig & sorted & Hd & Hacc).
    rewrite (response_signature_outcome d key n sig sorted Hd).
    by apply verify_with_key_passed.
Qed.

Lemma key_signature_passed (d : gmap string pyval) (key nonce : pyval) :
  outcome (_verify_wo_verification_key_signature (PDict d) key nonce)
  = Ok (Some PASSED)
  ↔ assertion_accepted d key nonce.
Proof.
  unfold assertion_accepted. split.
  - unfold _verify_wo_verification_key_signature. intros H.
    assert (nonce ≠ PNone) as Hnonce by (by intros ->).
    assert (outcome
              (let* ek := getitem (PDict d) "extVerificationKey" in
               let* concat_string := add ek nonce in
               let* v_key_sig :=
                 getitem (PDict d) "extVerificationKeySignature" in
               let* concat_bytes := bytes_of_str concat_string in
               let* v_key_hash := compute_message_hash concat_bytes in
               verify_with_key (from_pem_value key) v_key_sig v_key_hash)
            = Ok (Some PASSED)) as H' by (by destruct nonce).
    clear H.
    apply outcome_bind_Ok in H' as (ekv & Hek & H).
    apply outcome_bind_Ok in H as (c & Hc & H).
    apply outcome_bind_Ok in H as (sig & Hsig & H).
    apply outcome_bind_Ok in H as (cb & Hcb & H).
    apply outcome_bind_Ok in H as (h & Hh & H).
    destruct c as [| | |cs| |]; try done.
    destruct ekv as [| |?|ek|?|], nonce as [| |?|n|?|]; try done.
    cbn [add bytes_of_str outcome ret snd] in Hc, Hcb.
    injection Hc as <-. injection Hcb as <-.
    unfold compute_message_hash in Hh. rewrite outcome_bind in Hh.
    cbn [emit outcome ret snd] in Hh. injection Hh as <-.
    apply verify_with_key_passed in H.
    cbn [getitem] in Hek, Hsig.
    destruct (d !! "extVerificationKey") as [?|]; [|done].
    destruct (d !! "extVerificationKeySignature") as [?|]; [|done].
    cbn [outcome ret snd] in Hek, Hsig.
    injection Hek as ->. injection Hsig as ->. by exists ek, n, sig.
  - intros (ek & n & sig & Hek & -> & Hsig & Hacc).
    rewrite (key_signature_first_step d key ek n sig Hek Hsig).
    unfold compute_message_hash. rewrite !outcome_bind.
    cbn [emit outcome ret snd]. by apply verify_with_key_passed.
Qed.

(** X7.  [verify_signature] answers PASSED exactly when the capability
    accepts the signatures.  For a response without [extVerificationKey] it
    answers PASSED if and only if the supplied key parses, [workerSignature]
    decodes, and [verify_digest] answers [True] for the hash of the header
    text followed by the digest chain of [outData] in sorted order.  For a
    response with [extVerificationKey] it answers PASSED if and only if, in
    addition to that (with [extVerificationKey] as the key), the supplied key
    parses, [extVerificationKeySignature] decodes and [verify_digest] answers
    [True] for the hash of [extVerificationKey] followed by the requester's
    nonce. *)
Theorem verify_signature_passed_iff (d : gmap string pyval)
    (key requester_nonce : pyval) :
  outcome (verify_signature (PDict d) key requester_nonce) = Ok (Some PASSED)
  ↔ match d !! "extVerificationKey" with
    | None => response_accepted d key
    | Some ek =>
        assertion_accepted d key requester_nonce ∧ response_accepted d ek
    end.
Proof.
  unfold verify_signature. rewrite outcome_bind.
  cbn [contains outcome ret snd].
  destruct (d !! "extVerificationKey") as [ek|] eqn:Hek.
  - rewrite bool_decide_eq_true_2 by done. rewrite outcome_bind.
    rewrite <- key_signature_passed, <- response_signature_passed.
    destruct (outcome (_verify_wo_verification_key_signature _ _ _))
      as [status|e]; [|split; [done|by intros [? _]]].
    destruct (decide (status = Some PASSED)) as [->|Hne].
    + rewrite bool_decide_eq_true_2 by done. rewrite outcome_bind.
      cbn [getitem]. rewrite Hek. cbn [outcome ret snd].
      split; [by intros ?|by intros [_ ?]].
    + rewrite bool_decide_eq_false_2 by done. cbn [outcome ret snd].
      split; [by intros [= ->]|by intros [[= ->] _]].
  - rewrite bool_decide_eq_false_2 by (by intros [? ?]).
    apply response_signature_passed.
Qed.

Lemma verify_signature_one_step (d : gmap string pyval)
    (key requester_nonce : pyval) :
  d !! "extVerificationKey" = None →
  verify_signature (PDict d) key requester_nonce
  = _verify_wo_response_signature (PDict d) key.
Proof.
  intros Hek. unfold verify_signature. cbn [contains].
  rewrite Hek, bool_decide_eq_false_2 by (by intros [? ?]).
  by rewrite bind_ret_l.
Qed.

(** X8.  The verification key is examined before the signature.  For a
    response without [extVerificationKey] whose hashed fields can be read:
    when the supplied key is not a string that [from_pem] accepts, the answer
    is INVALID_VERIFICATION_KEY whatever [workerSignature] holds; when the key
    parses and [workerSignature] is text that the base64 decoder refuses, the
    decoder's exception leaves [verify_signature], since the decoding is
    outside both [try] blocks. *)
Theorem verification_examines_key_first (d : gmap string pyval)
    (key requester_nonce : pyval) (n : string) (sig : pyval)
    (sorted : list pyval) :
  d !! "extVerificationKey" = None →
  hashed_response d n sig sorted →
  ((∀ k, key = PStr k → ∃ msg, ecdsa_from_pem (encode_utf8 k) = inl msg) →
   outcome (verify_signature (PDict d) key requester_nonce)
   = Ok (Some INVALID_VERIFICATION_KEY))
  ∧ (∀ k vk s msg,
       key = PStr k →
       ecdsa_from_pem (encode_utf8 k) = inr vk →
       sig = PStr s →
       cu_base64_to_byte_array s = inl msg →
       outcome (verify_signature (PDict d) key requester_nonce)
       = Raise (ExternalError msg)).
Proof.
  intros Hek Hd. rewrite (verify_signature_one_step d key _ Hek).
  rewrite (response_signature_outcome d key n sig sorted Hd).
  unfold verify_with_key.
  rewrite outcome_bind, outcome_try_except, outcome_bind. split.
  - intros Hkey. destruct key as [| | |k| |]; try done.
    destruct (Hkey k eq_refl) as [msg Hmsg].
    cbn [from_pem_value]. unfold from_pem. rewrite outcome_bind.
    by rewrite Hmsg.
  - intros k vk s msg -> Hvk -> Hs.
    cbn [from_pem_value]. unfold from_pem. rewrite outcome_bind.
    rewrite Hvk. cbn [emit external outcome ret snd].
    rewrite outcome_bind. cbn [base64_to_byte_array]. by rewrite Hs.
Qed.

(** X9.  How the answer of [verify_digest] becomes the status.  For a
    response without [extVerificationKey] whose hashed fields can be read,
    whose key parses and whose signature text decodes: [True] gives PASSED; an
    exception whose text contains "Malformed formatting of signature" gives
    INVALID_SIGNATURE_FORMAT and any other exception gives FAILED; and the
    answer [False] makes the function fall off its end, so that it returns
    [None] and not a status. *)
Theorem verification_status_of_answer (d : gmap string pyval)
    (requester_nonce : pyval) (n s k : string) (sorted : list pyval)
    (vk : verifying_key) (sg : bytes) :
  d !! "extVerificationKey" = None →
  hashed_response d n (PStr s) sorted →
  ecdsa_from_pem (encode_utf8 k) = inr vk →
  cu_base64_to_byte_array s = inr sg →
  outcome (verify_signature (PDict d) (PStr k) requester_nonce)
  = match ecdsa_verify_digest vk sg (signed_digest d n sorted) with
    | inr true => Ok (Some PASSED)
    | inr false => Ok None
    | inl msg =>
        Ok (Some (if is_substring "Malformed formatting of signature" msg
                  then INVALID_SIGNATURE_FORMAT else FAILED))
    end.
Proof.
  intros Hek Hd Hvk Hsg. rewrite (verify_signature_one_step d _ _ Hek).
  rewrite (response_signature_outcome d _ n (PStr s) sorted Hd).
  unfold verify_with_key.
  rewrite outcome_bind, outcome_try_except, outcome_bind.
  cbn [from_pem_value]. unfold from_pem. rewrite outcome_bind.
  rewrite Hvk. cbn [emit external outcome ret snd].
  rewrite outcome_bind. cbn [base64_to_byte_array]. rewrite Hsg.
  cbn [external outcome ret snd].
  rewrite outcome_try_except, outcome_bind, verify_digest_run.
  cbn [outcome snd].
  destruct (ecdsa_verify_digest vk sg _) as [msg|[|]]; try done.
  cbn [exn_text]. by destruct (is_substring _ msg).
Qed.

End Accepting.

(** * Receipts *)

Section Receipts.
Context `{cap : Capability}.

(** X10.  The receipt functions hash [updateType] and [receiptCreateStatus]
    through [str]: a receipt that gives the field as an integer, a boolean or
    null is verified exactly as the receipt that gives the same field as the
    text [str] produces for it. *)
Theorem receipt_status_is_hashed_as_text (d : gmap string pyval) (v : pyval)
    (s : string) :
  str v = ret (PStr s) →
  verify_update_receipt_signature (PDict (<["updateType" := v]> d))
  = verify_update_receipt_signature (PDict (<["updateType" := PStr s]> d))
  ∧ ∀ top,
      verify_create_receipt_signature
        (PDict (<["params" := PDict (<["receiptCreateStatus" := v]> d)]> top))
      = verify_create_receipt_signature
          (PDict (<["params" :=
                      PDict (<["receiptCreateStatus" := PStr s]> d)]> top)).
Proof.
  intros Hstr. split.
  - unfold verify_update_receipt_signature. cbn [getitem].
    rewrite !lookup_insert_eq, !lookup_insert_ne by done.
    apply bind_ext; intros a. rewrite !bind_ret_l, Hstr. by cbn [str].
  - intros top. unfold verify_create_receipt_signature. cbn [getitem].
    rewrite !lookup_insert_eq, !bind_ret_l. cbn [getitem].
    rewrite !lookup_insert_eq, !lookup_insert_ne by done.
    apply bind_ext; intros a. apply bind_ext; intros b.
    apply bind_ext; intros ab. apply bind_ext; intros c.
    apply bind_ext; intros abc. apply bind_ext; intros e.
    apply bind_ext; intros abce. rewrite !bind_ret_l, Hstr. by cbn [str].
Qed.

(** X11.  The receipt functions encode [receiptVerificationKey] as ASCII
    outside their [try] blocks.  For an update receipt whose other fields can
    be read, a key text with a character outside ASCII makes
    [verify_update_receipt_signature] raise [UnicodeEncodeError]; the key is
    never handed to [from_pem] and the answer is not
    INVALID_VERIFICATION_KEY. *)
Theorem receipt_key_outside_ascii_raises (d : gmap string pyval) (k : string) :
  required_str d "workOrderId" = true →
  printable_field d "updateType" = true →
  required_str d "updateData" = true →
  is_Some (d !! "updateSignature") →
  d !! "receiptVerificationKey" = Some (PStr k) →
  forallb is_ascii (String.list_ascii_of_string k) = false →
  outcome (verify_update_receipt_signature (PDict d)) = Raise UnicodeEncodeError
  ∧ ∀ pem, Call_from_pem pem ∉ calls (verify_update_receipt_signature (PDict d)).
Proof.
  intros Hw Hu Hdata [sig Hsig] Hk Hascii.
  apply required_str_lookup in Hw as [w Hw].
  apply required_str_lookup in Hdata as [u Hdata].
  apply printable_lookup in Hu as (v & vs & Hv & Hvs).
  unfold verify_update_receipt_signature. cbn [getitem].
  rewrite Hw, Hv, Hdata, Hsig, Hk, !bind_ret_l, Hvs, !bind_ret_l.
  cbn [add]. rewrite !bind_ret_l. cbn [add bytes_of_str].
  cbn [bytes_of_str]. rewrite !bind_ret_l.
  unfold compute_message_hash, emit.
  cbn [bind ret encode_ascii]. rewrite Hascii.
  cbn [bind raise ret outcome calls fst snd app]. split; [done|].
  intros pem Hin. apply list_elem_of_singleton in Hin. done.
Qed.

End Receipts.

(** * Runs of the orchestrator *)

Lemma for_each_invariant {A S} (P : S → Prop) (step : S → A → M S)
    (l : list A) (s : S) t (s' : S) :
  (∀ s x t s', P s → step s x = (t, Ok s') → P s') →
  P s → for_each step s l = (t, Ok s') → P s'.
Proof.
  intros Hstep. revert s t. induction l as [|x l IH]; intros s t Hs Hrun.
  - cbn [for_each] in Hrun. unfold ret in Hrun. by simplify_eq.
  - cbn [for_each] in Hrun.
    apply bind_Ok_inv in Hrun as (t1 & s1 & t2 & H1 & H2 & _).
    eapply IH; [|exact H2]. by eapply Hstep.
Qed.

Lemma contains_run (k : string) (x : pyval) t (b : bool) :
  contains k x = (t, Ok b) → t = [].
Proof. destruct x; simpl; unfold ret; intros; by simplify_eq. Qed.

Lemma getitem_run (x : pyval) (k : string) t (v : pyval) :
  getitem x k = (t, Ok v) → t = [] ∧ ∃ d, x = PDict d ∧ d !! k = Some v.
Proof.
  destruct x as [| | | | |d]; try done. cbn [getitem].
  destruct (d !! k) as [v'|] eqn:Hk; [|done].
  unfold ret. intros. simplify_eq. split; [done|]. by exists d.
Qed.

Lemma setitem_run (x : pyval) (k : string) (v : pyval) t (x' : pyval) :
  setitem x k v = (t, Ok x') →
  t = [] ∧ ∃ d, x = PDict d ∧ x' = PDict (<[k := v]> d).
Proof.
  destruct x as [| | | | |d]; try done. cbn [setitem]. unfold ret.
  intros. simplify_eq. split; [done|]. by exists d.
Qed.

Lemma encode_run (x : pyval) t (b : bytes) :
  encode x = (t, Ok b) → t = [] ∧ ∃ s, x = PStr s ∧ b = encode_utf8 s.
Proof.
  destruct x as [| | |s| |]; try done. cbn [encode]. unfold ret.
  intros. simplify_eq. split; [done|]. by exists s.
Qed.

Lemma agree_off_refl (ks : list string) (d : gmap string pyval) :
  agree_off ks d d.
Proof. by intros k _. Qed.

Lemma agree_off_insert (ks : list string) (d d' : gmap string pyval)
    (k : string) (v : pyval) :
  k ∈ ks → agree_off ks d d' → agree_off ks d (<[k := v]> d').
Proof.
  intros Hk Hd k' Hk'. rewrite lookup_insert_ne; [by apply Hd|].
  intros ->. done.
Qed.

Lemma agree_off_weaken (ks ks' : list string) (d d' : gmap string pyval) :
  ks ⊆ ks' → agree_off ks d d' → agree_off ks' d d'.
Proof. intros Hsub Hd k Hk. apply Hd. intros Hin. by apply Hk, Hsub. Qed.

Lemma agree_off_trans (ks : list string) (d1 d2 d3 : gmap string pyval) :
  agree_off ks d1 d2 → agree_off ks d2 d3 → agree_off ks d1 d3.
Proof. intros H1 H2 k Hk. by rewrite H2, H1. Qed.

Section Runs.
Context `{cap : Capability}.

Lemma set_indata_data_keeps (d : gmap string pyval) (i : nat) (v : pyval) t
    (p' : pyval) :
  set_indata_data (PDict d) i v = (t, Ok p') →
  ∃ d', p' = PDict d' ∧ agree_off ["inData"] d d'.
Proof.
  unfold set_indata_data. intros H.
  apply bind_Ok_inv in H as (ta & indata & tb & _ & H & _).
  destruct indata as [| | | |items|]; try done.
  destruct (items !! i) as [item|]; [|done].
  apply bind_Ok_inv in H as (tc & item' & td & _ & H & _).
  apply setitem_run in H as (_ & d0 & [= <-] & ->).
  eexists. split; [done|].
  apply agree_off_insert; [listed|apply agree_off_refl].
Qed.

Lemma encrypt_workorder_indata_keeps (p : pyval) (sk siv : bytes)
    (wek : string) (dk div : option bytes) t (p' : pyval) :
  __encrypt_workorder_indata p sk siv wek dk div = (t, Ok p') →
  ∃ d d', p = PDict d ∧ p' = PDict d' ∧ agree_off ["inData"] d d'.
Proof.
  unfold __encrypt_workorder_indata. intros H.
  apply bind_Ok_inv in H as (? & indata & ? & Hin & H & _).
  apply getitem_run in Hin as (_ & d & -> & Hin).
  apply bind_Ok_inv in H as (? & p0 & ? & Hp0 & H & _).
  apply setitem_run in Hp0 as (_ & ? & [= <-] & ->).
  apply bind_Ok_inv in H as (? & items & ? & _ & H & _).
  apply bind_Ok_inv in H as (? & [p1 i] & ? & Hloop & H & _).
  unfold ret in H. simplify_eq.
  exists d.
  assert (∃ d', p' = PDict d' ∧ agree_off ["inData"] d d') as (d' & -> & Hd').
  { eapply (for_each_invariant
              (λ s, ∃ d', s.1 = PDict d' ∧ agree_off ["inData"] d d'))
      in Hloop; [exact Hloop| |].
    - intros [q j] item0 t' [q' j'] (dq & Hq & Hagree) Hstep.
      cbn [fst] in Hq. subst q. unfold encrypt_loop_body in Hstep.
      apply bind_Ok_inv in Hstep as (? & ? & ? & _ & Hstep & _).
      apply bind_Ok_inv in Hstep as (? & ? & ? & _ & Hstep & _).
      apply bind_Ok_inv in Hstep as (? & ? & ? & _ & Hstep & _).
      apply bind_Ok_inv in Hstep as (? & ? & ? & _ & Hstep & _).
      apply bind_Ok_inv in Hstep as (? & ? & ? & _ & Hstep & _).
      apply bind_Ok_inv in Hstep as (? & q1 & ? & Hset & Hstep & _).
      unfold ret in Hstep. simplify_eq.
      apply set_indata_data_keeps in Hset as (d1 & -> & H1).
      exists d1. split; [done|]. by eapply agree_off_trans.
    - eexists. split; [done|].
      apply agree_off_insert; [listed|apply agree_off_refl]. }
  by exists d'.
Qed.

Lemma params_loop_true (p : pyval) (acc : bool) (l : list string) t :
  for_each (λ param_valid param,
      let* present := contains param p in
      ret (if negb present then false else param_valid)) acc l
  = (t, Ok true) →
  acc = true ∧ Forall (λ k, outcome (contains k p) = Ok true) l.
Proof.
  revert acc t. induction l as [|k l IH]; intros acc t H.
  - cbn [for_each] in H. unfold ret in H. by simplify_eq.
  - cbn [for_each] in H.
    apply bind_Ok_inv in H as (ta & acc' & tb & Hk & H & _).
    apply bind_Ok_inv in Hk as (tc & present & td & Hk & Hret & _).
    destruct (IH _ _ H) as [-> Hl].
    unfold ret in Hret. destruct present; cbn [negb] in Hret; simplify_eq.
    split; [done|]. constructor; [|done]. unfold outcome. by rewrite Hk.
Qed.

Lemma payload_check_passed (data : pyval) t :
  __payload_json_check data = (t, Ok true) →
  ∃ top d, data = PDict top ∧ top !! "params" = Some (PDict d)
           ∧ has_params d = true.
Proof.
  unfold __payload_json_check. intros H.
  apply bind_Ok_inv in H as (? & hp & ? & _ & H & _).
  destruct hp; cbn [negb] in H; [|unfold ret in H; by simplify_eq].
  apply bind_Ok_inv in H as (? & data_params & ? & Hparams & H & _).
  apply getitem_run in Hparams as (_ & top & -> & Hparams).
  apply bind_Ok_inv in H as (? & pv & ? & Hloop & H & _).
  destruct pv; [|unfold ret in H; by simplify_eq].
  apply bind_Ok_inv in H as (? & i_obj & ? & Hin & _).
  apply getitem_run in Hin as (_ & d & -> & Hin).
  exists top, d. split_and!; [done..|].
  apply params_loop_true in Hloop as [_ Hloop]. unfold has_params.
  apply Is_true_true, forallb_True. eapply Forall_impl; [exact Hloop|].
  intros k Hk. cbn [contains outcome ret snd] in Hk.
  injection Hk as Hk. by rewrite Hk.
Qed.

Lemma sign_request_returns_text (self self' : ClientSignature)
    (input p : pyval) (k : signing_key) (sk siv : bytes) (esk : string) t
    (out : returned_payload) (st : SignatureStatus) :
  sign_request self input p k sk siv esk = (t, Ok (self', (out, st))) →
  ∃ v, out = JsonText v.
Proof.
  unfold sign_request. intros H. invert_run H; simplify_eq; try done.
  all: unfold ret in H; simplify_eq; by eexists.
Qed.

(** The stages of a run of [generate_client_signature] that returns *)
Lemma generate_client_signature_stages (self self' : ClientSignature)
    (input : pyval) (worker : worker_details) (k : signing_key)
    (sk siv esk : bytes) (dk div : option bytes) t
    (out : returned_payload) (st : SignatureStatus) :
  generate_client_signature self input worker k sk siv esk dk div
  = (t, Ok (self', (out, st))) →
  (out = JsonText input ∧ st = FAILED)
  ∨ (∃ top d dp,
       input = PDict top
       ∧ top !! "params" = Some (PDict d)
       ∧ has_params d = true
       ∧ agree_off ["inData"]
           (<["sessionKeyIv" := PStr (byte_array_to_hex_str siv)]> d) dp
       ∧ ((∃ n, dp !! "requesterNonce" = Some n
                ∧ outcome (len n) ≠ Ok 0%nat
                ∧ hex_is_valid_hex_str n = inr false
                ∧ out = ParamsObject (PDict dp) ∧ st = FAILED ∧ self' = self)
          ∨ (∃ t0 t1 dq,
               t = t0 ++ t1
               ∧ agree_off ["requesterNonce"] dp dq
               ∧ sign_request self input (PDict dq) k sk siv
                   (byte_array_to_hex_str esk)
                 = (t1, Ok (self', (out, st)))))).
Proof.
  unfold generate_client_signature. intros H.
  apply bind_Ok_inv in H as (ta & checked & tb & Hcheck & H & ->).
  destruct checked; cbn [negb] in H; [|left; unfold ret in H; by simplify_eq].
  apply payload_check_passed in Hcheck as (top & d & -> & Hparams & Hd).
  apply bind_Ok_inv in H as (tc & h & td & _ & H & ->).
  destruct (bool_decide (h = hashing_algorithm worker)); cbn [negb] in H;
    [|left; unfold ret in H; by simplify_eq].
  apply bind_Ok_inv in H as (te & sa & tf & _ & H & ->).
  destruct (bool_decide (sa = signing_algorithm worker)); cbn [negb] in H;
    [|left; unfold ret in H; by simplify_eq].
  right. exists top, d.
  cbn [getitem] in H. rewrite Hparams, bind_ret_l in H.
  cbn [setitem] in H. rewrite bind_ret_l in H.
  apply bind_Ok_inv in H as (tg & p & th & Hp & H & ->).
  apply encrypt_workorder_indata_keeps in Hp as (? & dp & [= <-] & -> & Hdp).
  exists dp. split_and!; [done..|].
  cbn [contains] in H. rewrite bind_ret_l in H.
  assert (is_Some (dp !! "requesterNonce")) as [n Hn].
  { rewrite Hdp by not_listed. rewrite lookup_insert_ne by done.
    unfold has_params in Hd. cbn [param_pool forallb] in Hd.
    apply andb_prop in Hd as [Hd _]. by apply bool_decide_eq_true in Hd. }
  rewrite bool_decide_eq_true_2 in H by done.
  cbn [getitem] in H. rewrite Hn, bind_ret_l in H.
  apply bind_Ok_inv in H as (ti & nonce_len & tj & Hlen & H & ->).
  destruct (nonce_len =? 0)%nat eqn:Hzero.
  - right. unfold token_hex in H. rewrite bind_assoc in H.
    apply bind_Ok_inv in H as (tk & u & tl & Hemit & H & ->).
    rewrite bind_ret_l in H. cbn [setitem] in H. rewrite bind_ret_l in H.
    eexists _, tl, _. split_and!; [| |exact H].
    + rewrite !(assoc_L (++)). reflexivity.
    + apply agree_off_insert; [listed|apply agree_off_refl].
  - apply bind_Ok_inv in H as (tk & valid & tl & Hvalid & H & ->).
    unfold is_valid_hex_str, external in Hvalid.
    destruct (hex_is_valid_hex_str n) as [msg|b] eqn:Hhex; [done|].
    unfold ret in Hvalid. simplify_eq.
    destruct valid; cbn [negb] in H.
    + right. eexists _, tl, _. split_and!; [|apply agree_off_refl|exact H].
      rewrite !(assoc_L (++)). reflexivity.
    + left. unfold ret in H. simplify_eq. exists n. split_and!; try done.
      unfold outcome. rewrite Hlen. cbn [snd]. intros [= ->]. done.
Qed.

Lemma calculate_datahash_inv (o v : pyval) t (h : string) :
  calculate_datahash o = (t, Ok (v, h)) →
  ∃ items sorted, o = PList items ∧ v = PList sorted.
Proof.
  unfold calculate_datahash. intros H.
  apply bind_Ok_inv in H as (ta & sorted & tb & Hs & H & _).
  apply bind_Ok_inv in H as (tc & hs & td & _ & H & _).
  unfold ret in H. simplify_eq.
  destruct o as [| | | |items|]; try done. by exists items, sorted.
Qed.

Lemma calculate_datahash_sorted_outcome (items sorted : list pyval)
    (h : string) :
  outcome (calculate_datahash (PList items)) = Ok (PList sorted, h) →
  outcome (calculate_datahash (PList sorted)) = Ok (PList sorted, h).
Proof.
  rewrite !calculate_datahash_Ok_iff. intros (Hs & Hh & ->).
  destruct (sort_by_index (PList items)) as [t [sorted'|e]] eqn:Hsort;
    [|done].
  cbn [outcome snd] in Hs. injection Hs as ->.
  rewrite (sort_by_index_again _ _ _ Hsort).
  destruct (sort_by_index_facts _ _ _ Hsort) as (_ & Hperm & _).
  by rewrite (forallb_hashable_perm _ _ Hperm).
Qed.

Lemma calculate_datahash_empty (t : trace) (h : string) (items : list pyval) :
  calculate_datahash (PList items) = (t, Ok (PList [], h)) →
  h = EmptyString.
Proof.
  unfold calculate_datahash. intros H.
  apply bind_Ok_inv in H as (ta & sorted & tb & Hs & H & _).
  apply bind_Ok_inv in H as (tc & hs & td & Hloop & H & _).
  unfold ret in H. simplify_eq. cbn [for_each] in Hloop.
  unfold ret in Hloop. by simplify_eq.
Qed.

(** A run of [sign_request] that answers PASSED *)
Lemma sign_request_passed (self self' : ClientSignature) (input p : pyval)
    (k : signing_key) (sk siv : bytes) (esk : string) t
    (out : returned_payload) :
  sign_request self input p k sk siv esk = (t, Ok (self', (out, PASSED))) →
  ∃ top d s in_items sorted_in h2 d2 h3 enc pk sg t0,
    let digest :=
      cu_compute_message_hash
        (encode_utf8 (header_text d (encode_utf8 s) +:+ h2 +:+ h3)) in
    input = PDict top ∧ p = PDict d
    ∧ d !! "requesterNonce" = Some (PStr s)
    ∧ wf_header d = true
    ∧ d !! "inData" = Some (PList in_items)
    ∧ outcome (calculate_datahash (PList in_items)) = Ok (PList sorted_in, h2)
    ∧ ((d !! "outData" = None ∧ h3 = EmptyString
        ∧ d2 = <["inData" := PList sorted_in]> d)
       ∨ (∃ out_items sorted_out,
            d !! "outData" = Some (PList out_items)
            ∧ outcome (calculate_datahash (PList out_items))
              = Ok (PList sorted_out, h3)
            ∧ d2 = <["outData" := PList sorted_out]>
                     (<["inData" := PList sorted_in]> d)))
    ∧ cu_encrypt_data digest (Some sk) (Some siv) = inr enc
    ∧ cu_get_verifying_key k = inr pk
    ∧ ecdsa_sign_digest_deterministic k digest = inr sg
    ∧ out = JsonText (PDict (<["params" :=
              PDict (<["verifyingKey" := PStr pk]>
                (<["encryptedSessionKey" := PStr esk]>
                  (<["requesterSignature" :=
                       PStr (cu_byte_array_to_base64 sg)]>
                    (<["encryptedRequestHash" :=
                         PStr (hex_byte_array_to_hex_str enc)]> d2))))]> top))
    ∧ self' = {| private_key := Some k; public_key := Some pk;
                 tcs_worker := tcs_worker self |}
    ∧ t = t0 ++ [Call_get_verifying_key; Call_sign_digest_deterministic digest].
Proof.
  unfold sign_request. intros H.
  apply bind_Ok_inv in H as (? & n & ? & Hn & H & ->).
  apply getitem_run in Hn as (-> & d & -> & Hn).
  apply bind_Ok_inv in H as (? & nonce & ? & Hnonce & H & ->).
  apply encode_run in Hnonce as (-> & s & -> & ->).
  apply bind_Ok_inv in H as (? & h1 & ? & Hh1 & H & ->).
  pose proof (header_hash_inv _ _ _ _ Hh1) as Hhdr.
  rewrite (header_hash_wf d _ Hhdr) in Hh1. injection Hh1 as <- <-.
  apply bind_Ok_inv in H as (? & o & ? & Ho & H & ->).
  apply getitem_run in Ho as (-> & ? & [= <-] & Ho).
  apply bind_Ok_inv in H as (? & [v2 h2] & ? & Hh2 & H & ->).
  destruct (calculate_datahash_inv _ _ _ _ Hh2)
    as (in_items & sorted_in & -> & ->).
  cbn [setitem] in H. rewrite bind_ret_l in H.
  cbn [contains] in H. rewrite bind_ret_l in H.
  rewrite lookup_insert_ne in H by done.
  apply bind_Ok_inv in H as (? & [p2 h3] & ? & Hout & H & ->).
  assert (∃ d2, p2 = PDict d2
    ∧ ((d !! "outData" = None ∧ h3 = EmptyString
        ∧ d2 = <["inData" := PList sorted_in]> d)
       ∨ (∃ out_items sorted_out,
            d !! "outData" = Some (PList out_items)
            ∧ outcome (calculate_datahash (PList out_items))
              = Ok (PList sorted_out, h3)
            ∧ d2 = <["outData" := PList sorted_out]>
                     (<["inData" := PList sorted_in]> d))))
    as (d2 & -> & Hd2).
  { destruct (d !! "outData") as [o|] eqn:Hod.
    - rewrite bool_decide_eq_true_2 in Hout by done.
      cbn [getitem] in Hout. rewrite lookup_insert_ne, Hod in Hout by done.
      rewrite bind_ret_l in Hout.
      apply bind_Ok_inv in Hout as (? & [v3 h3'] & ? & Hh3 & Hout & _).
      destruct (calculate_datahash_inv _ _ _ _ Hh3)
        as (out_items & sorted_out & -> & ->).
      cbn [setitem] in Hout. rewrite bind_ret_l in Hout.
      unfold ret in Hout. simplify_eq.
      eexists. split; [done|]. right. exists out_items, sorted_out.
      split_and!; [done| |done]. unfold outcome. by rewrite Hh3.
    - rewrite bool_decide_eq_false_2 in Hout by (by intros [? ?]).
      unfold ret in Hout. simplify_eq.
      eexists. split; [done|]. by left. }
  unfold compute_message_hash in H at 1. rewrite bind_assoc in H.
  apply bind_Ok_inv in H as (? & u & ? & Hemit & H & ->).
  rewrite bind_ret_l in H.
  apply bind_Ok_inv in H as (? & enc & ? & Henc & H & ->).
  unfold encrypt_data in Henc.
  apply bind_Ok_inv in Henc as (? & u' & ? & _ & Henc & _).
  unfold external in Henc.
  destruct (cu_encrypt_data _ _ _) as [msg|enc'] eqn:Hcipher; [done|].
  unfold ret in Henc. simplify_eq.
  cbn [setitem] in H. rewrite bind_ret_l in H.
  rewrite generate_signature_run in H.
  destruct (cu_get_verifying_key k) as [msg|pk] eqn:Hpk.
  { rewrite bind_ok in H. cbn [negb fst snd ret] in H. by simplify_eq. }
  cbv zeta in H.
  destruct (ecdsa_sign_digest_deterministic k _) as [msg|sg] eqn:Hsg.
  { rewrite bind_ok in H. cbn [negb fst snd ret] in H. by simplify_eq. }
  rewrite bind_ok in H. cbn [negb fst snd public_key_value public_key] in H.
  do 3 (cbn [setitem] in H; rewrite bind_ret_l in H).
  destruct input as [| | | | |top]; try done.
  cbn [setitem] in H. rewrite bind_ret_l in H. cbn [ret fst snd] in H.
  injection H as <- <- <-.
  exists top, d, s, in_items, sorted_in, h2, d2, h3, enc, pk, sg.
  eexists. cbv zeta.
  split_and!; try done.
  - unfold outcome. by rewrite Hh2.
  - rewrite !(assoc_L (++) _ _ [Call_get_verifying_key; _]). reflexivity.
Qed.

End Runs.

(** * The signed request *)

Lemma not_elem_of_weaken {A} (l l' : list A) (x : A) :
  l ⊆ l' → x ∉ l' → x ∉ l.
Proof. intros Hsub Hx Hin. by apply Hx, Hsub. Qed.

Lemma field_bytes_agree (d d' : gmap string pyval) (k : string) :
  d' !! k = d !! k → field_bytes d' k = field_bytes d k.
Proof. unfold field_bytes. by intros ->. Qed.

Lemma wf_header_agree (d d' : gmap string pyval) :
  (∀ k, k ∈ ["workOrderId"; "workerId"; "workloadId"; "requesterId"] →
        d' !! k = d !! k) →
  wf_header d' = wf_header d
  ∧ ∀ nonce, header_bytes d' nonce = header_bytes d nonce.
Proof.
  intros H. unfold wf_header, header_bytes, required_str, optional_str,
    field_bytes.
  rewrite !H by (repeat constructor). done.
Qed.

Section SignedRequest.
Context `{cap : Capability}.

(** The outcome of [calculate_request_hash] on a request whose hashed
    fields can be read *)
Lemma request_hash_outcome (top p : gmap string pyval) (s : string)
    (in_items sorted_in : list pyval) (h2 h3 : string) :
  top !! "params" = Some (PDict p) →
  p !! "requesterNonce" = Some (PStr s) →
  wf_header p = true →
  p !! "inData" = Some (PList in_items) →
  outcome (calculate_datahash (PList in_items)) = Ok (PList sorted_in, h2) →
  (p !! "outData" = None ∧ h3 = EmptyString
   ∨ ∃ out_items sorted_out,
       p !! "outData" = Some (PList out_items)
       ∧ outcome (calculate_datahash (PList out_items))
         = Ok (PList sorted_out, h3)) →
  outcome (calculate_request_hash (PDict top))
  = match p !! "workloadId" with
    | Some _ =>
        Ok (byte_array_to_hex
              (cu_compute_message_hash
                 (encode_utf8 (header_text p (encode_utf8 s) +:+ h2 +:+ h3))))
    | None => Raise (KeyError "workloadId")
    end.
Proof.
  intros Hparams Hs Hhdr Hin Hh2 Hout.
  unfold wf_header in Hhdr. rewrite !andb_true_iff in Hhdr.
  destruct Hhdr as [[[H1 H2] H3] H4].
  apply required_str_lookup in H1 as [wo Hwo].
  apply required_str_lookup in H2 as [wi Hwi].
  apply required_str_lookup in H4 as [r Hr].
  unfold calculate_request_hash. cbn [getitem].
  rewrite Hparams, bind_ret_l. cbn [getitem].
  rewrite Hs, Hwo, Hwi, Hr, Hin, !bind_ret_l. cbn [add]. rewrite !bind_ret_l.
  unfold optional_str in H3.
  destruct (p !! "workloadId") as [w|] eqn:Hw; [|done].
  destruct w as [| | |w| |]; try done.
  do 4 (cbn [add bytes_of_str]; rewrite ?bind_ret_l).
  assert (Hhead :
    encode_utf8 ((((s +:+ wo) +:+ wi) +:+ w) +:+ r)
    = header_bytes p (encode_utf8 s)).
  { unfold header_bytes, field_bytes. rewrite Hwo, Hwi, Hw, Hr.
    rewrite !encode_utf8_app, <- !(assoc_L (++)). done. }
  rewrite Hhead, outcome_bind. unfold compute_message_hash at 1.
  rewrite outcome_bind. cbn [emit outcome ret snd].
  rewrite bind_ret_l, outcome_bind, Hh2. cbn [setitem].
  rewrite bind_ret_l. cbn [contains]. rewrite bind_ret_l.
  rewrite lookup_insert_ne by done.
  fold (header_bytes p (encode_utf8 s)).
  unfold byte_array_to_base64. fold (header_text p (encode_utf8 s)).
  destruct Hout as [[Hnone ->] | (out_items & sorted_out & Hsome & Hh3)].
  - rewrite Hnone, bool_decide_eq_false_2 by (by intros [? ?]).
    rewrite !bind_ret_l. unfold compute_message_hash.
    by rewrite !outcome_bind.
  - rewrite Hsome, bool_decide_eq_true_2 by done.
    cbn [getitem]. rewrite lookup_insert_ne, Hsome by done.
    rewrite !bind_ret_l. cbn [len]. rewrite !bind_ret_l.
    destruct out_items as [|it out_items].
    + cbn [length Nat.ltb Nat.leb]. rewrite !bind_ret_l.
      assert (h3 = EmptyString) as ->.
      { apply calculate_datahash_Ok_iff in Hh3 as (Hs3 & _ & ->).
        cbn in Hs3. by injection Hs3 as <-. }
      unfold compute_message_hash. by rewrite !outcome_bind.
    + cbn [length Nat.ltb Nat.leb getitem].
      rewrite outcome_bind, outcome_bind, Hh3. cbn [outcome ret snd].
      unfold compute_message_hash. by rewrite !outcome_bind.
Qed.

(** A run of [generate_client_signature] that answers PASSED *)
Lemma generate_client_signature_passed (self self' : ClientSignature)
    (input : pyval) (worker : worker_details) (k : signing_key)
    (sk siv esk : bytes) (dk div : option bytes) t (out : returned_payload) :
  generate_client_signature self input worker k sk siv esk dk div
  = (t, Ok (self', (out, PASSED))) →
  ∃ top d dq t0 t1,
    input = PDict top
    ∧ top !! "params" = Some (PDict d)
    ∧ agree_off ["inData"; "requesterNonce"]
        (<["sessionKeyIv" := PStr (byte_array_to_hex_str siv)]> d) dq
    ∧ t = t0 ++ t1
    ∧ sign_request self input (PDict dq) k sk siv (byte_array_to_hex_str esk)
      = (t1, Ok (self', (out, PASSED))).
Proof.
  intros H. apply generate_client_signature_stages in H
    as [[_ ?] | (top & d & dp & -> & Hparams & _ & Hdp & H)]; [done|].
  destruct H as [(n & _ & _ & _ & _ & ? & _) | (t0 & t1 & dq & -> & Hdq & H)];
    [done|].
  exists top, d, dq, t0, t1. split_and!; try done.
  eapply agree_off_trans.
  - eapply agree_off_weaken; [|exact Hdp]. sublisted.
  - eapply agree_off_weaken; [|exact Hdq]. sublisted.
Qed.

Lemma generate_client_signature_passed_facts (self self' : ClientSignature)
    (input : pyval) (worker : worker_details) (k : signing_key)
    (sk siv esk : bytes) (dk div : option bytes) t (out : returned_payload) :
  generate_client_signature self input worker k sk siv esk dk div
  = (t, Ok (self', (out, PASSED))) →
  ∃ top d p digest enc pk sg,
    input = PDict top
    ∧ top !! "params" = Some (PDict d)
    ∧ out = JsonText (PDict (<["params" := PDict p]> top))
    ∧ last t = Some (Call_sign_digest_deterministic digest)
    ∧ cu_encrypt_data digest (Some sk) (Some siv) = inr enc
    ∧ cu_get_verifying_key k = inr pk
    ∧ ecdsa_sign_digest_deterministic k digest = inr sg
    ∧ p !! "sessionKeyIv" = Some (PStr (byte_array_to_hex_str siv))
    ∧ p !! "encryptedRequestHash" = Some (PStr (byte_array_to_hex_str enc))
    ∧ p !! "requesterSignature" = Some (PStr (byte_array_to_base64 sg))
    ∧ p !! "encryptedSessionKey" = Some (PStr (byte_array_to_hex_str esk))
    ∧ p !! "verifyingKey" = Some (PStr pk)
    ∧ agree_off written_keys d p
    ∧ self' = {| private_key := Some k; public_key := Some pk;
                 tcs_worker := tcs_worker self |}
    ∧ outcome (calculate_request_hash (PDict (<["params" := PDict p]> top)))
      = match p !! "workloadId" with
        | Some _ => Ok (byte_array_to_hex digest)
        | None => Raise (KeyError "workloadId")
        end.
Proof.
  intros H.
  apply generate_client_signature_passed in H
    as (top & d & dq & t0 & t1 & -> & Hparams & Hdq & -> & H).
  apply sign_request_passed in H
    as (top' & dq' & s & in_items & sorted_in & h2 & d2 & h3 & enc & pk & sg
        & t2 & H).
  cbv zeta in H.
  destruct H as ([= <-] & [= <-] & Hs & Hhdr & Hin & Hh2 & Hd2 & Henc & Hpk
                 & Hsg & -> & -> & ->).
  set (digest := cu_compute_message_hash
                   (encode_utf8 (header_text dq (encode_utf8 s)
                                   +:+ h2 +:+ h3))) in *.
  set (p := <["verifyingKey" := PStr pk]> _).
  assert (Hd2' : agree_off ["inData"; "outData"] dq d2).
  { destruct Hd2 as [(_ & _ & ->) | (? & ? & _ & _ & ->)].
    - apply agree_off_insert; [by constructor|apply agree_off_refl].
    - apply agree_off_insert; [by repeat constructor|].
      apply agree_off_insert; [by constructor|apply agree_off_refl]. }
  assert (Hp : agree_off ["inData"; "outData"; "encryptedRequestHash";
                          "requesterSignature"; "encryptedSessionKey";
                          "verifyingKey"] dq p).
  { unfold p.
    do 4 (apply agree_off_insert; [by repeat constructor|]).
    eapply agree_off_weaken; [|exact Hd2']. sublisted. }
  assert (Hin2 : d2 !! "inData" = Some (PList sorted_in)).
  { destruct Hd2 as [(_ & _ & ->) | (? & ? & _ & _ & ->)].
    - by rewrite lookup_insert_eq.
    - by rewrite lookup_insert_ne, lookup_insert_eq. }
  exists top, d, p, digest, enc, pk, sg.
  split_and!; try done.
  - by rewrite !last_app.
  - rewrite Hp by not_listed. rewrite Hdq by not_listed.
    by rewrite lookup_insert_eq.
  - unfold p. rewrite !lookup_insert_ne by done. by rewrite lookup_insert_eq.
  - unfold p. rewrite !lookup_insert_ne by done. by rewrite lookup_insert_eq.
  - unfold p. rewrite !lookup_insert_ne by done. by rewrite lookup_insert_eq.
  - unfold p. by rewrite lookup_insert_eq.
  - intros key Hkey. unfold written_keys in Hkey.
    rewrite Hp by (eapply not_elem_of_weaken; [|exact Hkey]; sublisted).
    rewrite Hdq by (eapply not_elem_of_weaken; [|exact Hkey]; sublisted).
    rewrite lookup_insert_ne; [done|]. intros <-. apply Hkey. listed.
  - destruct (wf_header_agree dq p) as [Hwf Hbytes].
    { intros key Hkey. apply Hp.
      repeat (apply elem_of_cons in Hkey as [->|Hkey]; [not_listed|]).
      by apply elem_of_nil in Hkey. }
    rewrite (request_hash_outcome _ p s sorted_in sorted_in h2 h3).
    + unfold header_text. by rewrite Hbytes.
    + by rewrite lookup_insert_eq.
    + rewrite Hp by not_listed. done.
    + by rewrite Hwf.
    + unfold p. by rewrite !lookup_insert_ne.
    + by apply calculate_datahash_sorted_outcome with in_items.
    + unfold p. rewrite !lookup_insert_ne by done.
      destruct Hd2 as [(Hnone & -> & ->) | (outs & souts & Hsome & Hh3 & ->)].
      * left. rewrite lookup_insert_ne by done. done.
      * right. exists souts, souts. rewrite lookup_insert_eq.
        split; [done|]. by apply calculate_datahash_sorted_outcome with outs.
Qed.

(** X13.  What a signed request holds.  When [generate_client_signature]
    answers PASSED it returns the request text with its [params] changed in
    these places only: [sessionKeyIv] is the hexadecimal text of the session
    IV, [encryptedSessionKey] that of the encrypted session key the caller
    supplied, [encryptedRequestHash] that of the request digest encrypted with
    the session key and IV, [requesterSignature] the base64 text of the
    signature over the same digest, [verifyingKey] the public key derived
    from the private key; [inData], [outData] and [requesterNonce] may have
    changed, and every other entry of [params] and of the request is as the
    caller gave it.  The digest is the one handed to the signing call, the
    last call of the run, and the instance holds both keys afterwards. *)
Theorem signed_request_fields (self self' : ClientSignature)
    (top : gmap string pyval) (worker : worker_details) (k : signing_key)
    (sk siv esk : bytes) (dk div : option bytes) t (out : returned_payload) :
  generate_client_signature self (PDict top) worker k sk siv esk dk div
  = (t, Ok (self', (out, PASSED))) →
  ∃ d p digest enc pk sg,
    top !! "params" = Some (PDict d)
    ∧ out = JsonText (PDict (<["params" := PDict p]> top))
    ∧ last t = Some (Call_sign_digest_deterministic digest)
    ∧ cu_encrypt_data digest (Some sk) (Some siv) = inr enc
    ∧ cu_get_verifying_key k = inr pk
    ∧ ecdsa_sign_digest_deterministic k digest = inr sg
    ∧ p !! "sessionKeyIv" = Some (PStr (byte_array_to_hex_str siv))
    ∧ p !! "encryptedSessionKey" = Some (PStr (byte_array_to_hex_str esk))
    ∧ p !! "encryptedRequestHash" = Some (PStr (byte_array_to_hex_str enc))
    ∧ p !! "requesterSignature" = Some (PStr (byte_array_to_base64 sg))
    ∧ p !! "verifyingKey" = Some (PStr pk)
    ∧ (∀ key, key ∉ written_keys → p !! key = d !! key)
    ∧ private_key self' = Some k
    ∧ public_key self' = Some pk
    ∧ tcs_worker self' = tcs_worker self.
Proof.
  intros H. apply generate_client_signature_passed_facts in H
    as (top' & d & p & digest & enc & pk & sg & [= <-] & Hparams & -> & Hlast
        & Henc & Hpk & Hsg & H1 & H2 & H3 & H4 & H5 & Hagree & -> & _).
  exists d, p, digest, enc, pk, sg. by split_and!.
Qed.

(** X14.  The request hash of a signed request is the digest that was
    signed.  When [generate_client_signature] answers PASSED,
    [calculate_request_hash] applied to the request it returns gives the
    hexadecimal text of the digest that was handed to the signing call,
    provided the request has a [workloadId]; for a signed request without
    [workloadId] it raises [KeyError]. *)
Theorem request_hash_is_signed_digest (self self' : ClientSignature)
    (input : pyval) (worker : worker_details) (k : signing_key)
    (sk siv esk : bytes) (dk div : option bytes) t (out : returned_payload) :
  generate_client_signature self input worker k sk siv esk dk div
  = (t, Ok (self', (out, PASSED))) →
  ∃ signed p digest,
    out = JsonText (PDict signed)
    ∧ signed !! "params" = Some (PDict p)
    ∧ last t = Some (Call_sign_digest_deterministic digest)
    ∧ outcome (calculate_request_hash (PDict signed))
      = match p !! "workloadId" with
        | Some _ => Ok (byte_array_to_hex digest)
        | None => Raise (KeyError "workloadId")
        end.
Proof.
  intros H. apply generate_client_signature_passed_facts in H
    as (top & d & p & digest & enc & pk & sg & -> & Hparams & -> & Hlast
        & _ & _ & _ & _ & _ & _ & _ & _ & _ & _ & Hhash).
  exists (<["params" := PDict p]> top), p, digest.
  split_and!; [done| |done..]. by rewrite lookup_insert_eq.
Qed.

(** X15.  [generate_client_signature] hands back the [params] mapping, and
    not the request text, only when the nonce has the wrong format: the
    status is then FAILED, the instance is unchanged, and the mapping has a
    [requesterNonce] that is not empty and that [is_valid_hex_str] rejects.
    In particular the branch for a request without [requesterNonce] cannot be
    reached, since the payload check has required the field before. *)
Theorem params_returned_only_for_bad_nonce (self self' : ClientSignature)
    (input : pyval) (worker : worker_details) (k : signing_key)
    (sk siv esk : bytes) (dk div : option bytes) t (p : pyval)
    (st : SignatureStatus) :
  generate_client_signature self input worker k sk siv esk dk div
  = (t, Ok (self', (ParamsObject p, st))) →
  st = FAILED
  ∧ self' = self
  ∧ ∃ dp n,
      p = PDict dp
      ∧ dp !! "requesterNonce" = Some n
      ∧ outcome (len n) ≠ Ok 0%nat
      ∧ hex_is_valid_hex_str n = inr false.
Proof.
  intros H. apply generate_client_signature_stages in H
    as [[? _] | (top & d & dp & -> & Hparams & _ & Hdp & H)]; [done|].
  destruct H as [(n & Hn & Hlen & Hhex & [= ->] & -> & ->)
                | (t0 & t1 & dq & -> & Hdq & H)].
  - split_and!; [done..|]. by exists dp, n.
  - by apply sign_request_returns_text in H as [v ?].
Qed.

End SignedRequest.

Lemma add_str_inv (a b : pyval) (c : string) :
  outcome (add a b) = Ok (PStr c) →
  ∃ x y, a = PStr x ∧ b = PStr y ∧ c = x +:+ y.
Proof.
  destruct a, b; try done. cbn [add outcome ret snd].
  intros [= <-]. by eexists _, _.
Qed.

Lemma str_inv (v : pyval) (w : pyval) :
  outcome (str v) = Ok w → ∃ s, w = PStr s ∧ str v = ret (PStr s).
Proof.
  destruct v; try done; cbn [str outcome ret snd]; intros [= <-];
    by eexists.
Qed.

Lemma getitem_outcome (d : gmap string pyval) (k : string) (v : pyval) :
  outcome (getitem (PDict d) k) = Ok v ↔ d !! k = Some v.
Proof.
  cbn [getitem]. destruct (d !! k); cbn [outcome ret raise snd];
    split; intros H; by simplify_eq.
Qed.

Section ReceiptsAccepted.
Context `{cap : Capability}.

Lemma receipt_tail_passed (d : gmap string pyval) (sig_field text : string) :
  outcome
    (let* concat_hash := bytes_of_str (PStr text) in
     let* final_hash := compute_message_hash concat_hash in
     let* signature := getitem (PDict d) sig_field in
     let* k := getitem (PDict d) "receiptVerificationKey" in
     let* verification_key := encode_ascii k in
     verify_with_key (from_pem verification_key) signature final_hash)
  = Ok (Some PASSED)
  ↔ receipt_accepted d sig_field text.
Proof.
  unfold receipt_accepted. cbn [bytes_of_str]. rewrite bind_ret_l.
  unfold compute_message_hash. rewrite bind_assoc, outcome_bind.
  cbn [emit outcome snd]. rewrite bind_ret_l. split.
  - intros H.
    apply outcome_bind_Ok in H as (sig & Hsig & H).
    apply outcome_bind_Ok in H as (kv & Hk & H).
    apply outcome_bind_Ok in H as (vk & Hvk & H).
    apply getitem_outcome in Hsig, Hk.
    destruct kv as [| | |k| |]; try done. cbn [encode_ascii] in Hvk.
    destruct (forallb is_ascii _) eqn:Hascii; [|done].
    cbn [outcome ret snd] in Hvk. injection Hvk as <-.
    exists k, sig. split_and!; try done.
    by apply verify_with_key_passed.
  - intros (k & sig & Hsig & Hk & Hascii & Hacc).
    cbn [getitem]. rewrite Hsig, Hk, !bind_ret_l. cbn [encode_ascii].
    rewrite Hascii, bind_ret_l. by apply verify_with_key_passed in Hacc.
Qed.

(** X12.  The receipt functions answer PASSED exactly when the capability
    accepts the signature.  [verify_update_receipt_signature] answers PASSED
    if and only if [workOrderId] and [updateData] are strings, [updateType]
    is a value [str] turns into text, [receiptVerificationKey] is ASCII text
    that parses as a key, [updateSignature] decodes, and [verify_digest]
    answers [True] for the hash of [workOrderId], the text of [updateType]
    and [updateData] put together.  [verify_create_receipt_signature] does
    the same with [requesterSignature] and the seven fields of a receipt. *)
Theorem receipt_passed_iff (d : gmap string pyval) :
  (outcome (verify_update_receipt_signature (PDict d)) = Ok (Some PASSED)
   ↔ ∃ w t u,
       text_field false d "workOrderId" w
       ∧ text_field true d "updateType" t
       ∧ text_field false d "updateData" u
       ∧ receipt_accepted d "updateSignature" ((w +:+ t) +:+ u))
  ∧ ∀ top,
      top !! "params" = Some (PDict d) →
      (outcome (verify_create_receipt_signature (PDict top))
       = Ok (Some PASSED)
       ↔ ∃ w s i r c h n,
           text_field false d "workOrderId" w
           ∧ text_field false d "workerServiceId" s
           ∧ text_field false d "workerId" i
           ∧ text_field false d "requesterId" r
           ∧ text_field true d "receiptCreateStatus" c
           ∧ text_field false d "workOrderRequestHash" h
           ∧ text_field false d "requesterGeneratedNonce" n
           ∧ receipt_accepted d "requesterSignature"
               ((((((w +:+ s) +:+ i) +:+ r) +:+ c) +:+ h) +:+ n)).
Proof.
  unfold text_field. split.
  - unfold verify_update_receipt_signature. split.
    + intros H.
      apply outcome_bind_Ok in H as (a & Ha & H).
      apply outcome_bind_Ok in H as (b & Hb & H).
      apply outcome_bind_Ok in H as (b' & Hb' & H).
      apply outcome_bind_Ok in H as (ab & Hab & H).
      apply outcome_bind_Ok in H as (c & Hc & H).
      apply outcome_bind_Ok in H as (abc & Habc & H).
      apply getitem_outcome in Ha, Hb, Hc.
      destruct abc as [| | |text| |];
        try (by apply outcome_bind_Ok in H as (? & ? & _)).
      apply add_str_inv in Habc as (x & u & -> & -> & ->).
      apply add_str_inv in Hab as (w & t & -> & -> & ->).
      apply str_inv in Hb' as (t' & [= <-] & Hstr).
      apply receipt_tail_passed in H.
      exists w, t, u. split_and!; try done. by exists b.
    + intros (w & t & u & Hw & (v & Hv & Hstr) & Hu & Hacc).
      cbn [getitem]. rewrite Hw, Hv, Hu, !bind_ret_l, Hstr, !bind_ret_l.
      cbn [add]. rewrite !bind_ret_l. cbn [add]. rewrite bind_ret_l.
      by apply receipt_tail_passed.
  - intros top Hparams. unfold verify_create_receipt_signature.
    cbn [getitem]. rewrite Hparams, bind_ret_l. split.
    + intros H.
      apply outcome_bind_Ok in H as (a & Ha & H).
      apply outcome_bind_Ok in H as (b & Hb & H).
      apply outcome_bind_Ok in H as (ab & Hab & H).
      apply outcome_bind_Ok in H as (c & Hc & H).
      apply outcome_bind_Ok in H as (abc & Habc & H).
      apply outcome_bind_Ok in H as (r & Hr & H).
      apply outcome_bind_Ok in H as (abcd & Habcd & H).
      apply outcome_bind_Ok in H as (e & He & H).
      apply outcome_bind_Ok in H as (e' & He' & H).
      apply outcome_bind_Ok in H as (abcde & Habcde & H).
      apply outcome_bind_Ok in H as (f & Hf & H).
      apply outcome_bind_Ok in H as (abcdef & Habcdef & H).
      apply outcome_bind_Ok in H as (g & Hg & H).
      apply outcome_bind_Ok in H as (all & Hall & H).
      apply getitem_outcome in Ha, Hb, Hc, Hr, He, Hf, Hg.
      destruct all as [| | |text| |];
        try (by apply outcome_bind_Ok in H as (? & ? & _)).
      apply add_str_inv in Hall as (x6 & n & -> & -> & ->).
      apply add_str_inv in Habcdef as (x5 & h & -> & -> & ->).
      apply add_str_inv in Habcde as (x4 & cs & -> & -> & ->).
      apply add_str_inv in Habcd as (x3 & rs & -> & -> & ->).
      apply add_str_inv in Habc as (x2 & i & -> & -> & ->).
      apply add_str_inv in Hab as (w & s & -> & -> & ->).
      apply str_inv in He' as (c' & [= <-] & Hstr).
      apply receipt_tail_passed in H.
      exists w, s, i, rs, cs, h, n. split_and!; try done. by exists e.
    + intros (w & s & i & r & c & h & n & Hw & Hs & Hi & Hr
              & (v & Hv & Hstr) & Hh & Hn & Hacc).
      cbn [getitem]. rewrite Hw, Hs, Hi, Hr, Hv, Hh, Hn.
      do 4 (cbn [add]; rewrite ?bind_ret_l). rewrite Hstr.
      do 4 (cbn [add]; rewrite ?bind_ret_l).
      by apply receipt_tail_passed.
Qed.

(** X16.  [calculate_request_hash] hashes [outData] only when it is present
    and not empty, so that a request with an empty [outData] list has the
    hash, and makes the hashing calls, of the same request without
    [outData]. *)
Theorem request_hash_ignores_empty_out_data (top p : gmap string pyval) :
  p !! "outData" = None →
  calculate_request_hash
    (PDict (<["params" := PDict (<["outData" := PList []]> p)]> top))
  = calculate_request_hash (PDict (<["params" := PDict p]> top)).
Proof.
  intros Hnone. unfold calculate_request_hash. cbn [getitem].
  rewrite !lookup_insert_eq, !bind_ret_l. cbn [getitem].
  rewrite !lookup_insert_ne by done.
  do 12 (apply bind_ext; intros ?).
  apply bind_ext; intros [sorted_in hash_2].
  cbn [setitem]. rewrite !bind_ret_l. cbn [contains]. rewrite !bind_ret_l.
  cbn [getitem].
  rewrite (lookup_insert_ne (<["outData" := PList []]> p) "inData" "outData")
    by done.
  rewrite (lookup_insert_ne p "inData" "outData") by done.
  rewrite lookup_insert_eq, Hnone.
  rewrite (bool_decide_eq_true_2 (is_Some (Some _))) by done.
  rewrite (bool_decide_eq_false_2 (is_Some None)) by (by intros [? ?]).
  rewrite !bind_ret_l. cbn [len]. by rewrite !bind_ret_l.
Qed.

End ReceiptsAccepted.

(** * These theorems at concrete inputs *)

(** X1 at the request of the examples, whose four items all carry [data] and
    [index], and at an empty request *)
Lemma payload_json_check_decides_witness :
  __payload_json_check
    (PDict {[ "params" := PDict Examples.request_params ]}) = ret true
  ∧ __payload_json_check (PDict ∅) = ret false.
Proof.
  split.
  - apply (proj2 (proj2 (payload_json_check_decides
                           {[ "params" := PDict Examples.request_params ]}))
             Examples.request_params Examples.in_data);
      by vm_compute.
  - apply (proj1 (payload_json_check_decides ∅)). by vm_compute.
Defined.

(** X2 at a request that has no [inData] *)
Lemma generate_client_signature_checks_first_witness :
  Scenarios.signing_run
    {[ "params" := PDict {[ "workOrderId" := PStr "wo1" ]} ]}
  = ([], Ok (init example_config,
             (JsonText (PDict {[ "params" :=
                                   PDict {[ "workOrderId" := PStr "wo1" ]} ]}),
              FAILED))).
Proof.
  apply (proj1 (generate_client_signature_checks_first
                  (cap := Reference.capability) (init example_config)
                  example_worker (encode_utf8 "signing key")
                  (encode_utf8 "session key") (encode_utf8 "IV")
                  (encode_utf8 "wrapped key")
                  (Some (encode_utf8 "data key")) (Some (encode_utf8 "JW"))
                  {[ "params" := PDict {[ "workOrderId" := PStr "wo1" ]} ]})
           {[ "workOrderId" := PStr "wo1" ]});
    by vm_compute.
Defined.

(** X3 at three items given out of order *)
Lemma calculate_datahash_again_witness :
  ∃ t h,
    calculate_datahash (cap := Reference.capability)
      (PList Examples.out_data)
    = (t, Ok (PList Examples.sorted_out_data, h))
    ∧ calculate_datahash (cap := Reference.capability)
        (PList Examples.sorted_out_data)
      = (t, Ok (PList Examples.sorted_out_data, h)).
Proof.
  assert (H : ∃ t h,
    calculate_datahash (cap := Reference.capability)
      (PList Examples.out_data)
    = (t, Ok (PList Examples.sorted_out_data, h))).
  { vm_compute. by eexists _, _. }
  destruct H as (t & h & H). exists t, h. split; [exact H|].
  exact (calculate_datahash_again (cap := Reference.capability) _ _ _ _ H).
Defined.

(** X5 at the headers ["ab"], ["c"] and ["a"], ["bc"] *)
Lemma header_hash_ignores_field_boundaries_witness :
  __calculate_hash_on_concatenated_string (cap := Reference.capability)
    (PDict Scenarios.header_ab_c) (encode_utf8 "5f3a")
  = __calculate_hash_on_concatenated_string (cap := Reference.capability)
      (PDict Scenarios.header_a_bc) (encode_utf8 "5f3a").
Proof.
  apply header_hash_ignores_field_boundaries; by vm_compute.
Defined.

(** X6 at a list with an item that has no [index], and at a list whose
    indexes are an integer and a string *)
Lemma calculate_datahash_checks_index_first_witness :
  calculate_datahash (cap := Reference.capability)
    (PList [Examples.item 0 [("data", "abc")];
            PDict {[ "data" := PStr "def" ]}])
  = ([], Raise (KeyError "index"))
  ∧ calculate_datahash (cap := Reference.capability)
      (PList [Examples.item 0 [("data", "abc")];
              PDict {[ "index" := PStr "1"; "data" := PStr "def" ]}])
    = ([], Raise TypeError).
Proof.
  split.
  - apply (proj1 (calculate_datahash_checks_index_first
                    (cap := Reference.capability) _)); [by vm_compute|].
    apply Exists_cons_tl, Exists_cons_hd. by vm_compute.
  - apply (proj2 (calculate_datahash_checks_index_first
                    (cap := Reference.capability) _)
             [PInt 0; PStr "1"] 0 "1").
    + repeat (constructor; [by vm_compute|]). constructor.
    + apply list_elem_of_here.
    + apply list_elem_of_further, list_elem_of_here.
Defined.

(** X8 at the singleton response: with an empty key text, and with a
    signature text that is not base64 *)
Lemma verification_examines_key_first_witness :
  outcome (verify_signature (cap := Reference.capability)
             (PDict Scenarios.singleton_fields) (PStr EmptyString) PNone)
  = Ok (Some INVALID_VERIFICATION_KEY)
  ∧ ∃ msg,
      outcome (verify_signature (cap := Reference.capability)
                 (PDict (<["workerSignature" := PStr "!"]>
                           Examples.response_fields))
                 (PStr Examples.worker_key) PNone)
      = Raise (ExternalError msg).
Proof.
  assert (Hread : ∀ sig,
    hashed_response
      (<["workerSignature" := sig]> Examples.response_fields) "5f3a" sig
      Examples.sorted_out_data).
  { intros sig. split_and!; [by vm_compute|by rewrite lookup_insert_eq
                            |by vm_compute|].
    exists Examples.out_data. split_and!; by vm_compute. }
  split.
  - apply (proj1 (verification_examines_key_first
                    (cap := Reference.capability) Scenarios.singleton_fields
                    (PStr EmptyString) PNone "5f3a"
                    (PStr Examples.singleton_signature)
                    Examples.sorted_out_data ltac:(by vm_compute)
                    (Hread _))).
    intros k [= <-]. by eexists.
  - destruct (cu_base64_to_byte_array (Capability := Reference.capability)
                "!") as [msg|sg] eqn:Hsg; [|by vm_compute in Hsg].
    exists msg.
    apply (proj2 (verification_examines_key_first
                    (cap := Reference.capability)
                    (<["workerSignature" := PStr "!"]>
                       Examples.response_fields)
                    (PStr Examples.worker_key) PNone "5f3a" (PStr "!")
                    Examples.sorted_out_data ltac:(by vm_compute)
                    (Hread _))
             Examples.worker_key (encode_utf8 Examples.worker_key) "!" msg
             eq_refl eq_refl eq_refl Hsg).
Defined.

(** X9 at the singleton response and the worker key: the answer [True]
    gives PASSED; a signature of three bytes gives the format error. *)
Lemma verification_status_of_answer_witness :
  outcome (verify_signature (cap := Reference.capability)
             (PDict Scenarios.singleton_fields) (PStr Examples.worker_key)
             PNone)
  = Ok (Some PASSED)
  ∧ outcome (verify_signature (cap := Reference.capability)
               (PDict (<["workerSignature" := PStr "AAAA"]>
                         Examples.response_fields))
               (PStr Examples.worker_key) PNone)
    = Ok (Some INVALID_SIGNATURE_FORMAT).
Proof.
  assert (Hread : ∀ s,
    hashed_response
      (<["workerSignature" := PStr s]> Examples.response_fields) "5f3a"
      (PStr s) Examples.sorted_out_data).
  { intros s. split_and!; [by vm_compute|by rewrite lookup_insert_eq
                          |by vm_compute|].
    exists Examples.out_data. split_and!; by vm_compute. }
  assert (Htrue : ∃ sg,
    cu_base64_to_byte_array (Capability := Reference.capability)
      Examples.singleton_signature = inr sg
    ∧ ecdsa_verify_digest (Capability := Reference.capability)
        (encode_utf8 Examples.worker_key) sg
        (signed_digest (cap := Reference.capability)
           Scenarios.singleton_fields "5f3a" Examples.sorted_out_data)
      = inr true).
  { vm_compute. eexists. split; reflexivity. }
  assert (Hshort : ∃ sg,
    cu_base64_to_byte_array (Capability := Reference.capability) "AAAA"
    = inr sg
    ∧ ecdsa_verify_digest (Capability := Reference.capability)
        (encode_utf8 Examples.worker_key) sg
        (signed_digest (cap := Reference.capability)
           (<["workerSignature" := PStr "AAAA"]> Examples.response_fields)
           "5f3a" Examples.sorted_out_data)
      = inl "Malformed formatting of signature").
  { vm_compute. eexists. split; reflexivity. }
  destruct Htrue as (sg & Hsg & Hver).
  destruct Hshort as (sg' & Hsg' & Hver').
  split.
  - etrans.
    + exact (verification_status_of_answer (cap := Reference.capability)
               Scenarios.singleton_fields PNone "5f3a"
               Examples.singleton_signature Examples.worker_key
               Examples.sorted_out_data (encode_utf8 Examples.worker_key) sg
               ltac:(by vm_compute) (Hread _) eq_refl Hsg).
    + rewrite Hver. reflexivity.
  - etrans.
    + exact (verification_status_of_answer (cap := Reference.capability)
               (<["workerSignature" := PStr "AAAA"]> Examples.response_fields)
               PNone "5f3a" "AAAA" Examples.worker_key
               Examples.sorted_out_data (encode_utf8 Examples.worker_key) sg'
               ltac:(by vm_compute) (Hread _) eq_refl Hsg').
    + rewrite Hver'. reflexivity.
Defined.

(** X10 at the receipts of the examples, with the integers [1] and [0] *)
Lemma receipt_status_is_hashed_as_text_witness :
  verify_update_receipt_signature (cap := Reference.capability)
    (PDict (<["updateType" := PInt 1]> Scenarios.update_fields))
  = verify_update_receipt_signature (cap := Reference.capability)
      (PDict (<["updateType" := PStr "1"]> Scenarios.update_fields))
  ∧ verify_create_receipt_signature (cap := Reference.capability)
      (PDict (<["params" :=
                  PDict (<["receiptCreateStatus" := PInt 0]>
                           Scenarios.create_fields)]> ∅))
    = verify_create_receipt_signature (cap := Reference.capability)
        (PDict (<["params" :=
                    PDict (<["receiptCreateStatus" := PStr "0"]>
                             Scenarios.create_fields)]> ∅)).
Proof.
  split.
  - apply (proj1 (receipt_status_is_hashed_as_text
                    (cap := Reference.capability) Scenarios.update_fields
                    (PInt 1) "1" eq_refl)).
  - apply (proj2 (receipt_status_is_hashed_as_text
                    (cap := Reference.capability) Scenarios.create_fields
                    (PInt 0) "0" eq_refl)).
Defined.

(** X11 at the update receipt of the examples with a key that starts with
    the character 233 *)
Lemma receipt_key_outside_ascii_raises_witness :
  outcome (verify_update_receipt_signature (cap := Reference.capability)
             (PDict (<["receiptVerificationKey" :=
                         PStr Scenarios.key_outside_ascii]>
                       (<["updateType" := PInt 1]> Scenarios.update_fields))))
  = Raise UnicodeEncodeError.
Proof.
  apply (receipt_key_outside_ascii_raises (cap := Reference.capability)
           (<["receiptVerificationKey" := PStr Scenarios.key_outside_ascii]>
              (<["updateType" := PInt 1]> Scenarios.update_fields))
           Scenarios.key_outside_ascii); try (by vm_compute).
  eexists. by vm_compute.
Defined.

(** X12 at the receipts of the examples: the update receipt is accepted
    for the text ["wo11done"], and the create receipt, which the operation
    passes, carries the seven fields read. *)
Lemma receipt_passed_iff_witness :
  outcome (verify_update_receipt_signature (cap := Reference.capability)
             (PDict (<["updateType" := PInt 1]> Scenarios.update_fields)))
  = Ok (Some PASSED)
  ∧ ∃ w s i r c h n,
      text_field false Scenarios.create_fields "workOrderId" w
      ∧ text_field false Scenarios.create_fields "workerServiceId" s
      ∧ text_field false Scenarios.create_fields "workerId" i
      ∧ text_field false Scenarios.create_fields "requesterId" r
      ∧ text_field true Scenarios.create_fields "receiptCreateStatus" c
      ∧ text_field false Scenarios.create_fields "workOrderRequestHash" h
      ∧ text_field false Scenarios.create_fields "requesterGeneratedNonce" n
      ∧ receipt_accepted (cap := Reference.capability)
          Scenarios.create_fields "requesterSignature"
          ((((((w +:+ s) +:+ i) +:+ r) +:+ c) +:+ h) +:+ n).
Proof.
  split.
  - apply (proj1 (receipt_passed_iff (cap := Reference.capability) _)).
    exists "wo1", "1", "done". split_and!; [by vm_compute| |by vm_compute|].
    + exists (PInt 1). split; by vm_compute.
    + exists Examples.worker_key, (PStr Examples.update_signature).
      split_and!; [by vm_compute..|].
      exists Examples.worker_key, (encode_utf8 Examples.worker_key),
        Examples.update_signature.
      destruct (cu_base64_to_byte_array (Capability := Reference.capability)
                  Examples.update_signature) as [msg|sg] eqn:Hsg;
        [by vm_compute in Hsg|].
      exists sg. split_and!; [done..|].
      vm_compute in Hsg. injection Hsg as <-. by vm_compute.
  - apply (proj2 (receipt_passed_iff (cap := Reference.capability)
                    Scenarios.create_fields)
             {[ "params" := PDict Scenarios.create_fields ]});
      by vm_compute.
Defined.

(** X13 at the request of the examples *)
Lemma signed_request_fields_witness :
  ∃ self' p enc sg,
    outcome (Scenarios.signing_run
               {[ "params" := PDict Examples.request_params ]})
    = Ok (self', (JsonText (PDict {[ "params" := PDict p ]}), PASSED))
    ∧ public_key self' = Some "signing key"
    ∧ p !! "sessionKeyIv" = Some (PStr "4956")
    ∧ p !! "encryptedSessionKey" = Some (PStr "77726170706564206b6579")
    ∧ p !! "encryptedRequestHash"
      = Some (PStr (byte_array_to_hex_str (cap := Reference.capability) enc))
    ∧ p !! "requesterSignature"
      = Some (PStr (byte_array_to_base64 (cap := Reference.capability) sg))
    ∧ p !! "verifyingKey" = Some (PStr "signing key")
    ∧ p !! "workOrderId" = Some (PStr "wo1").
Proof.
  assert (Hpassed :
    match outcome (Scenarios.signing_run
                     {[ "params" := PDict Examples.request_params ]}) with
    | Ok (_, (_, PASSED)) => True
    | _ => False
    end) by (vm_compute; exact I).
  unfold outcome in *.
  destruct (Scenarios.signing_run _) as [t r] eqn:Hr. cbn [snd] in *.
  destruct r as [[self' [out st]]|e]; [|exfalso; exact Hpassed].
  destruct st; try (exfalso; exact Hpassed).
  destruct (signed_request_fields (cap := Reference.capability) _ _ _ _ _ _ _
              _ _ _ _ _ Hr)
    as (d & p & digest & enc & pk & sg & Hd & -> & _ & _ & Hpk & _ & Hiv
        & Hesk & Henc & Hsig & Hvk & Hrest & Hprv & Hpub & Hcfg).
  clear Hr. exists self', p, enc, sg.
  assert (d = Examples.request_params) as ->.
  { vm_compute in Hd. injection Hd as <-. reflexivity. }
  assert (pk = "signing key") as ->.
  { vm_compute in Hpk. injection Hpk as <-. reflexivity. }
  split_and!.
  - by rewrite insert_singleton_eq.
  - exact Hpub.
  - rewrite Hiv. by vm_compute.
  - rewrite Hesk. by vm_compute.
  - exact Henc.
  - exact Hsig.
  - exact Hvk.
  - rewrite Hrest; [by vm_compute|]. unfold written_keys.
    rewrite !not_elem_of_cons. split_and!; try done. apply not_elem_of_nil.
Defined.

(** X14 at the request of the examples with a [workloadId], and at the same
    request without one *)
Lemma request_hash_is_signed_digest_witness :
  (∃ self' signed digest,
     Scenarios.signing_run Scenarios.workload_request
     = (calls (Scenarios.signing_run Scenarios.workload_request),
        Ok (self', (JsonText (PDict signed), PASSED)))
     ∧ last (calls (Scenarios.signing_run Scenarios.workload_request))
       = Some (Call_sign_digest_deterministic digest)
     ∧ outcome (calculate_request_hash (cap := Reference.capability)
                  (PDict signed))
       = Ok (byte_array_to_hex (cap := Reference.capability) digest))
  ∧ ∃ self' signed,
      outcome (Scenarios.signing_run
                 {[ "params" := PDict Examples.request_params ]})
      = Ok (self', (JsonText (PDict signed), PASSED))
      ∧ outcome (calculate_request_hash (cap := Reference.capability)
                   (PDict signed))
        = Raise (KeyError "workloadId").
Proof.
  split.
  - assert (Hpassed :
      match outcome (Scenarios.signing_run Scenarios.workload_request) with
      | Ok (_, (JsonText (PDict signed), PASSED)) =>
          match signed !! "params" with
          | Some (PDict p) => p !! "workloadId" = Some (PStr "776c")
          | _ => False
          end
      | _ => False
      end) by (vm_compute; reflexivity).
    unfold outcome, calls in *.
    destruct (Scenarios.signing_run _) as [t r] eqn:Hr. cbn [fst snd] in *.
    destruct r as [[self' [out st]]|e]; [|exfalso; exact Hpassed].
    destruct out as [[| | | | |signed0]|]; try (exfalso; exact Hpassed).
    destruct st; try (exfalso; exact Hpassed).
    destruct (request_hash_is_signed_digest (cap := Reference.capability)
                _ _ _ _ _ _ _ _ _ _ _ _ Hr)
      as (signed & p & digest & [= ->] & Hp & Hlast & Hhash).
    clear Hr. rewrite Hp in Hpassed. rewrite Hpassed in Hhash.
    exists self', signed, digest. split_and!; [reflexivity|exact Hlast|].
    exact Hhash.
  - assert (Hpassed :
      match outcome (Scenarios.signing_run
                       {[ "params" := PDict Examples.request_params ]}) with
      | Ok (_, (JsonText (PDict signed), PASSED)) =>
          match signed !! "params" with
          | Some (PDict p) => p !! "workloadId" = None
          | _ => False
          end
      | _ => False
      end) by (vm_compute; reflexivity).
    unfold outcome in *.
    destruct (Scenarios.signing_run _) as [t r] eqn:Hr. cbn [snd] in *.
    destruct r as [[self' [out st]]|e]; [|exfalso; exact Hpassed].
    destruct out as [[| | | | |signed0]|]; try (exfalso; exact Hpassed).
    destruct st; try (exfalso; exact Hpassed).
    destruct (request_hash_is_signed_digest (cap := Reference.capability)
                _ _ _ _ _ _ _ _ _ _ _ _ Hr)
      as (signed & p & digest & [= ->] & Hp & Hlast & Hhash).
    clear Hr. rewrite Hp in Hpassed. rewrite Hpassed in Hhash.
    exists self', signed. split; [reflexivity|exact Hhash].
Defined.

(** X15 at a request whose nonce is not hexadecimal *)
Lemma params_returned_only_for_bad_nonce_witness :
  ∃ p,
    outcome (Scenarios.signing_run request_with_bad_nonce)
    = Ok (init example_config, (ParamsObject (PDict p), FAILED))
    ∧ p !! "requesterNonce" = Some (PStr "zz")
    ∧ hex_is_valid_hex_str (Capability := Reference.capability) (PStr "zz")
      = inr false.
Proof.
  assert (Hshape :
    match outcome (Scenarios.signing_run request_with_bad_nonce) with
    | Ok (_, (ParamsObject (PDict p), _)) =>
        p !! "requesterNonce" = Some (PStr "zz")
    | _ => False
    end) by (vm_compute; reflexivity).
  unfold outcome in *.
  destruct (Scenarios.signing_run _) as [t r] eqn:Hr. cbn [snd] in *.
  destruct r as [[self' [out st]]|e]; [|exfalso; exact Hshape].
  destruct out as [|[| | | | |p]]; try (exfalso; exact Hshape).
  destruct (params_returned_only_for_bad_nonce (cap := Reference.capability)
              _ _ _ _ _ _ _ _ _ _ _ _ _ Hr)
    as (-> & -> & dp & n & [= <-] & Hn & _ & Hhex).
  clear Hr. exists p. split_and!; [reflexivity|exact Hshape|].
  rewrite Hshape in Hn. injection Hn as <-. exact Hhex.
Defined.

(** X16 at the request of the examples with a [workloadId]: the hash is
    computed, and it is the same with an empty [outData]. *)
Lemma request_hash_ignores_empty_out_data_witness :
  calculate_request_hash (cap := Reference.capability)
    (PDict (<["params" :=
                PDict (<["outData" := PList []]>
                         (<["workloadId" := PStr "776c"]>
                            Examples.request_params))]> ∅))
  = calculate_request_hash (cap := Reference.capability)
      (PDict (<["params" :=
                  PDict (<["workloadId" := PStr "776c"]>
                           Examples.request_params)]> ∅))
  ∧ ∃ h,
      outcome (calculate_request_hash (cap := Reference.capability)
                 (PDict (<["params" :=
                             PDict (<["workloadId" := PStr "776c"]>
                                      Examples.request_params)]> ∅)))
      = Ok h
      ∧ String.length h = 64%nat.
Proof.
  split.
  - apply request_hash_ignores_empty_out_data. by vm_compute.
  - vm_compute. eexists. split; reflexivity.
Defined.
